(** * drmrkj-blog: the blurred-bubbles background and the likes endpoint

    A shallow embedding of
    - the colour utilities [tint] and [rgbToHslTuple],
    - the occupancy grid, the bubble placement loop, the physics
      integrator, the renderer's radius pulsation and the frame scheduler of
      [BlurredBubblesBackground],
    - the [GET] and [POST] handlers of the likes route and the database
      pool behind them,
    - the timers of the component's effect and the initial loader,
    followed by the properties stated about them.

    Numbers.  The colour utilities are modelled on IEEE binary64 values
    (Rocq's primitive floats are exactly JavaScript's numbers), because what
    is said about them concerns NaN.  The simulation is modelled over the
    real numbers: its formulas are read with their mathematical meaning and
    rounding is not modelled.  Where a property hinges on rounding, overflow
    or NaN (the speed limit, the clamp of the rendered radius), the step is
    read on binary64 values as well, in [Sim64].  Canvas dimensions
    ([clientWidth], [clientHeight]) are integers. *)

From Stdlib Require Floats Uint63 QArith.
From Stdlib Require Import ZArith Reals Lra Lia String Ascii List Bool.
From stdpp Require Import base list strings gmap.

(* ===================================================================== *)
(** * Part I: the program *)
(* ===================================================================== *)

(** ** Colour utilities (binary64) *)

Module Color.

Import Floats.
Local Open Scope float_scope.

(** JavaScript strings are sequences of code units; an [ascii] stands for a
    code unit below 256. *)

Definition is_nan (x : float) : bool := negb (PrimFloat.eqb x x).

(** [Math.max] and [Math.min] on two arguments: NaN if an argument is NaN,
    and [+0] is larger than [-0]. *)
Definition Math_max (a b : float) : float :=
  if is_nan a || is_nan b then nan
  else if PrimFloat.ltb a b then b
  else if PrimFloat.ltb b a then a
  else match PrimFloat.classify a with
       | NZero => b
       | _ => a
       end.

Definition Math_min (a b : float) : float :=
  if is_nan a || is_nan b then nan
  else if PrimFloat.ltb a b then a
  else if PrimFloat.ltb b a then b
  else match PrimFloat.classify a with
       | NZero => a
       | _ => b
       end.

Definition Math_max3 (a b c : float) : float := Math_max (Math_max a b) c.
Definition Math_min3 (a b c : float) : float := Math_min (Math_min a b) c.

(** *** Strings *)

Definition code (c : ascii) : nat := nat_of_ascii c.

(** White space of [parseInt]'s leading trim, among the code units below
    256: TAB, LF, VT, FF, CR, SP, NBSP. *)
Definition is_space (c : ascii) : bool :=
  let n := code c in
  ((9 <=? n)%nat && (n <=? 13)%nat) || (n =? 32)%nat || (n =? 160)%nat.

Definition is_digit (c : ascii) : bool :=
  let n := code c in (48 <=? n)%nat && (n <=? 57)%nat.

Definition hex_value (c : ascii) : option nat :=
  let n := code c in
  if (48 <=? n)%nat && (n <=? 57)%nat then Some (n - 48)%nat
  else if (97 <=? n)%nat && (n <=? 102)%nat then Some (n - 87)%nat
  else if (65 <=? n)%nat && (n <=? 70)%nat then Some (n - 55)%nat
  else None.

Definition of_nat (n : nat) : float := PrimFloat.of_uint63 (Uint63.of_Z (Z.of_nat n)).

Fixpoint skip_space (s : string) : string :=
  match s with
  | String c s' => if is_space c then skip_space s' else s
  | EmptyString => s
  end.

(** The digits of [parseInt(_, 16)]: the longest prefix of hexadecimal
    digits, accumulated from the left ([None] when there is none).  The
    accumulation is exact for up to thirteen digits; every call below passes
    a slice of two code units. *)
Fixpoint hex_digits (acc : option float) (s : string) : option float :=
  match s with
  | String c s' =>
      match hex_value c with
      | Some d =>
          hex_digits (Some (match acc with
                            | Some a => a * 16 + of_nat d
                            | None => of_nat d
                            end)) s'
      | None => acc
      end
  | EmptyString => acc
  end.

Definition strip_0x (s : string) : string :=
  match s with
  | String "0" (String "x" s') => s'
  | String "0" (String "X" s') => s'
  | _ => s
  end.

(** [parseInt(s, 16)] *)
Definition parseInt16 (s : string) : float :=
  let s1 := skip_space s in
  let '(neg, s2) :=
    match s1 with
    | String "-" s' => (true, s')
    | String "+" s' => (false, s')
    | _ => (false, s1)
    end in
  match hex_digits None (strip_0x s2) with
  | Some v => if neg then - v else v
  | None => nan
  end.

(** [s.replace('#', '')]: the first ['#'] is removed. *)
Fixpoint remove_first_hash (s : string) : string :=
  match s with
  | String c s' => if Ascii.eqb c "#" then s' else String c (remove_first_hash s')
  | EmptyString => EmptyString
  end.

(** [s.slice(a, b)] for [0 <= a <= b]. *)
Definition slice (s : string) (a b : nat) : string := String.substring a (b - a) s.

Definition startsWith (s p : string) : bool := String.prefix p s.

(** *** tint

    The function returns either its argument or the template literal
    [rgb(${r}, ${g}, ${b})]; the latter is kept as its three numbers (the
    printing of a number is not modelled). *)
Inductive tinted : Type :=
| Unchanged (color : string)
| RgbText (r g b : float).

Definition clamp (v : float) : float := Math_max 0 (Math_min 255 v).

Definition tint (color : string) (factor : float) : tinted :=
  if String.eqb color "" then Unchanged color
  else
    let hex := remove_first_hash color in
    if negb (String.length hex =? 6)%nat then Unchanged color
    else
      let r := parseInt16 (slice hex 0 2) in
      let g := parseInt16 (slice hex 2 4) in
      let b := parseInt16 (slice hex 4 6) in
      RgbText (clamp (r * factor)) (clamp (g * factor)) (clamp (b * factor)).

(** *** rgbToHslTuple *)

Definition is_num_char (c : ascii) : bool := is_digit c || Ascii.eqb c ".".

(** [color.match(/([\d\.]+)/g)]: the maximal runs of digits and dots, from
    left to right ([cur] is the run being read, reversed). *)
Fixpoint runs (cur : list ascii) (s : string) : list string :=
  match s with
  | String c s' =>
      if is_num_char c then runs (c :: cur) s'
      else match cur with
           | [] => runs [] s'
           | _ => string_of_list_ascii (rev cur) :: runs [] s'
           end
  | EmptyString =>
      match cur with
      | [] => []
      | _ => [string_of_list_ascii (rev cur)]
      end
  end.

Section WithNumber.

(** [Number] applied to a string is ECMAScript's, not this repository's; the
    conversion is a parameter. *)
Variable Number : string -> float.

(** An array position that is missing reads [undefined], and
    [undefined / 255] is NaN. *)
Definition channel (nums : list float) (i : nat) : float :=
  match nums !! i with
  | Some v => v / 255
  | None => nan
  end.

Definition rgbToHslTuple (color : string) : option (float * float * float) :=
  let parsed : option (float * float * float) :=
    if startsWith color "#" && (String.length color =? 7)%nat then
      Some (parseInt16 (slice color 1 3) / 255,
            parseInt16 (slice color 3 5) / 255,
            parseInt16 (slice color 5 7) / 255)
    else if startsWith color "rgb" then
      let nums := map Number (runs [] color) in
      Some (channel nums 0, channel nums 1, channel nums 2)
    else None in
  match parsed with
  | None => None
  | Some (r, g, b) =>
      let max := Math_max3 r g b in
      let min := Math_min3 r g b in
      let l := (max + min) / 2 in
      if negb (PrimFloat.eqb max min) then
        let d := max - min in
        let s := if PrimFloat.ltb 0.5 l then d / (2 - max - min) else d / (max + min) in
        let h :=
          if PrimFloat.eqb max r then (g - b) / d + (if PrimFloat.ltb g b then 6 else 0)
          else if PrimFloat.eqb max g then (b - r) / d + 2
          else if PrimFloat.eqb max b then (r - g) / d + 4
          else 0 in
        Some (h / 6 * 360, s * 100, l * 100)
      else Some (0 * 360, 0 * 100, l * 100)
  end.

End WithNumber.

End Color.

(** ** The simulation (real numbers) *)

Module Sim.

Local Open Scope R_scope.

Definition Rltb (a b : R) : bool := if Rlt_dec a b then true else false.
Definition Rleb (a b : R) : bool := if Rle_dec a b then true else false.
Definition Reqb (a b : R) : bool := if Req_dec_T a b then true else false.

(** [Math.hypot], [Math.floor], and the remainder operator [%]. *)
Definition hypot (a b : R) : R := sqrt (a * a + b * b).
Definition floor (x : R) : Z := Int_part x.
Definition trunc (x : R) : Z := if Rlt_dec x 0 then (- Int_part (- x))%Z else Int_part x.
Definition rem (a b : R) : R := a - b * IZR (trunc (a / b)).

(** [Math.ceil(a / b)] for integers [a] and [b > 0]. *)
Definition ceil_div (a b : Z) : Z := (- ((- a) / b))%Z.

(** The integers [lo, lo+1, ..., hi] of a [for] loop. *)
Definition zrange (lo hi : Z) : list Z :=
  map (fun k => (lo + Z.of_nat k)%Z) (seq 0 (Z.to_nat (hi - lo + 1))).

(** *** Data *)

Record Props : Type := mkProps {
  count : nat;
  colors : list string;
  minRadius : R;
  maxRadius : R;
  speed : R;
  noiseScale : R;
  noiseTimeScale : R;
  targetFps : R;
  debugFps : bool;
  colorShiftSeconds : R;
  radiusPulseSeconds : R;
  radiusPulseScale : R;
  radiusMin : R;
  radiusMax : R;
  colorShiftDegrees : R
}.

Record Bubble : Type := mkBubble {
  x : R;
  y : R;
  r : R;
  rBase : R;
  rAmp : R;
  rPeriodFactor : R;
  sBase : R;
  lBase : R;
  hBase : R;
  hJitterDeg : R;
  hueAmpDeg : R;
  huePeriodFactor : R;
  color : string;
  vx : R;
  vy : R;
  jitter : R;
  blur : R;
  angle : R;
  aspect : R;
  noisePhase : R;
  homeX : R;
  homeY : R
}.

(** One [ctx.ellipse] filled by [draw]: translation, rotation, blur, alpha,
    the (hue, saturation, lightness) of the fill style and the two radii. *)
Record Ellipse : Type := mkEllipse {
  ex : R;
  ey : R;
  erotation : R;
  eblur : R;
  ealpha : R;
  efill : R * R * R;
  eradiusX : R;
  eradiusY : R
}.

Record Canvas : Type := mkCanvas {
  backingWidth : Z;
  backingHeight : Z;
  painted : list Ellipse
}.

(** The variables the effect closes over. [rafRequests] counts the calls of
    [requestAnimationFrame]; the handle a call returns is the new count. *)
Record State : Type := mkState {
  width : Z;
  height : Z;
  canvas : Canvas;
  gridCols : Z;
  gridRows : Z;
  grid : list R;
  bubbles : list Bubble;
  lastTime : R;
  accumulatedTime : R;
  fpsCounter : nat;
  fpsStart : R;
  console : list (nat * R);
  animRef : nat;
  rafRequests : nat
}.

Definition set_motion (b : Bubble) (x' y' vx' vy' : R) : Bubble :=
  mkBubble x' y' (r b) (rBase b) (rAmp b) (rPeriodFactor b) (sBase b) (lBase b)
    (hBase b) (hJitterDeg b) (hueAmpDeg b) (huePeriodFactor b) (color b) vx' vy'
    (jitter b) (blur b) (angle b) (aspect b) (noisePhase b) (homeX b) (homeY b).

Definition set_size (s : State) (w h : Z) : State :=
  mkState w h (canvas s) (gridCols s) (gridRows s) (grid s) (bubbles s) (lastTime s)
    (accumulatedTime s) (fpsCounter s) (fpsStart s) (console s) (animRef s) (rafRequests s).

Definition set_canvas (s : State) (c : Canvas) : State :=
  mkState (width s) (height s) c (gridCols s) (gridRows s) (grid s) (bubbles s)
    (lastTime s) (accumulatedTime s) (fpsCounter s) (fpsStart s) (console s)
    (animRef s) (rafRequests s).

Definition set_grid (s : State) (cols rows : Z) (g : list R) : State :=
  mkState (width s) (height s) (canvas s) cols rows g (bubbles s) (lastTime s)
    (accumulatedTime s) (fpsCounter s) (fpsStart s) (console s) (animRef s) (rafRequests s).

Definition set_bubbles (s : State) (bs : list Bubble) : State :=
  mkState (width s) (height s) (canvas s) (gridCols s) (gridRows s) (grid s) bs
    (lastTime s) (accumulatedTime s) (fpsCounter s) (fpsStart s) (console s)
    (animRef s) (rafRequests s).

Definition set_clock (s : State) (last acc : R) : State :=
  mkState (width s) (height s) (canvas s) (gridCols s) (gridRows s) (grid s) (bubbles s)
    last acc (fpsCounter s) (fpsStart s) (console s) (animRef s) (rafRequests s).

Definition set_fps (s : State) (n : nat) (start : R) (log : list (nat * R)) : State :=
  mkState (width s) (height s) (canvas s) (gridCols s) (gridRows s) (grid s) (bubbles s)
    (lastTime s) (accumulatedTime s) n start log (animRef s) (rafRequests s).

(** [animRef.current = requestAnimationFrame(frame)] *)
Definition requestAnimationFrame (s : State) : State :=
  mkState (width s) (height s) (canvas s) (gridCols s) (gridRows s) (grid s) (bubbles s)
    (lastTime s) (accumulatedTime s) (fpsCounter s) (fpsStart s) (console s)
    (S (rafRequests s)) (S (rafRequests s)).

(** *** Occupancy grid *)

Definition gridCell : Z := 100.

Definition allocateGrid (s : State) : State :=
  let cols := Z.max 1 (ceil_div (width s) gridCell) in
  let rows := Z.max 1 (ceil_div (height s) gridCell) in
  set_grid s cols rows (replicate (Z.to_nat (cols * rows)) 0).

Definition stampCell (cols rows : Z) (cy : Z) (g : list R) (cx : Z) : list R :=
  if (cx <? 0)%Z || (cy <? 0)%Z || (cx >=? cols)%Z || (cy >=? rows)%Z then g
  else alter (fun w => w + 0.35) (Z.to_nat (cy * cols + cx)) g.

Definition stampCells (cols rows : Z) (x y r : R) (g : list R) : list R :=
  let c0 := floor ((x - r) / IZR gridCell) in
  let c1 := floor ((x + r) / IZR gridCell) in
  let r0 := floor ((y - r) / IZR gridCell) in
  let r1 := floor ((y + r) / IZR gridCell) in
  foldl (fun g cy => foldl (stampCell cols rows cy) g (zrange c0 c1)) g (zrange r0 r1).

Definition stampOccupancy (x y r : R) (s : State) : State :=
  set_grid s (gridCols s) (gridRows s) (stampCells (gridCols s) (gridRows s) x y r (grid s)).

(** [now] is the reading of [performance.now()]. *)
Definition lowestOccupancyTarget (now : R) (s : State) : R * R :=
  let t := now in
  let wobbleX := sin (t * 0.00025) * 0.12 in
  let wobbleY := cos (t * 0.00018) * 0.04 in
  let tx := IZR (width s) * (0.5 + wobbleX) in
  let ty := IZR (height s) * (0.5 + wobbleY) in
  (tx, ty).

(** *** Physics integrator *)

Section Physics.

(** The noise function built by [makeNoise2D()] lives in [./utils], outside
    the sources at hand: it is a parameter. *)
Variable noise : R -> R -> R.
Variable P : Props.

(** The pre-loop sums [avgX += b.x], [avgY += b.y]. *)
Definition sumX (bs : list Bubble) : R := foldl (fun a b => a + x b) 0 bs.
Definition sumY (bs : list Bubble) : R := foldl (fun a b => a + y b) 0 bs.

(** 2) Separation: the inner loop over [j], for the bubble [b] at index [i];
    [j] is the index of the head of [os]. *)
Fixpoint separation (i : nat) (b : Bubble) (j : nat) (os : list Bubble) (acc : R * R)
  : R * R :=
  match os with
  | [] => acc
  | o :: os' =>
      let acc' :=
        if Nat.eqb j i then acc
        else
          let dx := x b - x o in
          let dy := y b - y o in
          let d2 := dx * dx + dy * dy in
          let minD := (r b + r o) * 0.65 in
          if Rltb d2 (minD * minD) && Rltb 0.001 d2 then
            let d := sqrt d2 in
            let push := (minD - d) / minD in
            (fst acc + (dx / d) * push * 1.8, snd acc + (dy / d) * push * 1.8)
          else acc in
      separation i b (S j) os' acc'
  end.

(** Forces 1 to 5 added to the velocity of [b = bubbles[i]], read from the
    array [bs] as it stands when the bubble is visited. *)
Definition accelerate (tx ty balanceX balanceY t : R) (bs : list Bubble) (i : nat)
  (b : Bubble) : R * R :=
  let n := noise (x b * noiseScale P + noisePhase b)
                 (y b * noiseScale P + t * noiseTimeScale P + noisePhase b) in
  let angle := n * PI * 2 in
  let fx := cos angle * speed P * jitter b in
  let fy := sin angle * speed P * jitter b in
  let '(sx, sy) := separation i b 0 bs (0, 0) in
  let dxT := tx - x b in
  let dyT := ty - y b in
  let dT := hypot dxT dyT + 0.001 in
  let cx := (dxT / dT) * 0.015 in
  let cy := (dyT / dT) * 0.015 in
  let hx := (homeX b - x b) * 0.012 in
  let hy := (homeY b - y b) * 0.012 in
  (vx b + (fx + sx + cx + balanceX + hx), vy b + (fy + sy + cy + balanceY + hy)).

Definition damping : R := 0.93.
Definition maxVel : R := 4.

(** Damping, then the speed limit. *)
Definition limit (v : R * R) : R * R :=
  let vx1 := fst v * damping in
  let vy1 := snd v * damping in
  let vel := hypot vx1 vy1 in
  if Rltb maxVel vel then ((vx1 / vel) * maxVel, (vy1 / vel) * maxVel) else (vx1, vy1).

(** Edge bounce on one axis: position [p] and velocity [v] against
    [[pad, dim - pad]]; the two [if]s run in sequence. *)
Definition bounce (dim pad : R) (pv : R * R) : R * R :=
  let pv1 := if Rltb (fst pv) pad then (pad, Rabs (snd pv) * 0.85) else pv in
  if Rltb (dim - pad) (fst pv1) then (dim - pad, - Rabs (snd pv1) * 0.85) else pv1.

(** The body of the loop over [i], up to the occupancy stamp. *)
Definition move (w h : Z) (tx ty balanceX balanceY t : R) (bs : list Bubble) (i : nat)
  (b : Bubble) : Bubble :=
  let v := limit (accelerate tx ty balanceX balanceY t bs i b) in
  let x1 := x b + fst v in
  let y1 := y b + snd v in
  let padX := r b * 0.6 in
  let padY := r b * 0.6 in
  let bx := bounce (IZR w) padX (x1, fst v) in
  let by_ := bounce (IZR h) padY (y1, snd v) in
  set_motion b (fst bx) (fst by_) (snd bx) (snd by_).

Definition visit (tx ty balanceX balanceY t : R) (s : State) (i : nat) : State :=
  match bubbles s !! i with
  | Some b =>
      let b' := move (width s) (height s) tx ty balanceX balanceY t (bubbles s) i b in
      stampOccupancy (x b') (y b') (r b' * 0.6) (set_bubbles s (<[i := b']> (bubbles s)))
  | None => s
  end.

Definition balance (s : State) : R * R :=
  let n := Rmax 1 (INR (length (bubbles s))) in
  let avgX := sumX (bubbles s) / n in
  let avgY := sumY (bubbles s) / n in
  (((IZR (width s) * 0.5 - avgX) / Rmax (IZR (width s)) 1) * 0.25,
   ((IZR (height s) * 0.5 - avgY) / Rmax (IZR (height s)) 1) * 0.15).

(** [now] is what [performance.now()] reads inside [lowestOccupancyTarget];
    [t] is the frame's time stamp. *)
Definition updatePhysics (now t : R) (s : State) : State :=
  let '(tx, ty) := lowestOccupancyTarget now s in
  let '(balanceX, balanceY) := balance s in
  foldl (visit tx ty balanceX balanceY t) s (seq 0 (length (bubbles s))).

(** The update as the specification words it, for comparison: every bubble
    moves under forces computed from the array as it was when the frame
    began. *)
Definition snapshotUpdate (now t : R) (s : State) : list Bubble :=
  let '(tx, ty) := lowestOccupancyTarget now s in
  let '(balanceX, balanceY) := balance s in
  imap (fun i b => move (width s) (height s) tx ty balanceX balanceY t (bubbles s) i b)
       (bubbles s).

(** *** Renderer *)

Definition hslNow (now : R) (b : Bubble) : R * R * R :=
  let huePeriodMs := colorShiftSeconds P * 1000 * huePeriodFactor b in
  let huePhase :=
    if Rltb 0 huePeriodMs then rem ((now + noisePhase b * 1000) / huePeriodMs) 1 else 0 in
  let hueShift := sin (huePhase * PI * 2) * hueAmpDeg b in
  let hue := rem (hBase b + hJitterDeg b + hueShift + 360) 360 in
  (hue, sBase b, lBase b).

Definition rNow (now : R) (b : Bubble) : R :=
  let rPeriodMs := radiusPulseSeconds P * 1000 * rPeriodFactor b in
  let rPhase :=
    if Rltb 0 rPeriodMs then rem ((now + noisePhase b * 1000) / rPeriodMs) 1 else 0 in
  let rPulse := sin (rPhase * PI * 2) in
  Rmin (radiusMax P) (Rmax (radiusMin P) (rBase b + rAmp b * rPulse)).

Definition drawBubble (now : R) (b : Bubble) : Ellipse :=
  mkEllipse (x b) (y b) (angle b) (blur b) 0.55 (hslNow now b)
    (rNow now b * aspect b) (rNow now b).

(** [draw()]: one ellipse per bubble, in pool order; [nows k] is what
    [performance.now()] reads for the bubble at index [k]. *)
Definition draw (nows : nat -> R) (s : State) : State :=
  set_canvas s
    (mkCanvas (backingWidth (canvas s)) (backingHeight (canvas s))
       (painted (canvas s) ++ imap (fun k b => drawBubble (nows k) b) (bubbles s))).

(** [ctx.clearRect(0, 0, width, height)] *)
Definition clearRect (s : State) : State :=
  set_canvas s (mkCanvas (backingWidth (canvas s)) (backingHeight (canvas s)) []).

(** *** Resize *)

Variable DPR : R.

(** The debounced [handleResize], given the canvas's new [clientWidth] and
    [clientHeight]; assigning [canvas.width] clears the bitmap. *)
Definition handleResize (nextWidth nextHeight : Z) (nows : nat -> R) (s : State) : State :=
  if (nextWidth =? width s)%Z && (nextHeight =? height s)%Z then s
  else
    let s1 := set_size s nextWidth nextHeight in
    let s2 := set_canvas s1 (mkCanvas (floor (IZR nextWidth * DPR))
                                      (floor (IZR nextHeight * DPR)) []) in
    draw nows (allocateGrid s2).

(** *** Frame scheduler *)

Definition effectiveFps : R := Rmax 1 (targetFps P).
Definition FRAME_INTERVAL : R := 1000 / effectiveFps.

Definition measureFps (t : R) (s : State) : State :=
  if debugFps P then
    let start := if Reqb (fpsStart s) 0 then t else fpsStart s in
    let n := S (fpsCounter s) in
    if Rleb 1000 (t - start) then set_fps s 0 t (console s ++ [(n, effectiveFps)])
    else set_fps s n start (console s)
  else s.

(** One tick [frame(t)]. [hidden] is [document.hidden] at the tick, [now]
    and [nows] are the clock readings of [updatePhysics] and [draw].  The
    context [ctx] was obtained before the loop started, so the first test of
    the function never returns. *)
Definition frame (hidden : bool) (now : R) (nows : nat -> R) (t : R) (s : State) : State :=
  if hidden then requestAnimationFrame s
  else
    let deltaTime := if Reqb (lastTime s) 0 then 0 else t - lastTime s in
    let s1 := set_clock s t (accumulatedTime s + deltaTime) in
    if Rltb (accumulatedTime s1) FRAME_INTERVAL then requestAnimationFrame s1
    else
      let s2 := set_clock s1 (lastTime s1) 0 in
      let s3 := clearRect s2 in
      let s4 := updatePhysics now t s3 in
      let s5 := draw nows s4 in
      let s6 := measureFps t s5 in
      requestAnimationFrame s6.

End Physics.

(** *** Placement *)

Section Placement.

(** [rand] lives in [./utils]: a parameter, reading a random source of type
    [Rng].  The colour pipeline of a new bubble, [tint] followed by
    [rgbToHslTuple], enters through its real-number view; [Color] models
    both functions exactly. *)
Variable Rng : Type.
Variable rand : R -> R -> Rng -> R * Rng.
Variable tint : string -> R -> string.
Variable rgbToHslTuple : string -> option (R * R * R).
Variable P : Props.
Variables w h : Z.

(** Computations that read the random source and may throw. *)
Definition M (A : Type) : Type := Rng -> option (A * Rng).
Definition ret {A : Type} (a : A) : M A := fun g => Some (a, g).
Definition bind {A B : Type} (c : M A) (k : A -> M B) : M B :=
  fun g => match c g with
           | Some (a, g') => k a g'
           | None => None
           end.
Definition throw {A : Type} : M A := fun _ => None.
Definition random (lo hi : R) : M R := fun g => Some (rand lo hi g).

Notation "x <~ c ;; k" := (bind c (fun x => k))
  (at level 100, c at next level, right associativity).

Definition minDist : R := Rmax (minRadius P * 0.7) 120.
Definition maxTries : nat := 5000.

(** The test of the inner [for] loop: the candidate is too close to [b]. *)
Definition tooClose (r0 x0 y0 : R) (b : Bubble) : bool :=
  let dx := x b - x0 in
  let dy := y b - y0 in
  Rltb (hypot dx dy) ((r b + r0) * 0.6) || Rltb (hypot dx dy) minDist.

(** [ok] after the inner loop (the [break] only stops it early). *)
Definition ok (r0 x0 y0 : R) (bs : list Bubble) : bool :=
  forallb (fun b => negb (tooClose r0 x0 y0 b)) bs.

(** The accepted candidate becomes a bubble.  With an empty palette
    [baseColor] is [undefined], which [tint] hands on and on which
    [rgbToHslTuple] throws. *)
Definition newBubble (r0 x0 y0 : R) (index : nat) : M Bubble :=
  let baseColor := colors P !! (index mod length (colors P))%nat in
  factor <~ random 0.72 1.18 ;;
  match baseColor with
  | None => throw
  | Some c =>
      let tinted := tint c factor in
      let hsl := rgbToHslTuple tinted in
      hueAmpDeg0 <~ random (colorShiftDegrees P * 0.55) (colorShiftDegrees P * 1.25) ;;
      huePeriodFactor0 <~ random 0.75 1.35 ;;
      hJitterDeg0 <~ random (-35) 35 ;;
      rAmpF <~ random (radiusPulseScale P * 0.4) (radiusPulseScale P * 1.1) ;;
      rPeriodFactor0 <~ random 0.75 1.3 ;;
      vx0 <~ random (-0.2) 0.2 ;;
      vy0 <~ random (-0.2) 0.2 ;;
      jitter0 <~ random 0.7 1.3 ;;
      blur0 <~ random 60 120 ;;
      angle0 <~ random 0 (PI * 2) ;;
      aspect0 <~ random 0.68 1.25 ;;
      noisePhase0 <~ random 0 10000 ;;
      ret (mkBubble x0 y0 r0 r0 (r0 * rAmpF) rPeriodFactor0
             (match hsl with Some t => snd (fst t) | None => 70 end)
             (match hsl with Some t => snd t | None => 60 end)
             (match hsl with Some t => fst (fst t) | None => 200 end)
             hJitterDeg0 hueAmpDeg0 huePeriodFactor0 tinted vx0 vy0 jitter0 blur0
             angle0 aspect0 noisePhase0 x0 y0)
  end.

(** The [while] loop; [left] is [maxTries - tries]. *)
Fixpoint place (left : nat) (bs : list Bubble) : M (list Bubble) :=
  match left with
  | O => ret bs
  | S left' =>
      if (length bs <? count P)%nat then
        r0 <~ random (minRadius P) (maxRadius P) ;;
        x0 <~ random (r0 * 0.6) (IZR w - r0 * 0.6) ;;
        y0 <~ random (r0 * 0.6) (IZR h - r0 * 0.6) ;;
        if ok r0 x0 y0 bs then
          b <~ newBubble r0 x0 y0 (length bs) ;;
          place left' (bs ++ [b])
        else place left' bs
      else ret bs
  end.

Definition placement : M (list Bubble) := place maxTries [].

(** What is said of the loop: a computation returns, whatever the random
    source, with a result satisfying [Q]; whenever it returns, its result
    satisfies [Q]; the spacing between any two
    bubbles of a pool; a pool within the requested count and spaced. *)
Definition returns {A : Type} (c : M A) (Q : A -> Prop) : Prop :=
  forall g : Rng, exists (a : A) (g' : Rng), c g = Some (a, g') /\ Q a.

Definition ensures {A : Type} (c : M A) (Q : A -> Prop) : Prop :=
  forall (g : Rng) (a : A) (g' : Rng), c g = Some (a, g') -> Q a.

Definition spaced (bs : list Bubble) : Prop :=
  forall (i j : nat) (bi bj : Bubble),
    i <> j -> bs !! i = Some bi -> bs !! j = Some bj ->
    Rmax ((r bi + r bj) * 0.6) minDist <= hypot (x bi - x bj) (y bi - y bj).

Definition placed (bs : list Bubble) : Prop :=
  (length bs <= count P)%nat /\ spaced bs.

End Placement.

End Sim.

(** ** The likes route *)

Module Likes.

Local Open Scope nat_scope.

Definition MAX_SLUG_LENGTH : nat := 191.
Definition RATE_LIMIT_STATUS : nat := 429.

(** *** Request parsing *)

(** White space removed by [String.prototype.trim], among the code units
    below 256. *)
Definition is_space (c : ascii) : bool :=
  let n := nat_of_ascii c in
  ((9 <=? n) && (n <=? 13)) || (n =? 32) || (n =? 160).

Fixpoint trimStart (s : string) : string :=
  match s with
  | String c s' => if is_space c then trimStart s' else s
  | EmptyString => s
  end.

Definition reverse_string (s : string) : string :=
  string_of_list_ascii (rev (list_ascii_of_string s)).

Definition trim (s : string) : string :=
  reverse_string (trimStart (reverse_string (trimStart s))).

(** [s.split(',')[0]] *)
Fixpoint beforeComma (s : string) : string :=
  match s with
  | String c s' => if Ascii.eqb c "," then EmptyString else String c (beforeComma s')
  | EmptyString => EmptyString
  end.

Record Request : Type := mkRequest {
  slugParam : option string;      (* req.nextUrl.searchParams.get('slug') *)
  forwardedFor : option string;   (* req.headers.get('x-forwarded-for') *)
  realIpHeader : option string    (* req.headers.get('x-real-ip') *)
}.

Definition parseSlug (req : Request) : string + string :=
  match trim <$> slugParam req with
  | None => inl "Missing slug"%string
  | Some slug =>
      if String.eqb slug "" then inl "Missing slug"%string
      else if MAX_SLUG_LENGTH <? String.length slug then inl "Slug too long"%string
      else inr slug
  end.

Definition truthy (o : option string) : option string :=
  match o with
  | Some s => if String.eqb s "" then None else Some s
  | None => None
  end.

Definition getClientIp (req : Request) : string :=
  match truthy (trim <$> (beforeComma <$> forwardedFor req)) with
  | Some forwarded => forwarded
  | None =>
      match truthy (trim <$> realIpHeader req) with
      | Some realIp => realIp
      | None => "unknown"%string
      end
  end.

Inductive Body : Type :=
| ErrorBody (error : string)
| CountBody (count : nat)
| RateLimitedBody (count : nat).

Record Response : Type := respond { status : nat; body : Body }.

(** *** The store

    The two tables, keyed as their primary keys are (keys compared as
    strings), behind one pooled connection.  [pending] is the working copy
    of the transaction open on the connection, if any: statements read and
    write it, [commit] installs it, [rollback] drops it, and beginning a
    transaction first commits one left open. *)
Record Tables : Type := mkTables {
  blog_likes : gmap string nat;
  blog_like_events : gset (string * string * nat)
}.

Record Db : Type := mkDb { stored : Tables; pending : option Tables }.

Definition view (d : Db) : Tables := default (stored d) (pending d).

Definition write (f : Tables -> Tables) (d : Db) : Db :=
  match pending d with
  | Some t => mkDb (stored d) (Some (f t))
  | None => mkDb (f (stored d)) None
  end.

Definition beginTransaction (d : Db) : Db := mkDb (view d) (Some (view d)).
Definition commit (d : Db) : Db := mkDb (view d) None.
Definition rollback (d : Db) : Db := mkDb (stored d) None.

(** A call that changes nothing in the store. *)
Definition readOnly (d : Db) : Db := d.

(** The four statements; [today] is [CURDATE()]. *)
Definition countOf (slug : string) (t : Tables) : nat := default 0 (blog_likes t !! slug).

Definition hasEvent (slug ip : string) (today : nat) (t : Tables) : bool :=
  bool_decide ((slug, ip, today) ∈ blog_like_events t).

Definition insertEvent (slug ip : string) (today : nat) (t : Tables) : Tables :=
  mkTables (blog_likes t) ({[ (slug, ip, today) ]} ∪ blog_like_events t).

Definition upsertLike (slug : string) (t : Tables) : Tables :=
  mkTables (<[ slug := match blog_likes t !! slug with
                       | Some c => S c
                       | None => 1
                       end ]> (blog_likes t))
           (blog_like_events t).

(** *** The handler *)

(** The awaited calls, in the order of the handler's text. *)
Inductive Call : Type :=
| EnsureLikesTable
| GetConnection
| SelectLimited
| SelectCountLimited
| BeginTransaction
| InsertEvent
| UpsertLike
| SelectCount
| Commit
| Rollback
| Release.


(** [committed] is the handler's local flag; [calls] records the calls made,
    oldest first. *)
Record World : Type := mkWorld { db : Db; committed : bool; calls : list Call }.

Inductive Result (A : Type) : Type :=
| Done (a : A)
| Thrown.
Arguments Done {A} a.
Arguments Thrown {A}.

Definition H (A : Type) : Type := World -> World * Result A.

Definition ret {A : Type} (a : A) : H A := fun w => (w, Done a).

Definition bind {A B : Type} (c : H A) (k : A -> H B) : H B :=
  fun w => match c w with
           | (w', Done a) => k a w'
           | (w', Thrown) => (w', Thrown)
           end.

Notation "x <~ c ;; k" := (bind c (fun x => k))
  (at level 100, c at next level, right associativity).

(** [try { body } finally { fin }] *)
Definition finally {A : Type} (body : H A) (fin : H unit) : H A :=
  fun w => let '(w1, r) := body w in
           match fin w1 with
           | (w2, Done _) => (w2, r)
           | (w2, Thrown) => (w2, Thrown)
           end.

(** [try { body } catch { return fallback }] *)
Definition catch {A : Type} (body : H A) (fallback : A) : World -> World * A :=
  fun w => match body w with
           | (w', Done a) => (w', a)
           | (w', Thrown) => (w', fallback)
           end.

Section Handler.

(** Which calls throw.  A call that throws leaves the store as it was. *)
Variable fails : Call -> bool.
Variable today : nat.

Definition call {A : Type} (c : Call) (effect : Db -> Db) (read : Db -> A) : H A :=
  fun w =>
    if fails c then (mkWorld (db w) (committed w) (calls w ++ [c]), Thrown)
    else (mkWorld (effect (db w)) (committed w) (calls w ++ [c]), Done (read (db w))).

Definition setCommitted : H unit := fun w => (mkWorld (db w) true (calls w), Done ()).

Definition cleanup : H unit :=
  fun w =>
    let w1 :=
      if committed w then w
      else fst (catch (call Rollback rollback (fun _ => ())) () w) in
    call Release readOnly (fun _ => ()) w1.

Definition transaction (slug ip : string) : H Response :=
  limited <~ call SelectLimited readOnly (fun d => hasEvent slug ip today (view d)) ;;
  if limited : bool then
    count <~ call SelectCountLimited readOnly (fun d => countOf slug (view d)) ;;
    ret (respond RATE_LIMIT_STATUS (RateLimitedBody count))
  else
    _ <~ call BeginTransaction beginTransaction (fun _ => ()) ;;
    _ <~ call InsertEvent (write (insertEvent slug ip today)) (fun _ => ()) ;;
    _ <~ call UpsertLike (write (upsertLike slug)) (fun _ => ()) ;;
    count <~ call SelectCount readOnly (fun d => countOf slug (view d)) ;;
    _ <~ call Commit commit (fun _ => ()) ;;
    _ <~ setCommitted ;;
    ret (respond 200 (CountBody count)).

Definition POST (req : Request) (d : Db) : World * Response :=
  let w := mkWorld d false [] in
  match parseSlug req with
  | inl error => (w, respond 400 (ErrorBody error))
  | inr slug =>
      let ip := getClientIp req in
      catch (_ <~ call EnsureLikesTable readOnly (fun _ => ()) ;;
             _ <~ call GetConnection readOnly (fun _ => ()) ;;
             finally (transaction slug ip) cleanup)
            (respond 500 (ErrorBody "Failed to save like"))
            w
  end.

End Handler.

End Likes.

(** ** Scenarios

    Concrete props and states on which the properties below are
    exercised. *)

Module Scenario.

Import Sim.
Local Open Scope R_scope.

(** A history of stamps: each entry is the [(x, y, r)] of one call. *)
Definition stampAll (s : State) (history : list (R * R * R)) : State :=
  foldl (fun s c => stampOccupancy (fst (fst c)) (snd (fst c)) (snd c) s) s history.

(** The component's default props, with a two-colour palette. *)
Definition defaultProps : Props :=
  mkProps 8 ["#ff8800"%string; "#0088ff"%string] 120 460 0.55 0.0007 0.001 16 false
    15 18 0.18 120 460 30.

Definition emptyCanvas : Canvas := mkCanvas 800 600 [].

(** Two states of an 800 x 600 canvas: a fresh grid, and a grid of another
    shape with weights in it. *)
Definition freshState : State :=
  mkState 800 600 emptyCanvas 8 6 (replicate 48 0) [] 0 0 0 0 [] 0 0.
Definition usedState : State :=
  mkState 800 600 emptyCanvas 2 1 [0.35; 7] [] 16 3 0 0 [] 4 4.

(** A noise field that is 0 everywhere. *)
Definition stillNoise : R -> R -> R := fun _ _ => 0.

(** Two bubbles of radius 120 on a 144 x 1000 canvas, 150 apart on one
    vertical line, at rest at their home points: a pool the placement loop
    accepts (150 is at least both [(120 + 120) * 0.6] and 120), and within
    separation range ([(120 + 120) * 0.65] is 156). *)
Definition bubbleA : Bubble :=
  mkBubble 72 400 120 120 (120 * 0.1) 1 70 60 200 0 30 1 "#ff8800" 0 0 1 60 0 1 0 72 400.
Definition bubbleB : Bubble :=
  mkBubble 72 550 120 120 (120 * 0.1) 1 70 60 200 0 30 1 "#0088ff" 0 0 1 60 0 1 0 72 550.
Definition pairState : State :=
  mkState 144 1000 (mkCanvas 144 1000 []) 2 10 (replicate 20 0) [bubbleA; bubbleB]
    0 0 0 0 [] 0 0.

(** The vertical velocity of [bubbleA] after one frame of [pairState]. *)
Definition vyA : R := 0.93 * (- (6 / 156 * 1.8) + 140 / 140.001 * 0.015 + 0.00375).

(** A scripted random source: each call of [rand] takes the next number
    of the script; and a colour pipeline that leaves the colour as it is and
    parses nothing, so that the fallback triple is used. *)
Definition scriptRand (lo hi : R) (g : list R) : R * list R :=
  match g with
  | u :: g' => (u, g')
  | [] => (lo, [])
  end.
Definition plainTint (c : string) (factor : R) : string := c.
Definition noHsl (c : string) : option (R * R * R) := None.

(** The default props with two bubbles requested, and the script that
    makes the placement loop produce [bubbleA] then [bubbleB]; every number is
    inside the range of the call that reads it. *)
Definition pairProps : Props :=
  mkProps 2 ["#ff8800"%string; "#0088ff"%string] 120 460 0.55 0.0007 0.001 16 false
    15 18 0.18 120 460 30.
Definition pairScript : list R :=
  [120; 72; 400; 1; 30; 1; 0; 0.1; 1; 0; 0; 1; 60; 0; 1; 0;
   120; 72; 550; 1; 30; 1; 0; 0.1; 1; 0; 0; 1; 60; 0; 1; 0].

(** A like request for the post [hello] from 203.0.113.7 behind a proxy,
    an empty store, a store in which that address has liked the post
    today (day 7), and a database whose [UPDATE] of the count fails. *)
Definition likeRequest : Likes.Request :=
  Likes.mkRequest (Some " hello "%string) (Some "203.0.113.7, 10.0.0.1"%string) None.

Definition emptyDb : Likes.Db := Likes.mkDb (Likes.mkTables ∅ ∅) None.

Definition likedDb : Likes.Db :=
  Likes.mkDb (Likes.mkTables {[ "hello"%string := 3%nat ]}
                {[ ("hello"%string, "203.0.113.7"%string, 7%nat) ]}) None.

Definition noFailure (c : Likes.Call) : bool := false.

Definition upsertFails (c : Likes.Call) : bool :=
  match c with
  | Likes.UpsertLike => true
  | _ => false
  end.

End Scenario.

(** ** Measures for the properties of the simulation *)

Module Measure.

Import Sim.
Local Open Scope R_scope.

(** [g'] has the size of [g] and no weight of [g] is larger than in [g']. *)
Definition grows (g g' : list R) : Prop :=
  length g' = length g /\
  forall (k : nat) (weight : R), g !! k = Some weight ->
    exists weight' : R, g' !! k = Some weight' /\ weight <= weight'.

(** The index of the cell in column [cx] of row [cy]. *)
Definition cellIndex (cols cx cy : Z) : nat := Z.to_nat (cy * cols + cx).

Definition bump (weight : R) : R := weight + 0.35.

Definition zrangeFrom (lo : Z) (n : nat) : list Z :=
  map (fun k => (lo + Z.of_nat k)%Z) (seq 0 n).

(** The cell in column [cx] of row [cy] meets the bounding box of the
    stamp: its square [[100 cx, 100 (cx + 1)) x [100 cy, 100 (cy + 1))]
    reaches into [[x - r, x + r] x [y - r, y + r]]. *)
Definition covered (x0 y0 r0 : R) (cx cy : Z) : Prop :=
  (100 * IZR cx <= x0 + r0 /\ x0 - r0 < 100 * (IZR cx + 1)) /\
  (100 * IZR cy <= y0 + r0 /\ y0 - r0 < 100 * (IZR cy + 1)).

(** [s'] differs from [s] in its bubbles and its grid cells at most. *)
Definition sameFrame (s s' : State) : Prop :=
  width s' = width s /\ height s' = height s /\ canvas s' = canvas s /\
  gridCols s' = gridCols s /\ gridRows s' = gridRows s /\
  lastTime s' = lastTime s /\ accumulatedTime s' = accumulatedTime s /\
  fpsCounter s' = fpsCounter s /\ fpsStart s' = fpsStart s /\ console s' = console s /\
  animRef s' = animRef s /\ rafRequests s' = rafRequests s.

(** The squared distance of the centres and the separation range of two
    bubbles. *)
Definition dist2 (b o : Bubble) : R :=
  (x b - x o) * (x b - x o) + (y b - y o) * (y b - y o).
Definition range (b o : Bubble) : R := (r b + r o) * 0.65.

(** The time a tick adds to the accumulator. *)
Definition deltaTime (t : R) (s : State) : R :=
  if Reqb (lastTime s) 0 then 0 else t - lastTime s.

(** A bubble as the placement loop makes it: at rest at its home point,
    its base radius its radius, its colour triple the one parsed from its
    tinted colour or, failing that, the fallback (200, 70, 60). *)
Definition fresh (rgbToHslTuple : string -> option (R * R * R)) (b : Bubble) : Prop :=
  homeX b = x b /\ homeY b = y b /\ rBase b = r b /\
  (hBase b, sBase b, lBase b) = default (200, 70, 60) (rgbToHslTuple (color b)).

End Measure.

Module ColorMeasure.

Import Floats.
Import Color.

(** The byte written by two hexadecimal digits of values [d1] and [d2]. *)
Definition hexByte (d1 d2 : nat) : float := of_nat (16 * d1 + d2).

End ColorMeasure.

(** ** Binary64 readings of the speed limit and of the rendered radius

    The numbers of the program are binary64 floats.  The tail of the physics
    step (damping, speed limit, integration, bounce) and the radius pulsation
    of [draw] are read here on those, with the operations of IEEE 754 that
    JavaScript uses. *)

Module Sim64.

Import Floats.
Import Color.
Local Open Scope float_scope.
Local Set Warnings "-inexact-float".


(** The constants of the physics step, and [Math.PI]. *)
Definition damping : float := 0.93.
Definition maxVel : float := 4.
Definition Math_PI : float := 3.141592653589793.

(** The fields of a bubble that the two steps read. *)
Record Bubble : Type := mkBubble {
  x : float;
  y : float;
  vx : float;
  vy : float;
  r : float;
  rBase : float;
  rAmp : float;
  rPeriodFactor : float;
  noisePhase : float
}.

Record Props : Type := mkProps {
  radiusPulseSeconds : float;
  radiusMin : float;
  radiusMax : float
}.

(** [z] as a float, for [0 <= z < 2^53]. *)
Definition of_Z (z : Z) : float := PrimFloat.of_uint63 (Uint63.of_Z z).

(** [x % 1]: NaN for NaN and the infinities; otherwise the fractional part
    of [x] with the sign of [x], which is a float. *)
Definition rem_1 (x : float) : float :=
  match Prim2SF x with
  | S754_finite s m e =>
      let fraction :=
        if (0 <=? e)%Z then 0 else abs x - of_Z (Z.pos m / 2 ^ (- e)) in
      if s then - fraction else fraction
  | S754_zero _ => x
  | _ => nan
  end.

(** The value of a finite float as a rational number. *)
Definition exact (f : float) : QArith_base.Q :=
  match Prim2SF f with
  | S754_finite s m e =>
      QArith_base.Qmult (QArith_base.inject_Z (if s then Z.neg m else Z.pos m))
                        (QArith_base.Qpower (QArith_base.inject_Z 2) e)
  | _ => QArith_base.inject_Z 0
  end.

Section WithMath.

(** [Math.hypot] and [Math.sin] are implementation-approximated: the first
    is a parameter, and so is the second, [sin_approx], outside the
    arguments for which ECMAScript fixes the result. *)
Variable Math_hypot : float -> float -> float.
Variable sin_approx : float -> float.

Definition Math_sin (x : float) : float :=
  if is_nan x || is_infinity x then nan
  else if is_zero x then x
  else sin_approx x.

(** Damping and the speed limit, on the velocity with the forces of the
    frame added. *)
Definition limit (v : float * float) : float * float :=
  let vx1 := fst v * damping in
  let vy1 := snd v * damping in
  let vel := Math_hypot vx1 vy1 in
  if PrimFloat.ltb maxVel vel then ((vx1 / vel) * maxVel, (vy1 / vel) * maxVel) else (vx1, vy1).

(** Edge bounce on one axis; the two [if]s run in sequence. *)
Definition bounce (dim pad : float) (pv : float * float) : float * float :=
  let pv1 := if PrimFloat.ltb (fst pv) pad then (pad, abs (snd pv) * 0.85) else pv in
  if PrimFloat.ltb (dim - pad) (fst pv1) then (dim - pad, - abs (snd pv1) * 0.85) else pv1.

(** The loop body from the damping to the last bounce; [vx b] and [vy b]
    are the velocity with the forces of the frame added. *)
Definition settle (width height : float) (b : Bubble) : Bubble :=
  let v := limit (vx b, vy b) in
  let x1 := x b + fst v in
  let y1 := y b + snd v in
  let padX := r b * 0.6 in
  let padY := r b * 0.6 in
  let bx := bounce width padX (x1, fst v) in
  let by_ := bounce height padY (y1, snd v) in
  mkBubble (fst bx) (fst by_) (snd bx) (snd by_) (r b) (rBase b) (rAmp b) (rPeriodFactor b)
           (noisePhase b).

Variable P : Props.

(** The radius pulsation of [draw]; [t] is [performance.now()]. *)
Definition rPulse (t : float) (b : Bubble) : float :=
  let rPeriodMs := radiusPulseSeconds P * 1000 * rPeriodFactor b in
  let rPhase :=
    if PrimFloat.ltb 0 rPeriodMs then rem_1 ((t + noisePhase b * 1000) / rPeriodMs) else 0 in
  Math_sin (rPhase * Math_PI * 2).

Definition rNow (t : float) (b : Bubble) : float :=
  Math_min (radiusMax P) (Math_max (radiusMin P) (rBase b + rAmp b * rPulse t b)).

End WithMath.

End Sim64.


(** ** Reading the like count *)

Module LikesGet.

Import Likes.

(** [s] does not begin, or does not end, with white space. *)
Definition cleanStart (s : string) : Prop :=
  match s with
  | String c _ => is_space c = false
  | EmptyString => True
  end.
Definition cleanEnd (s : string) : Prop := cleanStart (reverse_string s).

Section Read.

Variable fails : Call -> bool.

(** [GET]: the count query goes through [pool.execute]. *)
Definition GET (req : Request) (d : Db) : World * Response :=
  let w := mkWorld d false [] in
  match parseSlug req with
  | inl error => (w, respond 400 (ErrorBody error))
  | inr slug =>
      catch (bind (call fails EnsureLikesTable readOnly (fun _ => ())) (fun _ =>
             bind (call fails SelectCount readOnly (fun d => countOf slug (view d))) (fun count =>
             ret (respond 200 (CountBody count)))))
            (respond 500 (ErrorBody "Failed to load like count"))
            w
  end.

End Read.

End LikesGet.

(** ** The database pool ([lib/db]) *)

Module DbPool.

(** [process.env[key]] when it is truthy. *)
Definition envValue (env : gmap string string) (key : string) : option string :=
  match env !! key with
  | Some v => if String.eqb v "" then None else Some v
  | None => None
  end.

(** [requiredEnv]: the value, or the message of the error thrown. *)
Definition requiredEnv (env : gmap string string) (key : string) : string + string :=
  match envValue env key with
  | Some value => inr value
  | None => inl ("Missing environment variable: " ++ key)%string
  end.

Section WithNumber.

(** [Number] is ECMAScript's; [Num] are its values, [port3306] the number
    3306. *)
Context {Num : Type}.
Variable Number : string -> Num.
Variable port3306 : Num.

Record DbConfig : Type := mkDbConfig {
  host : string;
  port : Num;
  user : string;
  password : string;
  database : string
}.

(** The properties of the object literal are evaluated in order; the
    first [requiredEnv] that throws ends the evaluation. *)
Definition resolveConfig (env : gmap string string) : string + DbConfig :=
  let host0 := default "127.0.0.1"%string (envValue env "LIKE_DB_HOST") in
  let port0 := match envValue env "LIKE_DB_PORT" with
               | Some s => Number s
               | None => port3306
               end in
  match requiredEnv env "LIKE_DB_USER" with
  | inl error => inl error
  | inr user0 =>
      match requiredEnv env "LIKE_DB_PASSWORD" with
      | inl error => inl error
      | inr password0 =>
          match requiredEnv env "LIKE_DB_NAME" with
          | inl error => inl error
          | inr database0 => inr (mkDbConfig host0 port0 user0 password0 database0)
          end
      end
  end.

(** What [mysql.createPool] is given. *)
Record Pool : Type := mkPool {
  config : DbConfig;
  waitForConnections : bool;
  connectionLimit : Z;
  connectTimeout : Z
}.

(** The two variables of the module: [pool], and whether
    [ensureTablePromise] holds a promise (one that was fulfilled: a rejected
    one is reset to [null] by its [catch] handler). *)
Record Module_ : Type := mkModule { pool : option Pool; ensured : bool }.

Definition getDbPool (env : gmap string string) (m : Module_) : Module_ * (string + Pool) :=
  match pool m with
  | Some p => (m, inr p)
  | None =>
      match resolveConfig env with
      | inl error => (m, inl error)
      | inr c =>
          let p := mkPool c true 5%Z 10000%Z in
          (mkModule (Some p) (ensured m), inr p)
      end
  end.

(** The calls [ensureLikesTable] awaits or makes on the connection. *)
Inductive Step : Type :=
| GetConnection
| CreateLikes
| CreateEvents
| Release.

(** One call of [ensureLikesTable] run to its end: the module after it,
    the steps made, and whether the promise was fulfilled.  [fails] says which
    steps throw. *)
Definition ensureLikesTable (fails : Step -> bool) (env : gmap string string) (m : Module_)
  : Module_ * list Step * bool :=
  if ensured m then (m, [], true)
  else
    match getDbPool env m with
    | (m1, inl _) => (m1, [], false)
    | (m1, inr _) =>
        if fails GetConnection then (m1, [GetConnection], false)
        else
          let '(queries, done) :=
            if fails CreateLikes then ([CreateLikes], false)
            else if fails CreateEvents then ([CreateLikes; CreateEvents], false)
            else ([CreateLikes; CreateEvents], true) in
          let fulfilled := done && negb (fails Release) in
          (mkModule (pool m1) fulfilled, GetConnection :: queries ++ [Release], fulfilled)
    end.

End WithNumber.

End DbPool.

(** ** The debounced resize observer *)

Module Debounce.

Import Sim.

(** The simulation with the timers of its effect: [resizeTimer], the
    timeouts of [onResize] that the window still holds, the next timer id of
    the window, and whether the observer is connected. *)
Record Host : Type := mkHost {
  sim : State;
  resizeTimer : option nat;
  timeouts : list nat;
  nextTimer : nat;
  observing : bool
}.

Definition setTimeout (h : Host) : Host * nat :=
  (mkHost (sim h) (resizeTimer h) (timeouts h ++ [nextTimer h]) (S (nextTimer h)) (observing h),
   nextTimer h).

Definition clearTimeout (id : nat) (h : Host) : Host :=
  mkHost (sim h) (resizeTimer h) (filter (fun k => k <> id) (timeouts h)) (nextTimer h)
         (observing h).

Definition set_resizeTimer (h : Host) (timer : option nat) : Host :=
  mkHost (sim h) timer (timeouts h) (nextTimer h) (observing h).

Definition onResize (h : Host) : Host :=
  let h1 := match resizeTimer h with
            | Some id => clearTimeout id h
            | None => h
            end in
  let '(h2, id) := setTimeout h1 in
  set_resizeTimer h2 (Some id).

Inductive Event : Type :=
| Notify                                          (* the observer reports a resize *)
| Elapse (id : nat) (clientWidth clientHeight : Z) (nows : nat -> R)
                                                  (* the delay of timeout [id] is over *)
| Teardown.                                       (* the cleanup of the effect: the observer
                                                     and the pending timeout *)

Section WithProps.

Variable P : Props.
Variable DPR : R.

Definition step (h : Host) (e : Event) : Host :=
  match e with
  | Notify => if observing h then onResize h else h
  | Elapse id clientWidth clientHeight nows =>
      if bool_decide (id ∈ timeouts h) then
        let h1 := clearTimeout id h in
        mkHost (handleResize P DPR clientWidth clientHeight nows (sim h1)) None
               (timeouts h1) (nextTimer h1) (observing h1)
      else h
  | Teardown =>
      let h1 := mkHost (sim h) (resizeTimer h) (timeouts h) (nextTimer h) false in
      match resizeTimer h1 with
      | Some id => clearTimeout id h1
      | None => h1
      end
  end.

Definition run (h : Host) (events : list Event) : Host := foldl step h events.

End WithProps.

Definition mounted (s : State) : Host := mkHost s None [] 0 true.

(** [resizeTimer] names the one timeout that is pending, if any. *)
Definition settled (h : Host) : Prop :=
  match resizeTimer h with
  | Some id => (timeouts h = [id] /\ (id < nextTimer h)%nat) \/
               (timeouts h = [] /\ observing h = false)
  | None => timeouts h = []
  end.

End Debounce.

(** ** The initial loader *)

Module Loader.

Import Sim.

Local Open Scope R_scope.

Definition THIRTY_MINUTES_MS : R := 30 * 60 * 1000.
Definition DISPLAY_MS : R := 3000.
Definition FADE_OUT_MS : R := 500.

(** What outlives the component: the class [initial-loader-active] of the
    root element and the item of the local storage. *)
Record Page : Type := mkPage { active : bool; lastShown : option string }.

(** The component: its two states and its two timeouts, each with the time
    at which it is due, and whether its effect returned a cleanup. *)
Record Loader : Type := mkLoader {
  render : bool;
  visible : bool;
  hideTimer : option R;
  cleanupTimer : option R;
  hasCleanup : bool
}.

Section WithNumber.

(** [Number] and [String] are ECMAScript's; [None] is NaN. *)
Variable Number : string -> option R.
Variable String_ : R -> string.

(** [Number(localStorage.getItem(STORAGE_KEY) || 0)] *)
Definition last (p : Page) : option R :=
  match lastShown p with
  | Some item => if String.eqb item "" then Some 0 else Number item
  | None => Some 0
  end.

Definition shouldShow (now : R) (p : Page) : bool :=
  active p ||
  match last p with
  | None => true
  | Some l => Reqb l 0 || Rltb THIRTY_MINUTES_MS (now - l)
  end.

(** The effect of a newly mounted component, run at time [now]. *)
Definition mount (now : R) (p : Page) : Page * Loader :=
  if negb (shouldShow now p) then (p, mkLoader false false None None false)
  else
    let p1 := if active p then p else mkPage true (Some (String_ now)) in
    (p1, mkLoader true true (Some (now + DISPLAY_MS)) (Some (now + DISPLAY_MS + FADE_OUT_MS)) true).

Definition due (timer : option R) (t : R) : bool :=
  match timer with
  | Some at_ => negb (Rltb t at_)
  | None => false
  end.

(** The timeouts that are due at time [t] run, the earlier one first. *)
Definition advance (t : R) (st : Page * Loader) : Page * Loader :=
  let '(p, l) := st in
  let '(p1, l1) :=
    if due (hideTimer l) t
    then (mkPage false (lastShown p),
          mkLoader (render l) false None (cleanupTimer l) (hasCleanup l))
    else (p, l) in
  if due (cleanupTimer l1) t
  then (p1, mkLoader false (visible l1) (hideTimer l1) None (hasCleanup l1))
  else (p1, l1).

(** The cleanup of the effect, when it returned one. *)
Definition unmount (st : Page * Loader) : Page * Loader :=
  let '(p, l) := st in
  if hasCleanup l
  then (mkPage false (lastShown p), mkLoader (render l) (visible l) None None false)
  else (p, l).

End WithNumber.

End Loader.

(** ** The timers and frame requests of the effect *)

Module Lifecycle.

Import Sim.

(** The effect of the component after its setup: the simulation with the
    observer and the timeouts of [onResize]; whether the start-delay timeout
    is pending; and the animation frame requests that are pending. *)
Record Effect : Type := mkEffect {
  host : Debounce.Host;
  startDelay : bool;
  frames : list nat
}.

Definition set_sim (h : Debounce.Host) (s : State) : Debounce.Host :=
  Debounce.mkHost s (Debounce.resizeTimer h) (Debounce.timeouts h) (Debounce.nextTimer h)
                  (Debounce.observing h).

Definition cancelAnimationFrame (id : nat) (requests : list nat) : list nat :=
  filter (fun k => k <> id) requests.

Inductive Event : Type :=
| Notify                                   (* the observer reports a resize *)
| Elapse (id : nat) (clientWidth clientHeight : Z) (nows : nat -> R)
                                           (* the delay of the timeout [id] of [onResize] is over *)
| StartElapse                              (* the start delay is over *)
| Tick (id : nat) (hidden : bool) (now : R) (nows : nat -> R) (t : R)
                                           (* the browser runs the frame request [id] at time [t] *)
| Cleanup.                                 (* the cleanup of the effect *)

Section WithProps.

Variable noise : R -> R -> R.
Variable P : Props.
Variable DPR : R.

(** The end of the effect's setup: on a window narrower than 640 px the
    first frame is requested by a timeout, whose handle is not kept; otherwise
    at once.  Then [draw()]. *)
Definition mounted (narrow : bool) (nows : nat -> R) (s : State) : Effect :=
  if narrow
  then mkEffect (Debounce.mkHost (draw P nows s) None [] 1 true) true []
  else
    let s1 := requestAnimationFrame s in
    mkEffect (Debounce.mkHost (draw P nows s1) None [] 0 true) false [animRef s1].

Definition step (e : Effect) (ev : Event) : Effect :=
  match ev with
  | Notify => mkEffect (Debounce.step P DPR (host e) Debounce.Notify) (startDelay e) (frames e)
  | Elapse id clientWidth clientHeight nows =>
      mkEffect (Debounce.step P DPR (host e) (Debounce.Elapse id clientWidth clientHeight nows))
               (startDelay e) (frames e)
  | StartElapse =>
      if startDelay e then
        let s1 := requestAnimationFrame (Debounce.sim (host e)) in
        mkEffect (set_sim (host e) s1) false (frames e ++ [animRef s1])
      else e
  | Tick id hidden now nows t =>
      if bool_decide (id ∈ frames e) then
        let s1 := frame noise P hidden now nows t (Debounce.sim (host e)) in
        mkEffect (set_sim (host e) s1) (startDelay e)
                 (cancelAnimationFrame id (frames e) ++ [animRef s1])
      else e
  | Cleanup =>
      mkEffect (Debounce.step P DPR (host e) Debounce.Teardown) (startDelay e)
               (cancelAnimationFrame (animRef (Debounce.sim (host e))) (frames e))
  end.

Definition run (e : Effect) (events : list Event) : Effect := foldl step e events.

End WithProps.

(** The pending frame requests are the one [animRef] names, and there is
    none while the start delay is pending. *)
Definition wired (e : Effect) : Prop :=
  Debounce.settled (host e) /\
  Forall (fun id => id = animRef (Debounce.sim (host e))) (frames e) /\
  (startDelay e = true -> frames e = []).

End Lifecycle.

(** ** Further inputs *)

Module Sample.

Import Sim.
Local Open Scope R_scope.

(** A bubble of radius 120 on the vertical line of [Scenario.bubbleA],
    500 below it: out of its separation range of 156. *)
Definition bubbleFar : Bubble :=
  mkBubble 72 900 120 120 (120 * 0.1) 1 70 60 200 0 30 1 "#0088ff" 0 0 1 60 0 1 0 72 900.

(** A clock that reads 1000 ms, with the conversions between that number
    and its text. *)
Definition clockString (now : R) : string := "1000".
Definition clockNumber (item : string) : option R := Some 1000.

(** A page on which the loader was never shown. *)
Definition firstVisit : Loader.Page := Loader.mkPage false None.

(** [Scenario.pairState] some frames into the loop: the last tick was at
    16 ms and 3 ms are accumulated. *)
Definition runningPair : State :=
  mkState 144 1000 (mkCanvas 144 1000 []) 2 10 (replicate 20 0)
    [Scenario.bubbleA; Scenario.bubbleB] 16 3 0 0 [] 0 0.


End Sample.

Module Sample64.

Import Floats.
Import Color.
Local Open Scope float_scope.
Local Set Warnings "-inexact-float".

(** Two ways in which engines compute [Math.hypot] of two numbers: the
    square root of the sum of the squares, and the sum of the squares of the
    arguments scaled by the larger magnitude, with a compensated summation. *)
Definition hypotSqrt (x y : float) : float := sqrt (x * x + y * y).

Definition hypotScaled (x y : float) : float :=
  let ax := abs x in
  let ay := abs y in
  let max := if PrimFloat.ltb ax ay then ay else ax in
  if PrimFloat.eqb max infinity then infinity
  else if is_nan x || is_nan y then nan
  else if PrimFloat.eqb max 0 then 0
  else
    let n1 := ax / max in
    let summand1 := n1 * n1 - 0 in
    let sum1 := 0 + summand1 in
    let compensation1 := (sum1 - 0) - summand1 in
    let n2 := ay / max in
    let summand2 := n2 * n2 - compensation1 in
    let sum2 := sum1 + summand2 in
    sqrt sum2 * max.

(** The default radius bounds with a pulse period of 1e-310 seconds. *)
Definition tinyPeriodProps : Sim64.Props := Sim64.mkProps 1e-310 120 460.

(** A bubble of radius 120 in the middle of an 800 x 600 canvas, with a
    pulse amplitude of 12 and no phase shift, whose velocity, the forces of
    the frame added, is (8.1, 3.2). *)
Definition fastBubble : Sim64.Bubble := Sim64.mkBubble 400 300 8.1 3.2 120 120 12 1 0.

End Sample64.

(* ===================================================================== *)
(** * Part II: properties *)
(* ===================================================================== *)

(** ** Colour utilities *)

Section ColorFacts.

Import Floats.
Import Color.
Local Open Scope float_scope.

Example tint_grey : tint "#808080" 1 = RgbText 128 128 128.
Proof. vm_compute. reflexivity. Qed.

Example tint_bad : tint "bad" 1.5 = Unchanged "bad".
Proof. reflexivity. Qed.

(** A colour whose length without its first ['#'] is not six passes
    through, whatever the factor. *)
Lemma tint_other_length (color : string) (factor : float) :
  String.length (remove_first_hash color) <> 6%nat ->
  tint color factor = Unchanged color.
Proof.
  intros Hlen. unfold tint.
  destruct (String.eqb color ""); [reflexivity|].
  destruct (Nat.eqb_spec (String.length (remove_first_hash color)) 6) as [E|E].
  - contradiction.
  - reflexivity.
Qed.

(** C8. [tint] does not hand back every string that is not a six-digit
    hexadecimal colour: six characters that are not hexadecimal digits pass
    the length test, [parseInt] reads NaN from them, and the result is
    [rgb(NaN, 15, NaN)] for the colour name [orange] with factor 1.5. *)
Theorem tint_orange_is_not_passed_through :
  tint "orange" 1.5 = RgbText nan 15 nan /\ tint "orange" 1.5 <> Unchanged "orange".
Proof.
  assert (E : tint "orange" 1.5 = RgbText nan 15 nan) by (vm_compute; reflexivity).
  split; [exact E|]. rewrite E. discriminate.
Qed.

Example tint_zzzzzz : tint "zzzzzz" 1.5 = RgbText nan nan nan.
Proof. vm_compute. reflexivity. Qed.

Example rgbToHslTuple_red (Number : string -> float) :
  rgbToHslTuple Number "#ff0000" = Some (0, 100, 50).
Proof. vm_compute. reflexivity. Qed.

(** A string that neither is a ['#'] followed by six code units nor starts
    with [rgb] gives [null]. *)
Lemma rgbToHslTuple_null (Number : string -> float) (color : string) :
  startsWith color "#" && (String.length color =? 7)%nat = false ->
  startsWith color "rgb" = false ->
  rgbToHslTuple Number color = None.
Proof. intros H1 H2. unfold rgbToHslTuple. rewrite H1, H2. reflexivity. Qed.

(** C9. [rgbToHslTuple] returns NaN components: a ['#'] followed by six
    characters that are not hexadecimal digits takes the hexadecimal branch
    and yields the triple (0, NaN, NaN), neither [null] nor a triple of
    numbers; so does a string that starts with [rgb] and holds fewer than
    three numbers, such as [rgb] alone or the [rgb(NaN, 15, NaN)] that
    [tint] makes of [orange]. *)
Theorem rgbToHslTuple_returns_nan (Number : string -> float) :
  rgbToHslTuple Number "#zzzzzz" = Some (0, nan, nan) /\
  rgbToHslTuple Number "rgb" = Some (0, nan, nan) /\
  rgbToHslTuple Number "rgb(NaN, 15, NaN)" = Some (0, nan, nan) /\
  is_nan nan = true.
Proof.
  split; [vm_compute; reflexivity|]. split; [vm_compute; reflexivity|].
  split; [|reflexivity].
  unfold rgbToHslTuple.
  replace (startsWith "rgb(NaN, 15, NaN)" "#" && (String.length "rgb(NaN, 15, NaN)" =? 7)%nat)
    with false by reflexivity.
  replace (startsWith "rgb(NaN, 15, NaN)" "rgb") with true by reflexivity.
  replace (runs [] "rgb(NaN, 15, NaN)") with ["15"%string] by reflexivity.
  cbn [map channel lookup list_lookup].
  generalize (Number "15" / 255). intros r.
  assert (Hmax : Math_max3 r nan nan = nan).
  { unfold Math_max3. generalize (Math_max r nan). intros m. unfold Math_max.
    replace (is_nan nan) with true by reflexivity. rewrite orb_true_r. reflexivity. }
  assert (Hmin : Math_min3 r nan nan = nan).
  { unfold Math_min3. generalize (Math_min r nan). intros m. unfold Math_min.
    replace (is_nan nan) with true by reflexivity. rewrite orb_true_r. reflexivity. }
  assert (Heq : PrimFloat.eqb nan r = false).
  { rewrite FloatAxioms.eqb_spec. replace (Prim2SF nan) with SpecFloat.S754_nan by reflexivity.
    reflexivity. }
  cbv zeta. rewrite Hmax, Hmin.
  replace (PrimFloat.eqb nan nan) with false by reflexivity.
  cbn [negb]. rewrite Heq.
  vm_compute. reflexivity.
Qed.

End ColorFacts.

(** ** Occupancy grid *)

Section GridFacts.

Import Sim Scenario.
Local Open Scope R_scope.

(** [ceil_div] is the ceiling of the quotient. *)
Lemma ceil_div_spec (a b : Z) :
  (0 < b)%Z -> (b * (ceil_div a b - 1) < a <= b * ceil_div a b)%Z.
Proof.
  intros Hb. unfold ceil_div.
  pose proof (Z.div_mod (- a) b ltac:(lia)) as Hdm.
  pose proof (Z.mod_pos_bound (- a) b Hb) as Hm.
  nia.
Qed.

Lemma ceil_div_pos (a b : Z) : (0 < b)%Z -> (1 <= a)%Z -> (1 <= ceil_div a b)%Z.
Proof. intros Hb Ha. pose proof (ceil_div_spec a b Hb). nia. Qed.

Lemma stampOccupancy_size (x0 y0 r0 : R) (s : State) :
  width (stampOccupancy x0 y0 r0 s) = width s /\
  height (stampOccupancy x0 y0 r0 s) = height s.
Proof. split; reflexivity. Qed.

Lemma stampAll_size (history : list (R * R * R)) (s : State) :
  width (stampAll s history) = width s /\ height (stampAll s history) = height s.
Proof.
  revert s. induction history as [|c history IH]; intros s; [split; reflexivity|].
  unfold stampAll in *. cbn [foldl]. destruct (IH (stampOccupancy c.1.1 c.1.2 c.2 s)) as [Hw Hh].
  rewrite Hw, Hh. split; reflexivity.
Qed.

(** C2. The attraction point does not depend on the grid: two states of
    the same width and height, whatever their grids and whatever stamps
    each received since, give the same point at the same time. *)
Theorem lowestOccupancyTarget_independent_of_grid
  (now : R) (s1 s2 : State) (history1 history2 : list (R * R * R)) :
  width s1 = width s2 ->
  height s1 = height s2 ->
  lowestOccupancyTarget now (stampAll s1 history1) =
  lowestOccupancyTarget now (stampAll s2 history2).
Proof.
  intros Hw Hh. unfold lowestOccupancyTarget.
  destruct (stampAll_size history1 s1) as [-> ->].
  destruct (stampAll_size history2 s2) as [-> ->].
  rewrite Hw, Hh. reflexivity.
Qed.

(** The point is a function of the time and of the two dimensions. *)
Lemma lowestOccupancyTarget_formula (now : R) (s : State) :
  lowestOccupancyTarget now s =
  (IZR (width s) * (0.5 + sin (now * 0.00025) * 0.12),
   IZR (height s) * (0.5 + cos (now * 0.00018) * 0.04)).
Proof. reflexivity. Qed.

Lemma lowestOccupancyTarget_independent_of_grid_witness :
  lowestOccupancyTarget 1000 (stampAll freshState [(50, 50, 72)]) =
  lowestOccupancyTarget 1000 (stampAll usedState []).
Proof.
  apply (lowestOccupancyTarget_independent_of_grid 1000 freshState usedState
           [(50, 50, 72)] []); reflexivity.
Defined.

Lemma allocateGrid_shape (s : State) :
  let s' := allocateGrid s in
  gridCols s' = Z.max 1 (ceil_div (width s) gridCell) /\
  gridRows s' = Z.max 1 (ceil_div (height s) gridCell) /\
  length (grid s') = Z.to_nat (gridCols s' * gridRows s') /\
  Forall (fun weight => weight = 0) (grid s').
Proof.
  cbn. repeat split.
  - apply length_replicate.
  - apply Forall_replicate. reflexivity.
Qed.

Section Resize.

Variable P : Props.
Variable DPR : R.

Lemma draw_keeps_grid (nows : nat -> R) (s : State) :
  gridCols (draw P nows s) = gridCols s /\
  gridRows (draw P nows s) = gridRows s /\
  grid (draw P nows s) = grid s.
Proof. repeat split. Qed.

(** C7, amended. A resize to other dimensions [(w2, h2)] leaves a grid of
    exactly [max(1, ceil(w2/cellSize))] columns and
    [max(1, ceil(h2/cellSize))] rows, every weight zero; these are
    [ceil(w2/cellSize)] and [ceil(h2/cellSize)] as soon as [w2] and [h2] are
    at least 1. *)
Theorem handleResize_grid (w2 h2 : Z) (nows : nat -> R) (s : State) :
  w2 <> width s \/ h2 <> height s ->
  let s' := handleResize P DPR w2 h2 nows s in
  gridCols s' = Z.max 1 (ceil_div w2 gridCell) /\
  gridRows s' = Z.max 1 (ceil_div h2 gridCell) /\
  length (grid s') = Z.to_nat (gridCols s' * gridRows s') /\
  Forall (fun weight => weight = 0) (grid s') /\
  ((1 <= w2)%Z -> gridCols s' = ceil_div w2 gridCell) /\
  ((1 <= h2)%Z -> gridRows s' = ceil_div h2 gridCell).
Proof.
  intros Hne s'.
  assert (E : s' = draw P nows (allocateGrid
                 (set_canvas (set_size s w2 h2)
                    (mkCanvas (floor (IZR w2 * DPR)) (floor (IZR h2 * DPR)) [])))).
  { subst s'. unfold handleResize.
    destruct (Z.eqb_spec w2 (width s)) as [Ew|Ew];
      destruct (Z.eqb_spec h2 (height s)) as [Eh|Eh]; cbn [andb]; try reflexivity.
    destruct Hne; contradiction. }
  destruct (draw_keeps_grid nows (allocateGrid
              (set_canvas (set_size s w2 h2)
                 (mkCanvas (floor (IZR w2 * DPR)) (floor (IZR h2 * DPR)) []))))
    as (Hc & Hr & Hg).
  rewrite <- E in Hc, Hr, Hg. rewrite Hc, Hr, Hg.
  pose proof (allocateGrid_shape (set_canvas (set_size s w2 h2)
                 (mkCanvas (floor (IZR w2 * DPR)) (floor (IZR h2 * DPR)) [])))
    as (Ac & Ar & Al & Az).
  cbn [width height set_canvas set_size] in Ac, Ar.
  repeat split; try assumption.
  - intros Hw. rewrite Ac. pose proof (ceil_div_pos w2 gridCell ltac:(reflexivity) Hw). lia.
  - intros Hh. rewrite Ar. pose proof (ceil_div_pos h2 gridCell ltac:(reflexivity) Hh). lia.
Qed.

(** A notification that leaves both dimensions as they are changes
    nothing. *)
Lemma handleResize_same_size (nows : nat -> R) (s : State) :
  handleResize P DPR (width s) (height s) nows s = s.
Proof. unfold handleResize. rewrite !Z.eqb_refl. reflexivity. Qed.

End Resize.

Lemma handleResize_grid_witness :
  gridCols (handleResize defaultProps 2 1024 768 (fun _ => 0) freshState) = 11%Z /\
  gridRows (handleResize defaultProps 2 1024 768 (fun _ => 0) freshState) = 8%Z.
Proof.
  destruct (handleResize_grid defaultProps 2 1024 768 (fun _ => 0) freshState) as
    (Hc & Hr & _); [left; discriminate|].
  split; [exact Hc | exact Hr].
Defined.

(** C7, as stated, fails when the canvas shrinks to width 0: the grid keeps
    one column where [ceil(0/100)] is 0. *)
Lemma handleResize_zero_width :
  gridCols (handleResize defaultProps 2 0 600 (fun _ => 0) freshState) = 1%Z /\
  ceil_div 0 gridCell = 0%Z /\
  length (grid (handleResize defaultProps 2 0 600 (fun _ => 0) freshState)) = 6%nat.
Proof. repeat split. Qed.

End GridFacts.

(** ** Frame scheduler *)

Section SchedulerFacts.

Import Sim.
Local Open Scope R_scope.

Variable noise : R -> R -> R.
Variable P : Props.

(** C6. A tick taken while the document is hidden only reschedules: the
    bubbles, the grid, the canvas, the two clock variables and the
    frames-per-second bookkeeping are what they were, and one more animation
    frame has been requested. *)
Theorem frame_hidden_only_reschedules (now : R) (nows : nat -> R) (t : R) (s : State) :
  let s' := frame noise P true now nows t s in
  s' = requestAnimationFrame s /\
  bubbles s' = bubbles s /\
  (gridCols s' = gridCols s /\ gridRows s' = gridRows s /\ grid s' = grid s) /\
  canvas s' = canvas s /\
  (accumulatedTime s' = accumulatedTime s /\ lastTime s' = lastTime s) /\
  (width s' = width s /\ height s' = height s) /\
  (fpsCounter s' = fpsCounter s /\ fpsStart s' = fpsStart s /\ console s' = console s) /\
  (rafRequests s' = S (rafRequests s) /\ animRef s' = S (rafRequests s)).
Proof. cbn. repeat split. Qed.

(** Any number of hidden ticks, at any time stamps, accumulates no time. *)
Lemma hidden_ticks_accumulate_nothing (now : R) (nows : nat -> R) (ts : list R) (s : State) :
  let s' := foldl (fun s t => frame noise P true now nows t s) s ts in
  accumulatedTime s' = accumulatedTime s /\ lastTime s' = lastTime s /\
  bubbles s' = bubbles s /\ grid s' = grid s /\ canvas s' = canvas s /\
  rafRequests s' = (rafRequests s + length ts)%nat.
Proof.
  revert s. induction ts as [|t ts IH]; intros s; cbn [foldl length].
  - repeat split. lia.
  - destruct (IH (frame noise P true now nows t s)) as (H1 & H2 & H3 & H4 & H5 & H6).
    cbn zeta. rewrite H1, H2, H3, H4, H5, H6. cbn. repeat split. lia.
Qed.

End SchedulerFacts.

(** ** Physics integrator *)

Section PhysicsFacts.

Import Sim.
Local Open Scope R_scope.

Lemma Rltb_true (a b : R) : a < b -> Rltb a b = true.
Proof. intros H. unfold Rltb. destruct (Rlt_dec a b); [reflexivity|contradiction]. Qed.

Lemma Rltb_false (a b : R) : b <= a -> Rltb a b = false.
Proof. intros H. unfold Rltb. destruct (Rlt_dec a b); [lra|reflexivity]. Qed.

Lemma hypot_le (a b c : R) : 0 <= c -> a * a + b * b <= c * c -> hypot a b <= c.
Proof.
  intros Hc H. unfold hypot. rewrite <- (sqrt_square c Hc).
  apply sqrt_le_1_alt. exact H.
Qed.

Lemma hypot_sqr (a b : R) : hypot a b * hypot a b = a * a + b * b.
Proof. unfold hypot. apply sqrt_sqrt. nra. Qed.

Lemma hypot_nonneg (a b : R) : 0 <= hypot a b.
Proof. apply sqrt_pos. Qed.

Lemma sqr_le_abs (a c : R) : Rabs a <= Rabs c -> a * a <= c * c.
Proof.
  intros H. unfold Rabs in H.
  destruct (Rcase_abs a), (Rcase_abs c); nra.
Qed.

Lemma hypot_mono (a b c d : R) :
  Rabs a <= Rabs c -> Rabs b <= Rabs d -> hypot a b <= hypot c d.
Proof.
  intros Ha Hb. apply hypot_le; [apply hypot_nonneg|].
  rewrite hypot_sqr. pose proof (sqr_le_abs _ _ Ha). pose proof (sqr_le_abs _ _ Hb). lra.
Qed.

(** After damping and the speed limit the speed is at most [maxVel]. *)
Lemma limit_speed (v : R * R) : hypot (fst (limit v)) (snd (limit v)) <= maxVel.
Proof.
  unfold limit, Rltb, maxVel.
  set (a := fst v * damping). set (b := snd v * damping).
  destruct (Rlt_dec 4 (hypot a b)) as [Hgt|Hle]; cbn [fst snd].
  - apply hypot_le; [lra|].
    pose proof (hypot_sqr a b) as Hs.
    set (vel := hypot a b) in *.
    assert (Hv : vel <> 0) by lra.
    replace (a / vel * 4 * (a / vel * 4) + b / vel * 4 * (b / vel * 4))
      with (16 * ((a * a + b * b) / (vel * vel))) by (field; exact Hv).
    rewrite <- Hs. replace (vel * vel / (vel * vel)) with 1 by (field; exact Hv). lra.
  - lra.
Qed.

(** The bounce never speeds a component up, and it puts the position
    inside the padded range when that range is not empty. *)
Lemma bounce_speed (dim pad : R) (pv : R * R) :
  Rabs (snd (bounce dim pad pv)) <= Rabs (snd pv).
Proof.
  unfold bounce, Rltb. destruct pv as [p v]. cbn [fst snd].
  destruct (Rlt_dec p pad); cbn [fst snd];
    match goal with |- context [Rlt_dec ?u ?w] => destruct (Rlt_dec u w) end;
    cbn [fst snd]; unfold Rabs; repeat destruct Rcase_abs; lra.
Qed.

Lemma bounce_position (dim pad : R) (pv : R * R) :
  pad <= dim - pad -> pad <= fst (bounce dim pad pv) <= dim - pad.
Proof.
  intros Hpad. unfold bounce, Rltb. destruct pv as [p v]. cbn [fst snd].
  destruct (Rlt_dec p pad); cbn [fst snd];
    match goal with |- context [Rlt_dec ?u ?w] => destruct (Rlt_dec u w) end;
    cbn [fst snd]; lra.
Qed.

Section Loop.

Variable noise : R -> R -> R.
Variable P : Props.

Lemma move_fields (w h : Z) (tx ty bX bY t : R) (bs : list Bubble) (i : nat) (b : Bubble) :
  let b' := move noise P w h tx ty bX bY t bs i b in
  r b' = r b /\ rBase b' = rBase b /\ rAmp b' = rAmp b /\
  rPeriodFactor b' = rPeriodFactor b /\ noisePhase b' = noisePhase b /\
  homeX b' = homeX b /\ homeY b' = homeY b /\ jitter b' = jitter b.
Proof. cbn. repeat split. Qed.

Lemma move_speed (w h : Z) (tx ty bX bY t : R) (bs : list Bubble) (i : nat) (b : Bubble) :
  let b' := move noise P w h tx ty bX bY t bs i b in
  hypot (vx b') (vy b') <= maxVel.
Proof.
  cbn zeta. unfold move. cbn [vx vy set_motion].
  set (v := limit (accelerate noise P tx ty bX bY t bs i b)).
  eapply Rle_trans; [|apply (limit_speed (accelerate noise P tx ty bX bY t bs i b))].
  fold v. apply hypot_mono.
  - apply (bounce_speed (IZR w) (r b * 0.6) (x b + fst v, fst v)).
  - apply (bounce_speed (IZR h) (r b * 0.6) (y b + snd v, snd v)).
Qed.

Lemma move_position (w h : Z) (tx ty bX bY t : R) (bs : list Bubble) (i : nat) (b : Bubble) :
  let b' := move noise P w h tx ty bX bY t bs i b in
  (r b' * 0.6 <= IZR w - r b' * 0.6 -> r b' * 0.6 <= x b' <= IZR w - r b' * 0.6) /\
  (r b' * 0.6 <= IZR h - r b' * 0.6 -> r b' * 0.6 <= y b' <= IZR h - r b' * 0.6).
Proof.
  cbn zeta. unfold move. cbn [x y r set_motion].
  split; intros Hpad; apply bounce_position; exact Hpad.
Qed.

Section Sweep.

Variables tx ty bX bY t : R.

Lemma visit_size (s : State) (i : nat) :
  width (visit noise P tx ty bX bY t s i) = width s /\
  height (visit noise P tx ty bX bY t s i) = height s /\
  length (bubbles (visit noise P tx ty bX bY t s i)) = length (bubbles s).
Proof.
  unfold visit. destruct (bubbles s !! i) as [b|]; [|repeat split].
  cbn. repeat split. apply length_insert.
Qed.

(** The state after the first [k] iterations of the loop over [i]: the
    bubbles from [k] on are untouched, and each bubble before [k] is the
    [move] of its old self computed from the array in which the bubbles
    before it had already moved. *)
Lemma loop_prefix (s : State) (k : nat) :
  (k <= length (bubbles s))%nat ->
  let s' := foldl (visit noise P tx ty bX bY t) s (seq 0 k) in
  width s' = width s /\ height s' = height s /\
  length (bubbles s') = length (bubbles s) /\
  drop k (bubbles s') = drop k (bubbles s) /\
  forall (i : nat) (b : Bubble), (i < k)%nat -> bubbles s !! i = Some b ->
    bubbles s' !! i =
    Some (move noise P (width s) (height s) tx ty bX bY t
            (take i (bubbles s') ++ drop i (bubbles s)) i b).
Proof.
  induction k as [|k IH]; intros Hk; cbn zeta.
  - cbn. repeat split. intros i b Hi. lia.
  - rewrite seq_S, foldl_app. cbn [foldl Nat.add].
    destruct (IH ltac:(lia)) as (Hw & Hh & Hlen & Hdrop & Hdone). clear IH.
    set (sk := foldl (visit noise P tx ty bX bY t) s (seq 0 k)) in *.
    destruct (visit_size sk k) as (Vw & Vh & Vlen).
    destruct (lookup_lt_is_Some_2 (bubbles s) k ltac:(lia)) as [bk Hbk].
    assert (Hsk : bubbles sk !! k = Some bk).
    { rewrite <- (Nat.add_0_r k) at 1. rewrite <- lookup_drop, Hdrop, lookup_drop.
      rewrite Nat.add_0_r. exact Hbk. }
    assert (Hsplit : bubbles sk = take k (bubbles sk) ++ drop k (bubbles s)).
    { rewrite <- Hdrop. symmetry. apply take_drop. }
    assert (Hbs : bubbles (visit noise P tx ty bX bY t sk k) =
                  <[k := move noise P (width sk) (height sk) tx ty bX bY t (bubbles sk) k bk]>
                    (bubbles sk)).
    { unfold visit. rewrite Hsk. reflexivity. }
    repeat split.
    + congruence.
    + congruence.
    + congruence.
    + rewrite Hbs, drop_insert_lt by lia.
      replace (S k) with (k + 1)%nat by lia.
      rewrite <- !drop_drop, Hdrop. reflexivity.
    + intros i b Hi Hb. rewrite Hbs.
      rewrite take_insert_ge by lia.
      destruct (decide (i = k)) as [->|Hne].
      * rewrite list_lookup_insert_eq by lia.
        rewrite Hw, Hh, <- Hsplit. congruence.
      * rewrite list_lookup_insert_ne by lia.
        apply Hdone; [lia|exact Hb].
Qed.

End Sweep.

Lemma updatePhysics_loop (now t : R) (s : State) :
  updatePhysics noise P now t s =
  foldl (visit noise P (fst (lowestOccupancyTarget now s)) (snd (lowestOccupancyTarget now s))
           (fst (balance s)) (snd (balance s)) t)
        s (seq 0 (length (bubbles s))).
Proof.
  unfold updatePhysics.
  destruct (lowestOccupancyTarget now s) as [tx0 ty0], (balance s) as [bX0 bY0].
  reflexivity.
Qed.

Lemma updatePhysics_length (now t : R) (s : State) :
  length (bubbles (updatePhysics noise P now t s)) = length (bubbles s).
Proof.
  rewrite updatePhysics_loop.
  exact (proj1 (proj2 (proj2 (loop_prefix _ _ _ _ _ s (length (bubbles s)) (le_n _))))).
Qed.

(** Every bubble after the frame is a [move] of a bubble before it. *)
Lemma updatePhysics_moved (now t : R) (s : State) (Q : Bubble -> Prop) :
  (forall (bs : list Bubble) (i : nat) (b : Bubble),
      Q (move noise P (width s) (height s)
           (fst (lowestOccupancyTarget now s)) (snd (lowestOccupancyTarget now s))
           (fst (balance s)) (snd (balance s)) t bs i b)) ->
  Forall Q (bubbles (updatePhysics noise P now t s)).
Proof.
  intros HQ. apply Forall_lookup. intros i b' Hi.
  pose proof (updatePhysics_length now t s) as Hlen.
  rewrite updatePhysics_loop in Hi, Hlen.
  destruct (loop_prefix (fst (lowestOccupancyTarget now s)) (snd (lowestOccupancyTarget now s))
              (fst (balance s)) (snd (balance s)) t s (length (bubbles s)) (le_n _))
    as (_ & _ & _ & _ & Hdone).
  assert (Hlt : (i < length (bubbles s))%nat).
  { rewrite <- Hlen. apply lookup_lt_is_Some_1. eauto. }
  destruct (lookup_lt_is_Some_2 (bubbles s) i Hlt) as [b Hb].
  rewrite (Hdone i b Hlt Hb) in Hi. injection Hi as <-. apply HQ.
Qed.

End Loop.

(** Over the real numbers, that is with the square root, the quotient and
    the product of the speed limit exact, the speed of every bubble after a
    frame of [updatePhysics] is at most 4. *)
Lemma updatePhysics_speed_exact
  (noise : R -> R -> R) (P : Props) (now t : R) (s : State) :
  Forall (fun b => hypot (vx b) (vy b) <= 4) (bubbles (updatePhysics noise P now t s)) /\
  length (bubbles (updatePhysics noise P now t s)) = length (bubbles s).
Proof.
  split; [|apply updatePhysics_length].
  apply updatePhysics_moved. intros bs i b.
  exact (move_speed noise P _ _ _ _ _ _ t bs i b).
Qed.

(** Over the real numbers, the clamp of the rendered radius. *)
Lemma rNow_bounds (P : Props) (now : R) (b : Bubble) :
  radiusMin P <= radiusMax P -> radiusMin P <= rNow P now b <= radiusMax P.
Proof.
  intros H. unfold rNow. split.
  - apply Rmin_glb; [exact H|apply Rmax_l].
  - apply Rmin_l.
Qed.

(** After a frame of [updatePhysics], on each axis on which [0.6 r] does
    not exceed [dimension - 0.6 r] the position of every bubble lies in
    [[0.6 r, dimension - 0.6 r]]. *)
Lemma updatePhysics_position
  (noise : R -> R -> R) (P : Props) (now t : R) (s : State) :
  Forall (fun b =>
            (r b * 0.6 <= IZR (width s) - r b * 0.6 ->
             r b * 0.6 <= x b <= IZR (width s) - r b * 0.6) /\
            (r b * 0.6 <= IZR (height s) - r b * 0.6 ->
             r b * 0.6 <= y b <= IZR (height s) - r b * 0.6))
         (bubbles (updatePhysics noise P now t s)) /\
  length (bubbles (updatePhysics noise P now t s)) = length (bubbles s).
Proof.
  split; [|apply updatePhysics_length].
  apply updatePhysics_moved. intros bs i b.
  exact (move_position noise P _ _ _ _ _ _ t bs i b).
Qed.

Import Scenario.

(** *** The order of the updates within a frame *)

Lemma hypot_0_l (a : R) : hypot 0 a = Rabs a.
Proof.
  unfold hypot. replace (0 * 0 + a * a) with (Rsqr a) by (unfold Rsqr; ring).
  apply sqrt_Rsqr_abs.
Qed.

Lemma pairState_target : lowestOccupancyTarget 0 pairState = (72, 540).
Proof.
  unfold lowestOccupancyTarget. cbn [width height pairState].
  rewrite !Rmult_0_l, sin_0, cos_0. f_equal; lra.
Qed.

Lemma pairState_balance : balance pairState = (0, 0.00375).
Proof.
  unfold balance, sumX, sumY. cbn [bubbles pairState foldl length x y bubbleA bubbleB width height INR].
  rewrite !Rmax_right by lra. rewrite !Rmax_left by lra.
  f_equal; lra.
Qed.

(** One term of the separation sum when [o] is straight above or below
    [b], at distance [d] inside the separation range. *)
Lemma separation_below (i j : nat) (b o : Bubble) (rest : list Bubble) (acc : R * R) :
  j <> i -> x b = x o -> y o < y b ->
  y b - y o < (r b + r o) * 0.65 ->
  0.001 < (y b - y o) * (y b - y o) ->
  separation i b j (o :: rest) acc =
  separation i b (S j) rest
    (fst acc, snd acc + ((r b + r o) * 0.65 - (y b - y o)) / ((r b + r o) * 0.65) * 1.8).
Proof.
  intros Hj Hx Hy Hd Hpos. cbn [separation].
  destruct (Nat.eqb_spec j i) as [E|_]; [contradiction|].
  rewrite Hx. set (dy := y b - y o) in *. set (minD := (r b + r o) * 0.65) in *.
  assert (Hdy : 0 < dy) by (unfold dy; lra).
  replace ((x o - x o) * (x o - x o) + dy * dy) with (dy * dy) by ring.
  rewrite (Rltb_true (dy * dy)) by (apply Rmult_le_0_lt_compat; lra).
  rewrite (Rltb_true 0.001) by exact Hpos. cbn [andb].
  rewrite sqrt_square by lra.
  f_equal. f_equal.
  - unfold Rdiv. ring.
  - field. split; lra.
Qed.

Lemma separation_above (i j : nat) (b o : Bubble) (rest : list Bubble) (acc : R * R) :
  j <> i -> x b = x o -> y b < y o ->
  y o - y b < (r b + r o) * 0.65 ->
  0.001 < (y o - y b) * (y o - y b) ->
  separation i b j (o :: rest) acc =
  separation i b (S j) rest
    (fst acc, snd acc - ((r b + r o) * 0.65 - (y o - y b)) / ((r b + r o) * 0.65) * 1.8).
Proof.
  intros Hj Hx Hy Hd Hpos. cbn [separation].
  destruct (Nat.eqb_spec j i) as [E|_]; [contradiction|].
  rewrite Hx. set (dy := y o - y b) in *. set (minD := (r b + r o) * 0.65) in *.
  assert (Hdy : 0 < dy) by (unfold dy; lra).
  replace ((x o - x o) * (x o - x o) + (y b - y o) * (y b - y o)) with (dy * dy)
    by (unfold dy; ring).
  rewrite (Rltb_true (dy * dy)) by (apply Rmult_le_0_lt_compat; lra).
  rewrite (Rltb_true 0.001) by exact Hpos. cbn [andb].
  rewrite sqrt_square by lra.
  f_equal. f_equal.
  - unfold Rdiv. ring.
  - unfold dy. field. split; lra.
Qed.

Lemma separation_self (i : nat) (b o : Bubble) (rest : list Bubble) (acc : R * R) :
  separation i b i (o :: rest) acc = separation i b (S i) rest acc.
Proof. cbn [separation]. rewrite Nat.eqb_refl. reflexivity. Qed.


Lemma accelerateA (t : R) :
  accelerate stillNoise pairProps 72 540 0 0.00375 t [bubbleA; bubbleB] 0 bubbleA =
  (0.55, vyA / 0.93).
Proof.
  unfold accelerate.
  rewrite separation_self.
  rewrite separation_above; cbn [x y r bubbleA bubbleB fst snd]; try lra; [|lia].
  cbn [separation].
  unfold stillNoise. rewrite !Rmult_0_l, cos_0, sin_0.
  cbn [x y r bubbleA bubbleB fst snd vx vy jitter homeX homeY speed pairProps].
  replace (72 - 72) with 0 by lra.
  rewrite hypot_0_l, Rabs_right by lra.
  unfold vyA. f_equal; lra.
Qed.

Lemma limit_slow (a b : R) :
  (a * damping) * (a * damping) + (b * damping) * (b * damping) <= 16 ->
  limit (a, b) = (a * damping, b * damping).
Proof.
  intros H. unfold limit. cbn [fst snd].
  rewrite Rltb_false; [reflexivity|]. apply hypot_le; [unfold maxVel; lra|].
  unfold maxVel. lra.
Qed.

Lemma moveA (t : R) :
  let A' := move stillNoise pairProps 144 1000 72 540 0 0.00375 t
              [bubbleA; bubbleB] 0 bubbleA in
  x A' = 72 /\ y A' = 400 + vyA /\ r A' = 120.
Proof.
  cbn zeta. unfold move. rewrite accelerateA.
  rewrite limit_slow by (unfold damping, vyA; lra).
  cbn [x y r set_motion bubbleA fst snd].
  unfold bounce. cbn [fst snd].
  rewrite (Rltb_false (72 + _)) by (unfold damping; lra).
  rewrite (Rltb_false (400 + _)) by (unfold damping, vyA; lra).
  cbn [fst snd].
  rewrite (Rltb_true _ (72 + _)) by (unfold damping; lra).
  rewrite (Rltb_false _ (400 + _)) by (unfold damping, vyA; lra).
  cbn [fst snd]. unfold damping, vyA. repeat split; lra.
Qed.

Lemma accelerateB (t e : R) (o : Bubble) :
  x o = 72 -> r o = 120 -> y o = 400 + e -> -1 < e < 1 ->
  accelerate stillNoise pairProps 72 540 0 0.00375 t [o; bubbleB] 1 bubbleB =
  (0.55, (6 + e) / 156 * 1.8 - 10 / 10.001 * 0.015 + 0.00375).
Proof.
  intros Hx Hr Hy He. unfold accelerate.
  rewrite separation_below; cbn [x y r bubbleB fst snd]; rewrite ?Hx, ?Hr, ?Hy; try nra; [|lia].
  rewrite separation_self. cbn [separation].
  unfold stillNoise. rewrite !Rmult_0_l, cos_0, sin_0.
  cbn [x y r bubbleA bubbleB fst snd vx vy jitter homeX homeY speed pairProps].
  replace (72 - 72) with 0 by lra.
  rewrite hypot_0_l, Rabs_left by lra.
  replace ((120 + 120) * 0.65) with 156 by lra.
  replace (- (540 - 550) + 0.001) with 10.001 by lra.
  f_equal; lra.
Qed.

Lemma moveB_vy (t e : R) (o : Bubble) :
  x o = 72 -> r o = 120 -> y o = 400 + e -> -1 < e < 1 ->
  vy (move stillNoise pairProps 144 1000 72 540 0 0.00375 t [o; bubbleB] 1 bubbleB) =
  0.93 * ((6 + e) / 156 * 1.8 - 10 / 10.001 * 0.015 + 0.00375).
Proof.
  intros Hx Hr Hy He. unfold move. rewrite (accelerateB t e o Hx Hr Hy He).
  rewrite limit_slow by (unfold damping; nra).
  cbn [x y r vy set_motion bubbleB fst snd].
  unfold bounce. cbn [fst snd].
  rewrite (Rltb_false (550 + _)) by (unfold damping; lra).
  cbn [fst snd].
  rewrite (Rltb_false _ (550 + _)) by (unfold damping; lra).
  cbn [fst snd]. unfold damping. lra.
Qed.

Lemma vyA_small : -1 < vyA < 0.
Proof. unfold vyA. lra. Qed.

(** In [move] the array is read by the separation force only. *)
Lemma move_reads_separation (noise : R -> R -> R) (P : Props) (w h : Z)
  (tx ty bX bY t : R) (bs1 bs2 : list Bubble) (i : nat) (b : Bubble) :
  separation i b 0 bs1 (0, 0) = separation i b 0 bs2 (0, 0) ->
  move noise P w h tx ty bX bY t bs1 i b = move noise P w h tx ty bX bY t bs2 i b.
Proof. intros H. unfold move, accelerate. rewrite H. reflexivity. Qed.

(** C1, amended. In a frame, the bubble at index [i] moves under forces
    computed from its own state before the frame, from the target and the
    centre-of-mass balance computed before the loop, and, for the separation
    force alone, from the array [seen]: the bubbles before [i] as already
    updated in this frame, the bubbles from [i] on as they were before it. *)
Theorem updatePhysics_reads
  (noise : R -> R -> R) (P : Props) (now t : R) (s : State) (i : nat) (b : Bubble) :
  bubbles s !! i = Some b ->
  let s' := updatePhysics noise P now t s in
  let seen := take i (bubbles s') ++ drop i (bubbles s) in
  let tx := fst (lowestOccupancyTarget now s) in
  let ty := snd (lowestOccupancyTarget now s) in
  let bX := fst (balance s) in
  let bY := snd (balance s) in
  bubbles s' !! i = Some (move noise P (width s) (height s) tx ty bX bY t seen i b) /\
  seen !! i = Some b /\
  (forall j : nat, (j < i)%nat -> seen !! j = bubbles s' !! j) /\
  (forall j : nat, (i <= j)%nat -> seen !! j = bubbles s !! j) /\
  (forall other : list Bubble,
      separation i b 0 other (0, 0) = separation i b 0 seen (0, 0) ->
      move noise P (width s) (height s) tx ty bX bY t other i b =
      move noise P (width s) (height s) tx ty bX bY t seen i b).
Proof.
  intros Hb. cbn zeta.
  pose proof (updatePhysics_length noise P now t s) as Hlen.
  assert (Hi : (i < length (bubbles s))%nat) by (apply lookup_lt_is_Some_1; eauto).
  assert (Htake : length (take i (bubbles (updatePhysics noise P now t s))) = i)
    by (rewrite length_take; lia).
  repeat split.
  - rewrite updatePhysics_loop.
    destruct (loop_prefix noise P (fst (lowestOccupancyTarget now s))
                (snd (lowestOccupancyTarget now s)) (fst (balance s)) (snd (balance s)) t
                s (length (bubbles s)) (le_n _)) as (_ & _ & _ & _ & Hdone).
    exact (Hdone i b Hi Hb).
  - rewrite lookup_app_r by lia. rewrite Htake, Nat.sub_diag, lookup_drop, Nat.add_0_r.
    exact Hb.
  - intros j Hj. rewrite lookup_app_l by lia. apply lookup_take_lt. exact Hj.
  - intros j Hj. rewrite lookup_app_r by lia. rewrite Htake, lookup_drop. f_equal. lia.
  - intros other Hsep. apply move_reads_separation. exact Hsep.
Qed.

Lemma updatePhysics_reads_witness :
  bubbles (updatePhysics stillNoise pairProps 0 16 pairState) !! 1%nat =
  Some (move stillNoise pairProps 144 1000
          (fst (lowestOccupancyTarget 0 pairState)) (snd (lowestOccupancyTarget 0 pairState))
          (fst (balance pairState)) (snd (balance pairState)) 16
          (take 1 (bubbles (updatePhysics stillNoise pairProps 0 16 pairState)) ++ [bubbleB])
          1 bubbleB).
Proof.
  exact (proj1 (updatePhysics_reads stillNoise pairProps 0 16 pairState 1 bubbleB eq_refl)).
Defined.

(** C1, as stated, fails on [pairState]: the first bubble has moved when
    the second one is visited, and the separation force on the second is
    computed from the moved position, so the pool after the frame is not the
    one obtained from the positions at the start of the frame. *)
Lemma updatePhysics_is_not_snapshotUpdate :
  bubbles (updatePhysics stillNoise pairProps 0 16 pairState) <>
  snapshotUpdate stillNoise pairProps 0 16 pairState.
Proof.
  intros Heq.
  assert (H1 : bubbles (updatePhysics stillNoise pairProps 0 16 pairState) !! 1%nat =
               snapshotUpdate stillNoise pairProps 0 16 pairState !! 1%nat)
    by (rewrite Heq; reflexivity).
  clear Heq. revert H1.
  unfold snapshotUpdate. rewrite updatePhysics_loop, pairState_target, pairState_balance.
  cbn [fst snd bubbles pairState length imap lookup list_lookup width height].
  destruct (loop_prefix stillNoise pairProps 72 540 0 0.00375 16 pairState 2 (le_n 2))
    as (_ & _ & _ & _ & Hdone).
  pose proof (Hdone 0%nat bubbleA ltac:(lia) eq_refl) as H0.
  pose proof (Hdone 1%nat bubbleB ltac:(lia) eq_refl) as H1.
  clear Hdone.
  set (bs' := bubbles (foldl (visit stillNoise pairProps 72 540 0 0.00375 16) pairState
                         (seq 0 2))) in *.
  rewrite (take_S_r bs' 0 _ H0) in H1.
  rewrite !take_0 in H0, H1. cbn [drop app bubbles pairState width height] in H0, H1.
  rewrite H1. intros E.
  apply (f_equal (from_option vy 0)) in E. cbn [from_option] in E.
  unfold compose in E.
  destruct (moveA 16) as (Ax & Ay & Ar).
  rewrite (moveB_vy 16 vyA _ Ax Ar Ay) in E by (pose proof vyA_small; lra).
  rewrite (moveB_vy 16 0 bubbleA) in E by (cbn; lra).
  pose proof vyA_small. lra.
Qed.

End PhysicsFacts.

(** ** Placement *)

Section PlacementFacts.

Import Sim.
Local Open Scope R_scope.

Variable Rng : Type.
Variable rand : R -> R -> Rng -> R * Rng.
Variable tint : string -> R -> string.
Variable rgbToHslTuple : string -> option (R * R * R).
Variable P : Props.
Variables w h : Z.

Lemma returns_ret {A : Type} (a : A) (Q : A -> Prop) : Q a -> returns Rng (ret Rng a) Q.
Proof. intros Ha g. exists a, g. split; [reflexivity|exact Ha]. Qed.

Lemma returns_bind {A B : Type} (c : M Rng A) (k : A -> M Rng B)
  (Q : A -> Prop) (Q' : B -> Prop) :
  returns Rng c Q -> (forall a, Q a -> returns Rng (k a) Q') -> returns Rng (bind Rng c k) Q'.
Proof.
  intros Hc Hk g. destruct (Hc g) as (a & g1 & E & Ha).
  destruct (Hk a Ha g1) as (b & g2 & E' & Hb).
  exists b, g2. unfold bind. rewrite E. split; assumption.
Qed.

Lemma returns_random (lo hi : R) : returns Rng (random Rng rand lo hi) (fun _ => True).
Proof.
  intros g. exists (fst (rand lo hi g)), (snd (rand lo hi g)).
  unfold random. rewrite <- surjective_pairing. split; [reflexivity|exact I].
Qed.

Lemma newBubble_returns (r0 x0 y0 : R) (index : nat) :
  colors P <> [] ->
  returns Rng (newBubble Rng rand tint rgbToHslTuple P r0 x0 y0 index)
          (fun b => x b = x0 /\ y b = y0 /\ r b = r0).
Proof.
  intros Hcolors. unfold newBubble.
  destruct (lookup_lt_is_Some_2 (colors P) (index mod length (colors P))) as [c Hc].
  { apply Nat.mod_upper_bound. destruct (colors P); [contradiction|cbn; lia]. }
  rewrite Hc.
  repeat (eapply returns_bind; [apply returns_random|intros ? _]).
  apply returns_ret. cbn. repeat split.
Qed.

Lemma hypot_swap (a b c d : R) : hypot (a - b) (c - d) = hypot (b - a) (d - c).
Proof. unfold hypot. f_equal. ring. Qed.

Lemma ok_far (r0 x0 y0 : R) (bs : list Bubble) (i : nat) (b : Bubble) :
  ok P r0 x0 y0 bs = true -> bs !! i = Some b ->
  Rmax ((r b + r0) * 0.6) (minDist P) <= hypot (x b - x0) (y b - y0).
Proof.
  intros Hok Hb. unfold ok in Hok.
  rewrite forallb_forall in Hok.
  assert (Hin : In b bs) by (apply list_elem_of_In, list_elem_of_lookup; eauto).
  specialize (Hok b Hin). unfold tooClose, Rltb in Hok.
  destruct (Rlt_dec (hypot (x b - x0) (y b - y0)) ((r b + r0) * 0.6)) as [H1|H1];
    [discriminate|].
  destruct (Rlt_dec (hypot (x b - x0) (y b - y0)) (minDist P)) as [H2|H2];
    [discriminate|].
  apply Rmax_lub; lra.
Qed.

Lemma spaced_snoc (bs : list Bubble) (b : Bubble) :
  spaced P bs -> ok P (r b) (x b) (y b) bs = true -> spaced P (bs ++ [b]).
Proof.
  intros Hs Hok i j bi bj Hne Hi Hj.
  apply lookup_snoc_Some in Hi. apply lookup_snoc_Some in Hj.
  destruct Hi as [[Hil Hi]|[Hil <-]], Hj as [[Hjl Hj]|[Hjl <-]].
  - exact (Hs i j bi bj Hne Hi Hj).
  - exact (ok_far _ _ _ bs i bi Hok Hi).
  - rewrite hypot_swap, (Rplus_comm (r b)). exact (ok_far _ _ _ bs j bj Hok Hj).
  - lia.
Qed.

Lemma place_returns (left : nat) (bs : list Bubble) :
  colors P <> [] -> placed P bs ->
  returns Rng (place Rng rand tint rgbToHslTuple P w h left bs) (placed P).
Proof.
  intros Hcolors. revert bs. induction left as [|left IH]; intros bs Hbs; cbn [place].
  - apply returns_ret. exact Hbs.
  - destruct (Nat.ltb_spec (length bs) (count P)) as [Hlt|Hge].
    + eapply returns_bind; [apply returns_random|intros r0 _].
      eapply returns_bind; [apply returns_random|intros x0 _].
      eapply returns_bind; [apply returns_random|intros y0 _].
      destruct (ok P r0 x0 y0 bs) eqn:Hok.
      * eapply returns_bind; [apply (newBubble_returns r0 x0 y0 _ Hcolors)|].
        intros b (Hx & Hy & Hr). apply IH. destruct Hbs as [_ Hs]. split.
        -- rewrite length_app. cbn. lia.
        -- apply spaced_snoc; [exact Hs|]. rewrite Hx, Hy, Hr. exact Hok.
      * apply IH. exact Hbs.
    + apply returns_ret. exact Hbs.
Qed.

Lemma ensures_ret {A : Type} (a : A) (Q : A -> Prop) : Q a -> ensures Rng (ret Rng a) Q.
Proof. intros Ha g a' g' E. unfold ret in E. congruence. Qed.

Lemma ensures_throw {A : Type} (Q : A -> Prop) : ensures Rng (throw Rng) Q.
Proof. intros g a g' E. discriminate E. Qed.

Lemma ensures_bind {A B : Type} (c : M Rng A) (k : A -> M Rng B)
  (Q : A -> Prop) (Q' : B -> Prop) :
  ensures Rng c Q -> (forall a, Q a -> ensures Rng (k a) Q') -> ensures Rng (bind Rng c k) Q'.
Proof.
  intros Hc Hk g b g2 E. unfold bind in E.
  destruct (c g) as [[a g1]|] eqn:Ec; [|discriminate].
  exact (Hk a (Hc g a g1 Ec) g1 b g2 E).
Qed.

Lemma ensures_random (lo hi : R) : ensures Rng (random Rng rand lo hi) (fun _ => True).
Proof. intros g a g' _. exact I. Qed.

Lemma newBubble_ensures (r0 x0 y0 : R) (index : nat) :
  ensures Rng (newBubble Rng rand tint rgbToHslTuple P r0 x0 y0 index)
          (fun b => x b = x0 /\ y b = y0 /\ r b = r0).
Proof.
  unfold newBubble.
  eapply ensures_bind; [apply ensures_random|intros factor _].
  destruct (colors P !! (index mod length (colors P))%nat) as [c|]; [|apply ensures_throw].
  repeat (eapply ensures_bind; [apply ensures_random|intros ? _]).
  apply ensures_ret. cbn. repeat split.
Qed.

Lemma place_ensures (left : nat) (bs : list Bubble) :
  placed P bs -> ensures Rng (place Rng rand tint rgbToHslTuple P w h left bs) (placed P).
Proof.
  revert bs. induction left as [|left IH]; intros bs Hbs; cbn [place].
  - apply ensures_ret. exact Hbs.
  - destruct (Nat.ltb_spec (length bs) (count P)) as [Hlt|Hge].
    + eapply ensures_bind; [apply ensures_random|intros r0 _].
      eapply ensures_bind; [apply ensures_random|intros x0 _].
      eapply ensures_bind; [apply ensures_random|intros y0 _].
      destruct (ok P r0 x0 y0 bs) eqn:Hok.
      * eapply ensures_bind; [apply (newBubble_ensures r0 x0 y0)|].
        intros b (Hx & Hy & Hr). apply IH. destruct Hbs as [_ Hs]. split.
        -- rewrite length_app. cbn. lia.
        -- apply spaced_snoc; [exact Hs|]. rewrite Hx, Hy, Hr. exact Hok.
      * apply IH. exact Hbs.
    + apply ensures_ret. exact Hbs.
Qed.

Lemma placed_nil : placed P [].
Proof.
  split; [cbn; lia|]. intros i j bi bj _ Hi. rewrite lookup_nil in Hi. discriminate.
Qed.

Lemma placement_ensures :
  ensures Rng (placement Rng rand tint rgbToHslTuple P w h) (placed P).
Proof. unfold placement. apply place_ensures. apply placed_nil. Qed.

Lemma placement_returns :
  colors P <> [] -> returns Rng (placement Rng rand tint rgbToHslTuple P w h) (placed P).
Proof. intros Hcolors. unfold placement. apply place_returns; [exact Hcolors|apply placed_nil]. Qed.

End PlacementFacts.

(** C5. When the placement loop has finished, whatever the random source
    gave, the pool holds at most [count] bubbles and the centres of any two
    of them are at least [max((r_i + r_j) * 0.6, max(minRadius * 0.7, 120))]
    apart; and the loop does finish when the palette is not empty. *)
Theorem placement_spacing
  (Rng : Type) (rand : R -> R -> Rng -> R * Rng) (tint : string -> R -> string)
  (rgbToHslTuple : string -> option (R * R * R)) (P : Sim.Props) (w h : Z) (g : Rng) :
  (forall (pool : list Sim.Bubble) (g' : Rng),
     Sim.placement Rng rand tint rgbToHslTuple P w h g = Some (pool, g') ->
     (length pool <= Sim.count P)%nat /\
     forall (i j : nat) (bi bj : Sim.Bubble),
       i <> j -> pool !! i = Some bi -> pool !! j = Some bj ->
       (Rmax ((Sim.r bi + Sim.r bj) * 0.6) (Rmax (Sim.minRadius P * 0.7) 120)
        <= Sim.hypot (Sim.x bi - Sim.x bj) (Sim.y bi - Sim.y bj))%R) /\
  (Sim.colors P <> [] ->
   exists (pool : list Sim.Bubble) (g' : Rng),
     Sim.placement Rng rand tint rgbToHslTuple P w h g = Some (pool, g')).
Proof.
  split.
  - intros pool g' E.
    exact (placement_ensures Rng rand tint rgbToHslTuple P w h g pool g' E).
  - intros Hcolors.
    destruct (placement_returns Rng rand tint rgbToHslTuple P w h Hcolors g)
      as (pool & g' & E & _).
    exists pool, g'. exact E.
Qed.

(** *** A run of the loop *)

Section PlacementRun.

Import Sim Scenario.
Local Open Scope R_scope.

Lemma place_step (Rng : Type) rand tint hsl P w h (left : nat) (bs : list Bubble) :
  place Rng rand tint hsl P w h (S left) bs =
  if (length bs <? count P)%nat then
    bind Rng (random Rng rand (minRadius P) (maxRadius P)) (fun r0 =>
    bind Rng (random Rng rand (r0 * 0.6) (IZR w - r0 * 0.6)) (fun x0 =>
    bind Rng (random Rng rand (r0 * 0.6) (IZR h - r0 * 0.6)) (fun y0 =>
    if ok P r0 x0 y0 bs then
      bind Rng (newBubble Rng rand tint hsl P r0 x0 y0 (length bs))
           (fun b => place Rng rand tint hsl P w h left (bs ++ [b]))
    else place Rng rand tint hsl P w h left bs)))
  else ret Rng bs.
Proof. reflexivity. Qed.

Lemma newBubble_script (P : Props) (r0 x0 y0 : R) (index : nat) (c : string)
  (f ha hp hj ra rp vx0 vy0 j bl an asp np : R) (rest : list R) :
  colors P !! (index mod length (colors P))%nat = Some c ->
  newBubble (list R) scriptRand plainTint noHsl P r0 x0 y0 index
    (f :: ha :: hp :: hj :: ra :: rp :: vx0 :: vy0 :: j :: bl :: an :: asp :: np :: rest) =
  Some (mkBubble x0 y0 r0 r0 (r0 * ra) rp 70 60 200 hj ha hp c vx0 vy0 j bl an asp np x0 y0,
        rest).
Proof. intros H. unfold newBubble, bind, random. cbn [scriptRand]. rewrite H. reflexivity. Qed.

(** The pool of [pairState] is what the placement loop returns on a
    144 x 1000 canvas when two bubbles are requested and the random source
    reads [pairScript]. *)
Lemma pairState_is_placed :
  placement (list R) scriptRand plainTint noHsl pairProps 144 1000 pairScript =
  Some (bubbles pairState, []).
Proof.
  unfold placement, maxTries.
  rewrite place_step.
  cbn [length Nat.ltb Nat.leb count pairProps].
  unfold bind at 1. unfold random at 1. unfold pairScript. cbn [scriptRand].
  unfold bind at 1. unfold random at 1. cbn [scriptRand].
  unfold bind at 1. unfold random at 1. cbn [scriptRand].
  unfold ok at 1. cbn [forallb].
  unfold bind at 1. rewrite (newBubble_script pairProps _ _ _ 0 "#ff8800") by reflexivity.
  cbn [app]. fold bubbleA.
  rewrite place_step.
  cbn [length Nat.ltb Nat.leb count pairProps].
  unfold bind at 1. unfold random at 1. cbn [scriptRand].
  unfold bind at 1. unfold random at 1. cbn [scriptRand].
  unfold bind at 1. unfold random at 1. cbn [scriptRand].
  assert (Hok : ok pairProps 120 72 550 [bubbleA] = true).
  { unfold ok, tooClose, minDist. cbn [forallb x y r bubbleA minRadius pairProps].
    replace (72 - 72) with 0 by lra. rewrite hypot_0_l, Rabs_left by lra.
    rewrite Rmax_right by lra.
    rewrite !Rltb_false by lra. reflexivity. }
  rewrite Hok.
  unfold bind at 1. rewrite (newBubble_script pairProps _ _ _ 1 "#0088ff") by reflexivity.
  cbn [app]. fold bubbleB.
  rewrite place_step.
  cbn [length Nat.ltb Nat.leb count pairProps]. reflexivity.
Qed.

End PlacementRun.

(** ** The likes route *)

Section LikesFacts.

Import Likes.

Variable fails : Call -> bool.
Variable today : nat.

Ltac crunch Hpend Hev :=
  repeat (first
    [ progress (unfold catch, bind, finally, transaction, cleanup, call, ret, setCommitted,
                  readOnly, view, rollback, beginTransaction, commit, write)
    | progress (cbn [db committed calls fst snd app stored pending default status body])
    | progress (rewrite ?Hpend, ?Hev)
    | match goal with
      | F : fails ?c = _ |- context [fails ?c] => rewrite F
      end
    | match goal with
      | |- context [if fails ?c then _ else _] => destruct (fails c) eqn:?
      end ]).


(** When nothing fails and there is no event yet, both rows are written
    and the answer is 200 with the incremented count. *)
Lemma POST_success (req : Request) (d : Db) (slug : string) :
  parseSlug req = inr slug ->
  pending d = None ->
  (forall c, fails c = false) ->
  hasEvent slug (getClientIp req) today (stored d) = false ->
  let out := POST fails today req d in
  snd out = respond 200 (CountBody (S (countOf slug (stored d)))) /\
  db (fst out) =
    mkDb (upsertLike slug (insertEvent slug (getClientIp req) today (stored d))) None.
Proof.
  intros Hslug Hpend Hall Hev. cbn zeta. unfold POST. rewrite Hslug.
  pose proof (Hall EnsureLikesTable). pose proof (Hall GetConnection).
  pose proof (Hall SelectLimited). pose proof (Hall BeginTransaction).
  pose proof (Hall InsertEvent). pose proof (Hall UpsertLike).
  pose proof (Hall SelectCount). pose proof (Hall Commit). pose proof (Hall Release).
  crunch Hpend Hev.
  split; [|reflexivity]. do 2 f_equal.
  unfold countOf, upsertLike, Datatypes.id. cbn [blog_likes insertEvent].
  rewrite lookup_insert_eq. destruct (blog_likes (stored d) !! slug); reflexivity.
Qed.



End LikesFacts.



(** ** More on the occupancy grid *)

Section StampFacts.

Import Sim Measure.
Local Open Scope R_scope.

Lemma grows_refl (g : list R) : grows g g.
Proof. split; [reflexivity|]. intros k weight Hk. exists weight. split; [exact Hk|lra]. Qed.

Lemma grows_trans (g1 g2 g3 : list R) : grows g1 g2 -> grows g2 g3 -> grows g1 g3.
Proof.
  intros [L12 H12] [L23 H23]. split; [congruence|].
  intros k w1 Hk. destruct (H12 k w1 Hk) as (w2 & Hk2 & Hle).
  destruct (H23 k w2 Hk2) as (w3 & Hk3 & Hle'). exists w3. split; [exact Hk3|lra].
Qed.

Lemma stampCell_grows (cols rows cy cx : Z) (g : list R) :
  grows g (stampCell cols rows cy g cx).
Proof.
  unfold stampCell.
  destruct ((cx <? 0)%Z || (cy <? 0)%Z || (cx >=? cols)%Z || (cy >=? rows)%Z);
    [apply grows_refl|].
  split; [apply length_alter|].
  intros k weight Hk. rewrite list_lookup_alter. case_decide as E.
  - rewrite E, Hk. cbn. eexists. split; [reflexivity|lra].
  - exists weight. split; [exact Hk|lra].
Qed.

Lemma foldl_grows {A : Type} (f : list R -> A -> list R) (l : list A) (g : list R) :
  (forall g a, grows g (f g a)) -> grows g (foldl f g l).
Proof.
  intros Hf. revert g. induction l as [|a l IH]; intros g; cbn [foldl].
  - apply grows_refl.
  - eapply grows_trans; [apply Hf|apply IH].
Qed.

Lemma stampCells_grows (cols rows : Z) (x0 y0 r0 : R) (g : list R) :
  grows g (stampCells cols rows x0 y0 r0 g).
Proof.
  unfold stampCells. apply foldl_grows. intros g1 cy.
  apply foldl_grows. intros g2 cx. apply stampCell_grows.
Qed.

Lemma stampCell_lookup (cols rows cx cy cx' cy' : Z) (g : list R) :
  (0 <= cx < cols)%Z -> (0 <= cy < rows)%Z ->
  stampCell cols rows cy' g cx' !! cellIndex cols cx cy =
  if bool_decide (cx' = cx /\ cy' = cy) then bump <$> g !! cellIndex cols cx cy
  else g !! cellIndex cols cx cy.
Proof.
  intros Hcx Hcy. unfold stampCell, cellIndex.
  destruct (Z.ltb_spec cx' 0); cbn [orb]; [case_bool_decide; [lia|reflexivity]|].
  destruct (Z.ltb_spec cy' 0); cbn [orb]; [case_bool_decide; [lia|reflexivity]|].
  destruct (Z.geb_spec cx' cols); cbn [orb]; [case_bool_decide; [lia|reflexivity]|].
  destruct (Z.geb_spec cy' rows); cbn [orb]; [case_bool_decide; [lia|reflexivity]|].
  rewrite list_lookup_alter. case_bool_decide as E.
  - destruct E as [-> ->]. rewrite decide_True by reflexivity. reflexivity.
  - rewrite decide_False; [reflexivity|]. intros Heq. apply E.
    assert (Hz : (cols * cy' + cx' = cols * cy + cx)%Z) by nia.
    destruct (Z.div_mod_unique cols cy' cy cx' cx) as [-> ->]; [lia|lia|exact Hz|].
    split; reflexivity.
Qed.

Lemma zrangeFrom_S (lo : Z) (n : nat) :
  zrangeFrom lo (S n) = zrangeFrom lo n ++ [(lo + Z.of_nat n)%Z].
Proof. unfold zrangeFrom. rewrite seq_S, map_app. reflexivity. Qed.

Lemma stampRow_lookup (cols rows cx cy cy' lo : Z) (n : nat) (g : list R) :
  (0 <= cx < cols)%Z -> (0 <= cy < rows)%Z ->
  foldl (stampCell cols rows cy') g (zrangeFrom lo n) !! cellIndex cols cx cy =
  if bool_decide (cy' = cy /\ (lo <= cx < lo + Z.of_nat n)%Z)
  then bump <$> g !! cellIndex cols cx cy
  else g !! cellIndex cols cx cy.
Proof.
  intros Hcx Hcy. induction n as [|n IH].
  - cbn. case_bool_decide; [lia|reflexivity].
  - rewrite zrangeFrom_S, foldl_app. cbn [foldl].
    rewrite (stampCell_lookup cols rows cx cy) by assumption. rewrite IH.
    repeat case_bool_decide; try reflexivity; lia.
Qed.

Lemma stampRows_lookup (cols rows cx cy lo lo' : Z) (n m : nat) (g : list R) :
  (0 <= cx < cols)%Z -> (0 <= cy < rows)%Z ->
  foldl (fun g cy' => foldl (stampCell cols rows cy') g (zrangeFrom lo n)) g
        (zrangeFrom lo' m) !! cellIndex cols cx cy =
  if bool_decide ((lo' <= cy < lo' + Z.of_nat m)%Z /\ (lo <= cx < lo + Z.of_nat n)%Z)
  then bump <$> g !! cellIndex cols cx cy
  else g !! cellIndex cols cx cy.
Proof.
  intros Hcx Hcy. induction m as [|m IH].
  - cbn. case_bool_decide; [lia|reflexivity].
  - rewrite zrangeFrom_S, foldl_app. cbn [foldl].
    rewrite (stampRow_lookup cols rows cx cy) by assumption. rewrite IH.
    repeat case_bool_decide; try reflexivity; lia.
Qed.

Lemma floor_le (a : R) (k : Z) : (floor a <= k)%Z <-> a < IZR k + 1.
Proof.
  unfold floor. destruct (base_Int_part a) as [H1 H2]. split.
  - intros H. apply IZR_le in H. lra.
  - intros H. assert (IZR (Int_part a) < IZR (k + 1)) by (rewrite plus_IZR; lra).
    apply lt_IZR in H0. lia.
Qed.

Lemma le_floor (a : R) (k : Z) : (k <= floor a)%Z <-> IZR k <= a.
Proof.
  unfold floor. destruct (base_Int_part a) as [H1 H2]. split.
  - intros H. apply IZR_le in H. lra.
  - intros H. assert (IZR k < IZR (Int_part a + 1)) by (rewrite plus_IZR; lra).
    apply lt_IZR in H0. lia.
Qed.

(** X1. A stamp adds 0.35 to exactly the cells of the grid that meet the
    bounding box of the bubble, and leaves every other cell as it was. *)
Theorem stampOccupancy_cell (x0 y0 r0 : R) (s : State) (cx cy : Z) :
  (0 <= cx < gridCols s)%Z -> (0 <= cy < gridRows s)%Z ->
  let k := cellIndex (gridCols s) cx cy in
  (covered x0 y0 r0 cx cy ->
   grid (stampOccupancy x0 y0 r0 s) !! k = (fun weight => weight + 0.35) <$> grid s !! k) /\
  (~ covered x0 y0 r0 cx cy -> grid (stampOccupancy x0 y0 r0 s) !! k = grid s !! k).
Proof.
  intros Hcx Hcy. cbn zeta. unfold stampOccupancy. cbn [grid set_grid].
  unfold stampCells, zrange. fold (zrangeFrom (floor ((x0 - r0) / IZR gridCell))
    (Z.to_nat (floor ((x0 + r0) / IZR gridCell) - floor ((x0 - r0) / IZR gridCell) + 1))).
  fold (zrangeFrom (floor ((y0 - r0) / IZR gridCell))
    (Z.to_nat (floor ((y0 + r0) / IZR gridCell) - floor ((y0 - r0) / IZR gridCell) + 1))).
  rewrite (stampRows_lookup (gridCols s) (gridRows s) cx cy) by assumption.
  assert (Hiff : ((floor ((y0 - r0) / IZR gridCell) <= cy <
                   floor ((y0 - r0) / IZR gridCell) +
                   Z.of_nat (Z.to_nat (floor ((y0 + r0) / IZR gridCell) -
                                       floor ((y0 - r0) / IZR gridCell) + 1)))%Z /\
                  (floor ((x0 - r0) / IZR gridCell) <= cx <
                   floor ((x0 - r0) / IZR gridCell) +
                   Z.of_nat (Z.to_nat (floor ((x0 + r0) / IZR gridCell) -
                                       floor ((x0 - r0) / IZR gridCell) + 1)))%Z)
                 <-> covered x0 y0 r0 cx cy).
  { unfold covered.
    pose proof (floor_le ((x0 - r0) / IZR gridCell) cx) as A1.
    pose proof (le_floor ((x0 + r0) / IZR gridCell) cx) as A2.
    pose proof (floor_le ((y0 - r0) / IZR gridCell) cy) as B1.
    pose proof (le_floor ((y0 + r0) / IZR gridCell) cy) as B2.
    unfold gridCell in *.
    assert (E1 : (x0 - r0) / 100 < IZR cx + 1 <-> x0 - r0 < 100 * (IZR cx + 1)) by (split; lra).
    assert (E2 : IZR cx <= (x0 + r0) / 100 <-> 100 * IZR cx <= x0 + r0) by (split; lra).
    assert (E3 : (y0 - r0) / 100 < IZR cy + 1 <-> y0 - r0 < 100 * (IZR cy + 1)) by (split; lra).
    assert (E4 : IZR cy <= (y0 + r0) / 100 <-> 100 * IZR cy <= y0 + r0) by (split; lra).
    split.
    - intros [Hy Hx]. repeat split.
      + apply E2, A2. lia.
      + apply E1, A1. lia.
      + apply E4, B2. lia.
      + apply E3, B1. lia.
    - intros [[H1 H2] [H3 H4]].
      apply E2, A2 in H1. apply E1, A1 in H2. apply E4, B2 in H3. apply E3, B1 in H4.
      lia. }
  split; intros Hc.
  - rewrite bool_decide_eq_true_2 by (apply Hiff; exact Hc). reflexivity.
  - rewrite bool_decide_eq_false_2 by (rewrite Hiff; exact Hc). reflexivity.
Qed.

End StampFacts.

Lemma stampOccupancy_cell_witness :
  let k := Measure.cellIndex 8 1 1 in
  (Measure.covered 150 150 10 1 1 ->
   Sim.grid (Sim.stampOccupancy 150 150 10 Scenario.freshState) !! k =
   (fun weight => weight + 0.35)%R <$> Sim.grid Scenario.freshState !! k) /\
  (~ Measure.covered 150 150 10 1 1 ->
   Sim.grid (Sim.stampOccupancy 150 150 10 Scenario.freshState) !! k =
   Sim.grid Scenario.freshState !! k).
Proof.
  apply (stampOccupancy_cell 150 150 10 Scenario.freshState 1 1); cbn; lia.
Defined.

(** ** What the physics step leaves alone *)

Section FrameFacts.
Import Sim Measure.
Local Open Scope R_scope.

Lemma sameFrame_refl (s : State) : sameFrame s s.
Proof. repeat split. Qed.

Lemma sameFrame_trans (s1 s2 s3 : State) : sameFrame s1 s2 -> sameFrame s2 s3 -> sameFrame s1 s3.
Proof. unfold sameFrame. intuition congruence. Qed.

Variable noise : R -> R -> R.
Variable P : Props.

Lemma visit_rest (tx ty bX bY t : R) (s : State) (i : nat) :
  sameFrame s (visit noise P tx ty bX bY t s i) /\
  grows (grid s) (grid (visit noise P tx ty bX bY t s i)).
Proof.
  unfold visit. destruct (bubbles s !! i) as [b|]; [|split; [apply sameFrame_refl|apply grows_refl]].
  split; [repeat split|]. cbn [grid stampOccupancy set_grid set_bubbles gridCols gridRows].
  apply stampCells_grows.
Qed.

Lemma loop_rest (tx ty bX bY t : R) (l : list nat) (s : State) :
  sameFrame s (foldl (visit noise P tx ty bX bY t) s l) /\
  grows (grid s) (grid (foldl (visit noise P tx ty bX bY t) s l)).
Proof.
  revert s. induction l as [|i l IH]; intros s; cbn [foldl].
  - split; [apply sameFrame_refl|apply grows_refl].
  - destruct (visit_rest tx ty bX bY t s i) as [H1 H2].
    destruct (IH (visit noise P tx ty bX bY t s i)) as [H3 H4].
    split; [eapply sameFrame_trans|eapply grows_trans]; eassumption.
Qed.

Lemma updatePhysics_rest (now t : R) (s : State) :
  sameFrame s (updatePhysics noise P now t s) /\
  grows (grid s) (grid (updatePhysics noise P now t s)).
Proof. rewrite updatePhysics_loop. apply loop_rest. Qed.

(** X2. [updatePhysics] changes the bubbles and the grid cells only, and
    no weight of the grid goes down. *)
Theorem updatePhysics_frame (now t : R) (s : State) :
  sameFrame s (updatePhysics noise P now t s) /\
  grows (grid s) (grid (updatePhysics noise P now t s)).
Proof. apply updatePhysics_rest. Qed.

Lemma updatePhysics_motion_only (now t : R) (s : State) :
  Forall2 (fun b b' => b' = set_motion b (x b') (y b') (vx b') (vy b'))
          (bubbles s) (bubbles (updatePhysics noise P now t s)).
Proof.
  apply Forall2_same_length_lookup_2.
  - symmetry. apply updatePhysics_length.
  - intros i b b' Hb Hb'.
    assert (Hi : (i < length (bubbles s))%nat) by (apply lookup_lt_is_Some_1; eauto).
    rewrite updatePhysics_loop in Hb'.
    destruct (loop_prefix noise P (fst (lowestOccupancyTarget now s))
                (snd (lowestOccupancyTarget now s)) (fst (balance s)) (snd (balance s)) t
                s (length (bubbles s)) (le_n _)) as (_ & _ & _ & _ & Hdone).
    rewrite (Hdone i b Hi Hb) in Hb'. injection Hb' as <-. reflexivity.
Qed.

(** X3. Of a bubble, [updatePhysics] changes the position and the
    velocity only: the pool keeps its bubbles, in their order. *)
Theorem updatePhysics_keeps_bubbles (now t : R) (s : State) :
  Forall2 (fun b b' => b' = set_motion b (x b') (y b') (vx b') (vy b'))
          (bubbles s) (bubbles (updatePhysics noise P now t s)).
Proof. apply updatePhysics_motion_only. Qed.

End FrameFacts.

(** ** The forces one by one *)

Section Forces.
Import Sim Measure.
Local Open Scope R_scope.

(** X4. No push from bubbles that are out of range, or closer than the
    threshold under which the direction is not computed. *)
Theorem separation_out_of_range (i : nat) (b : Bubble) (os : list Bubble) (j : nat)
  (acc : R * R) :
  (forall (k : nat) (o : Bubble), os !! k = Some o -> (j + k)%nat <> i ->
     range b o * range b o <= dist2 b o \/ dist2 b o <= 0.001) ->
  separation i b j os acc = acc.
Proof.
  revert j acc. induction os as [|o os IH]; intros j acc Hfar; cbn [separation].
  - reflexivity.
  - rewrite IH.
    + destruct (Nat.eqb_spec j i) as [E|E]; [reflexivity|].
      destruct (Hfar 0%nat o eq_refl ltac:(lia)) as [H|H]; unfold dist2, range in H.
      * rewrite Rltb_false by exact H. reflexivity.
      * rewrite (Rltb_false 0.001) by exact H. rewrite andb_false_r. reflexivity.
    + intros k o' Hk Hne. apply (Hfar (S k) o' Hk). lia.
Qed.

(** X5. In a pool of two, the pushes on the two bubbles are opposite. *)
Theorem separation_opposite (a b : Bubble) :
  separation 1 b 0 [a; b] (0, 0) =
  (- fst (separation 0 a 0 [a; b] (0, 0)), - snd (separation 0 a 0 [a; b] (0, 0))).
Proof.
  cbn [separation Nat.eqb fst snd].
  replace ((x b - x a) * (x b - x a) + (y b - y a) * (y b - y a))
    with ((x a - x b) * (x a - x b) + (y a - y b) * (y a - y b)) by ring.
  replace ((r b + r a) * 0.65) with ((r a + r b) * 0.65) by ring.
  set (d2 := (x a - x b) * (x a - x b) + (y a - y b) * (y a - y b)).
  set (minD := (r a + r b) * 0.65).
  destruct (Rltb d2 (minD * minD) && Rltb 0.001 d2); cbn [fst snd].
  - f_equal; unfold Rdiv; ring.
  - f_equal; ring.
Qed.

(** X6. Damping and the speed limit scale the velocity by one positive factor,
    at most the damping: the direction is kept. *)
Theorem limit_keeps_direction (v : R * R) :
  exists k : R, 0 < k <= damping /\ limit v = (k * fst v, k * snd v).
Proof.
  unfold limit, Rltb, maxVel, damping.
  destruct (Rlt_dec 4 (hypot (fst v * 0.93) (snd v * 0.93))) as [Hgt|Hle].
  - set (vel := hypot (fst v * 0.93) (snd v * 0.93)) in *.
    exists (0.93 / vel * 4). split.
    + split.
      * apply Rmult_lt_0_compat; [|lra]. apply Rdiv_lt_0_compat; lra.
      * assert (H : 0.93 / vel * 4 = 0.93 * (4 / vel)) by (field; lra).
        rewrite H. assert (4 / vel < 1).
        { unfold Rdiv. apply (Rmult_lt_reg_r vel); [lra|]. rewrite Rmult_assoc, Rinv_l by lra. lra. }
        assert (0 < 4 / vel) by (apply Rdiv_lt_0_compat; lra). nra.
    + f_equal; field; lra.
  - exists 0.93. split; [lra|]. f_equal; ring.
Qed.

(** X7. The bounce on one axis, the padded range not being empty: a position
    inside the range is left alone with its velocity; below the range it is put
    on the lower bound with a velocity pointing up and 15 % smaller; above, on
    the upper bound with a velocity pointing down. *)
Theorem bounce_cases (dim pad p v : R) :
  pad <= dim - pad ->
  (pad <= p <= dim - pad -> bounce dim pad (p, v) = (p, v)) /\
  (p < pad -> bounce dim pad (p, v) = (pad, Rabs v * 0.85)) /\
  (dim - pad < p -> bounce dim pad (p, v) = (dim - pad, - Rabs v * 0.85)).
Proof.
  intros Hpad. unfold bounce. cbn [fst snd]. repeat split.
  - intros Hin. rewrite (Rltb_false p) by lra. cbn [fst]. rewrite Rltb_false by lra. reflexivity.
  - intros Hlow. rewrite (Rltb_true p) by lra. cbn [fst]. rewrite Rltb_false by lra. reflexivity.
  - intros Hhigh. rewrite (Rltb_false p) by lra. cbn [fst snd]. rewrite Rltb_true by lra.
    reflexivity.
Qed.

(** X8. With a padded range that is empty (a bubble wider than the canvas
    allows), the bounce always ends on [dim - pad], the velocity pointing
    down. *)
Theorem bounce_empty_range (dim pad p v : R) :
  dim - pad < pad ->
  fst (bounce dim pad (p, v)) = dim - pad /\ snd (bounce dim pad (p, v)) <= 0.
Proof.
  intros Hpad. unfold bounce, Rltb. cbn [fst snd].
  destruct (Rlt_dec p pad); cbn [fst snd];
    match goal with |- context [Rlt_dec ?u ?w] => destruct (Rlt_dec u w) end;
    cbn [fst snd]; try lra.
  all: split; [reflexivity|]; pose proof (Rabs_pos v); pose proof (Rabs_pos (Rabs v * 0.85)); lra.
Qed.

End Forces.

Lemma separation_out_of_range_witness :
  Sim.separation 0 Scenario.bubbleA 0 [Scenario.bubbleA; Sample.bubbleFar] (0, 0)%R = (0, 0)%R.
Proof.
  apply separation_out_of_range. intros k o Hk Hne.
  destruct k as [|[|k]]; [contradiction Hne; reflexivity| |discriminate Hk].
  injection Hk as <-. left. unfold Measure.range, Measure.dist2. cbn. lra.
Defined.

Lemma bounce_cases_witness :
  ((72 <= 50 <= 800 - 72)%R -> Sim.bounce 800 72 (50, -1)%R = (50, -1)%R) /\
  ((50 < 72)%R -> Sim.bounce 800 72 (50, -1)%R = (72, Rabs (-1) * 0.85)%R) /\
  ((800 - 72 < 50)%R -> Sim.bounce 800 72 (50, -1)%R = (800 - 72, - Rabs (-1) * 0.85)%R).
Proof. apply bounce_cases. lra. Defined.

Lemma bounce_empty_range_witness :
  fst (Sim.bounce 100 72 (50, 1)%R) = (100 - 72)%R /\ (snd (Sim.bounce 100 72 (50, 1)%R) <= 0)%R.
Proof. apply bounce_empty_range. lra. Defined.

(** ** Rendering and the frame loop *)

Section Render.
Import Sim Measure.
Local Open Scope R_scope.


Variable P : Props.


(** With a pulse period that is not positive the radius does not pulsate:
    it is the base radius clamped. *)
Lemma rNow_without_period (now : R) (b : Bubble) :
  radiusPulseSeconds P * 1000 * rPeriodFactor b <= 0 ->
  rNow P now b = Rmin (radiusMax P) (Rmax (radiusMin P) (rBase b)).
Proof.
  intros H. unfold rNow. rewrite Rltb_false by exact H.
  rewrite !Rmult_0_l, sin_0, Rmult_0_r, Rplus_0_r. reflexivity.
Qed.

(** The frame interval is positive and at most one second: a target rate
    below one frame per second counts as one. *)
Lemma FRAME_INTERVAL_bounds :
  0 < FRAME_INTERVAL P <= 1000 /\
  (targetFps P <= 1 -> FRAME_INTERVAL P = 1000) /\
  (1 <= targetFps P -> FRAME_INTERVAL P = 1000 / targetFps P).
Proof.
  unfold FRAME_INTERVAL, effectiveFps.
  assert (H1 : 1 <= Rmax 1 (targetFps P)) by apply Rmax_l.
  repeat split.
  - apply Rdiv_lt_0_compat; lra.
  - assert (1000 / Rmax 1 (targetFps P) = 1000 * / Rmax 1 (targetFps P)) by reflexivity.
    assert (/ Rmax 1 (targetFps P) <= 1).
    { apply Rle_trans with (/ 1); [apply Rinv_le_contravar; lra|rewrite Rinv_1; lra]. }
    lra.
  - intros H. rewrite Rmax_left by exact H. lra.
  - intros H. rewrite Rmax_right by exact H. reflexivity.
Qed.

Variable noise : R -> R -> R.

Lemma measureFps_rest (t : R) (s : State) :
  let s' := measureFps P t s in
  width s' = width s /\ height s' = height s /\ canvas s' = canvas s /\
  gridCols s' = gridCols s /\ gridRows s' = gridRows s /\ grid s' = grid s /\
  bubbles s' = bubbles s /\ lastTime s' = lastTime s /\
  accumulatedTime s' = accumulatedTime s /\ rafRequests s' = rafRequests s.
Proof.
  cbn zeta. unfold measureFps. destruct (debugFps P); [|repeat split].
  destruct (Rleb 1000 _); repeat split.
Qed.

(** X10. A tick that renders: the canvas holds exactly one ellipse per bubble,
    those of the pool after the physics step, in pool order; the accumulator
    restarts from 0 whatever it held; the pool keeps its bubbles (their
    position and velocity apart), the grid its shape, and no weight goes
    down. *)
Theorem frame_renders (now : R) (nows : nat -> R) (t : R) (s : State) :
  FRAME_INTERVAL P <= accumulatedTime s + deltaTime t s ->
  let s' := frame noise P false now nows t s in
  painted (canvas s') = imap (fun k b => drawBubble P (nows k) b) (bubbles s') /\
  accumulatedTime s' = 0 /\ lastTime s' = t /\
  Forall2 (fun b b' => b' = set_motion b (x b') (y b') (vx b') (vy b'))
          (bubbles s) (bubbles s') /\
  (width s' = width s /\ height s' = height s /\
   gridCols s' = gridCols s /\ gridRows s' = gridRows s) /\
  grows (grid s) (grid s').
Proof.
  intros Hrun. cbn zeta. unfold frame. fold (deltaTime t s).
  cbn [accumulatedTime set_clock].
  rewrite Rltb_false by exact Hrun.
  set (s3 := clearRect _).
  destruct (updatePhysics_rest noise P now t s3) as [Hsame Hgrid].
  destruct Hsame as (Hw & Hh & Hc & Hgc & Hgr & Hlt & Hacc & _).
  pose proof (updatePhysics_motion_only noise P now t s3) as Hkeep.
  set (s4 := updatePhysics noise P now t s3) in *.
  destruct (measureFps_rest t (draw P nows s4))
    as (Mw & Mh & Mc & Mgc & Mgr & Mg & Mb & Ml & Ma & _).
  cbn zeta in *.
  cbn [canvas painted bubbles accumulatedTime lastTime width height gridCols gridRows grid
       requestAnimationFrame].
  rewrite Mc, Mb, Ma, Ml, Mw, Mh, Mgc, Mgr, Mg.
  cbn [draw canvas painted set_canvas bubbles accumulatedTime lastTime width height gridCols
       gridRows grid].
  rewrite Hc, Hacc, Hlt, Hw, Hh, Hgc, Hgr.
  split; [reflexivity|]. split; [reflexivity|]. split; [reflexivity|].
  split; [exact Hkeep|]. split; [repeat split|exact Hgrid].
Qed.

(** Every tick requests exactly one more animation frame, and leaves the
    size of the canvas, the shape of the grid and the size of the pool as
    they were. *)
Lemma frame_reschedules (hidden : bool) (now : R) (nows : nat -> R) (t : R) (s : State) :
  let s' := frame noise P hidden now nows t s in
  rafRequests s' = S (rafRequests s) /\ animRef s' = S (rafRequests s) /\
  width s' = width s /\ height s' = height s /\
  gridCols s' = gridCols s /\ gridRows s' = gridRows s /\
  length (grid s') = length (grid s) /\
  length (bubbles s') = length (bubbles s).
Proof.
  cbn zeta. unfold frame. destruct hidden; [repeat split|].
  destruct (Rltb _ _); [repeat split|].
  set (s3 := clearRect _).
  destruct (updatePhysics_rest noise P now t s3) as [Hsame [Hlen _]].
  destruct Hsame as (Hw & Hh & Hc & Hgc & Hgr & Hlt & Hacc & _ & _ & _ & _ & Hraf).
  pose proof (updatePhysics_length noise P now t s3) as Hpool.
  set (s4 := updatePhysics noise P now t s3) in *.
  destruct (measureFps_rest t (draw P nows s4))
    as (Mw & Mh & Mc & Mgc & Mgr & Mg & Mb & Ml & Ma & Mr).
  cbn zeta in *.
  cbn [rafRequests animRef width height gridCols gridRows grid bubbles requestAnimationFrame].
  rewrite Mr, Mw, Mh, Mgc, Mgr, Mg, Mb.
  cbn [draw rafRequests set_canvas width height gridCols gridRows grid bubbles].
  rewrite Hraf, Hw, Hh, Hgc, Hgr, Hlen, Hpool. repeat split.
Qed.


End Render.

Lemma frame_renders_witness :
  let s' := Sim.frame Scenario.stillNoise Scenario.defaultProps false 0 (fun _ => 0%R) 1016
              Sample.runningPair in
  (Sim.painted (Sim.canvas s') =
   imap (fun k b => Sim.drawBubble Scenario.defaultProps 0 b) (Sim.bubbles s') /\
   Sim.accumulatedTime s' = 0%R /\ Sim.lastTime s' = 1016%R /\
   Forall2 (fun b b' => b' = Sim.set_motion b (Sim.x b') (Sim.y b') (Sim.vx b') (Sim.vy b'))
           [Scenario.bubbleA; Scenario.bubbleB] (Sim.bubbles s') /\
   (Sim.width s' = 144%Z /\ Sim.height s' = 1000%Z /\
    Sim.gridCols s' = 2%Z /\ Sim.gridRows s' = 10%Z) /\
   Measure.grows (replicate 20 0%R) (Sim.grid s')) /\
  length (Sim.painted (Sim.canvas s')) = 2%nat.
Proof.
  cbn zeta.
  assert (H : (Sim.FRAME_INTERVAL Scenario.defaultProps <=
               Sim.accumulatedTime Sample.runningPair + Measure.deltaTime 1016 Sample.runningPair)%R).
  { destruct (FRAME_INTERVAL_bounds Scenario.defaultProps) as [[_ Hle] _].
    unfold Measure.deltaTime, Sim.Reqb. cbn [Sim.lastTime Sim.accumulatedTime Sample.runningPair].
    destruct (Req_dec_T 16 0) as [E|_]; lra. }
  pose proof (frame_renders Scenario.defaultProps Scenario.stillNoise 0 (fun _ => 0%R) 1016
                Sample.runningPair H) as F.
  cbn zeta in F. split; [exact F|].
  destruct F as (Hp & _ & _ & Hb & _).
  rewrite Hp, length_imap. rewrite <- (Forall2_length _ _ _ Hb). reflexivity.
Defined.


(** ** The bubbles the placement loop makes *)

Section MorePlacement.
Import Sim Measure.
Local Open Scope R_scope.

Variable Rng : Type.
Variable rand : R -> R -> Rng -> R * Rng.
Variable tint : string -> R -> string.
Variable rgbToHslTuple : string -> option (R * R * R).
Variable P : Props.
Variables w h : Z.

Lemma newBubble_fresh (r0 x0 y0 : R) (index : nat) :
  ensures Rng (newBubble Rng rand tint rgbToHslTuple P r0 x0 y0 index) (fresh rgbToHslTuple).
Proof.
  unfold newBubble.
  eapply ensures_bind; [apply ensures_random|intros factor _].
  destruct (colors P !! (index mod length (colors P))%nat) as [c|]; [|apply ensures_throw].
  repeat (eapply ensures_bind; [apply ensures_random|intros ? _]).
  apply ensures_ret. unfold fresh. cbn [homeX homeY x y rBase r hBase sBase lBase color].
  repeat split. destruct (rgbToHslTuple (tint c factor)) as [[[hh ss] ll]|]; reflexivity.
Qed.

Lemma place_fresh (left : nat) (bs : list Bubble) :
  Forall (fresh rgbToHslTuple) bs ->
  ensures Rng (place Rng rand tint rgbToHslTuple P w h left bs) (Forall (fresh rgbToHslTuple)).
Proof.
  revert bs. induction left as [|left IH]; intros bs Hbs; cbn [place].
  - apply ensures_ret. exact Hbs.
  - destruct (length bs <? count P)%nat; [|apply ensures_ret; exact Hbs].
    eapply ensures_bind; [apply ensures_random|intros r0 _].
    eapply ensures_bind; [apply ensures_random|intros x0 _].
    eapply ensures_bind; [apply ensures_random|intros y0 _].
    destruct (ok P r0 x0 y0 bs); [|apply IH; exact Hbs].
    eapply ensures_bind; [apply newBubble_fresh|].
    intros b Hb. apply IH. apply Forall_app. split; [exact Hbs|]. constructor; [exact Hb|constructor].
Qed.

(** X12. Every bubble of the pool the placement loop returns is at rest
    at its home point, its base radius its radius, and carries the colour
    triple parsed from its tinted colour, or (200, 70, 60) when none is
    parsed. *)
Theorem placement_fresh (g : Rng) (pool : list Bubble) (g' : Rng) :
  placement Rng rand tint rgbToHslTuple P w h g = Some (pool, g') ->
  Forall (fresh rgbToHslTuple) pool.
Proof.
  intros E.
  assert (H : ensures Rng (placement Rng rand tint rgbToHslTuple P w h) (Forall (fresh rgbToHslTuple)))
    by (unfold placement; apply place_fresh; constructor).
  exact (H g pool g' E).
Qed.

(** X13. The two edges of the loop: no bubble requested, nothing is read from
    the random source and the pool is empty; at least one bubble requested
    from an empty palette, the loop throws on its first candidate. *)
Theorem placement_edges (g : Rng) :
  (count P = 0%nat -> placement Rng rand tint rgbToHslTuple P w h g = Some ([], g)) /\
  (colors P = [] -> (1 <= count P)%nat ->
   placement Rng rand tint rgbToHslTuple P w h g = None).
Proof.
  unfold placement, maxTries. split.
  - intros H0. rewrite place_step. rewrite H0. reflexivity.
  - intros Hc Hn. rewrite place_step.
    destruct (Nat.ltb_spec (length (@nil Bubble)) (count P)) as [_|Hge]; [|cbn in Hge; lia].
    unfold ok, newBubble. cbn [forallb]. rewrite Hc, lookup_nil.
    unfold bind, random, throw.
    repeat match goal with |- context [rand ?a ?b ?g0] => destruct (rand a b g0) end.
    reflexivity.
Qed.

End MorePlacement.

Lemma placement_fresh_witness :
  Forall (Measure.fresh Scenario.noHsl) (Sim.bubbles Scenario.pairState).
Proof.
  exact (placement_fresh (list R) Scenario.scriptRand Scenario.plainTint Scenario.noHsl
           Scenario.pairProps 144 1000 Scenario.pairScript (Sim.bubbles Scenario.pairState) []
           pairState_is_placed).
Defined.

(** ** More on the like handlers *)

Section LikesMore.
Import Likes LikesGet.

Variable fails : Call -> bool.
Variable today : nat.

Ltac notin :=
  rewrite !elem_of_cons, elem_of_nil; intros Hin;
  repeat (destruct Hin as [Hin|Hin]; [discriminate Hin|]); exact Hin.

Ltac run_calls Hpend Hev :=
  repeat (first
    [ progress (unfold catch, bind, finally, transaction, cleanup, call, ret, setCommitted,
                  readOnly, view, rollback, beginTransaction, commit, write)
    | progress (cbn [db committed calls fst snd app stored pending default status body])
    | progress (rewrite ?Hpend, ?Hev)
    | match goal with
      | F : fails ?c = _ |- context [fails ?c] => rewrite F
      end
    | match goal with
      | |- context [if fails ?c then _ else _] => destruct (fails c) eqn:?
      end ]).

(** *** Request parsing *)

Lemma trimStart_clean (s : string) : cleanStart (trimStart s).
Proof.
  induction s as [|c s IH]; cbn [trimStart]; [exact I|].
  destruct (is_space c) eqn:E; [exact IH|exact E].
Qed.

Lemma trimStart_suffix (s : string) : exists p : string, s = (p ++ trimStart s)%string.
Proof.
  induction s as [|c s [p IH]]; cbn [trimStart]; [exists ""%string; reflexivity|].
  destruct (is_space c).
  - exists (String c p). change (String c s = String c (p ++ trimStart s)%string). congruence.
  - exists ""%string. reflexivity.
Qed.

Lemma list_of_append (a b : string) :
  list_ascii_of_string (a ++ b) = list_ascii_of_string a ++ list_ascii_of_string b.
Proof.
  induction a as [|c a IH]; [reflexivity|].
  change (c :: list_ascii_of_string (a ++ b)%string =
          c :: (list_ascii_of_string a ++ list_ascii_of_string b)).
  f_equal. exact IH.
Qed.

Lemma string_of_app (l k : list ascii) :
  string_of_list_ascii (l ++ k) = (string_of_list_ascii l ++ string_of_list_ascii k)%string.
Proof.
  induction l as [|c l IH]; [reflexivity|].
  change (String c (string_of_list_ascii (l ++ k)) =
          String c (string_of_list_ascii l ++ string_of_list_ascii k)%string).
  f_equal. exact IH.
Qed.

Lemma reverse_string_involutive (s : string) : reverse_string (reverse_string s) = s.
Proof.
  unfold reverse_string. rewrite list_ascii_of_string_of_list_ascii, rev_involutive.
  apply string_of_list_ascii_of_string.
Qed.

Lemma reverse_string_append (a b : string) :
  reverse_string (a ++ b) = (reverse_string b ++ reverse_string a)%string.
Proof. unfold reverse_string. rewrite list_of_append, rev_app_distr. apply string_of_app. Qed.

(** [trim] takes white space off both ends, and only there. *)
Lemma trim_clean (s : string) :
  cleanStart (trim s) /\ cleanEnd (trim s) /\
  exists p q : string, s = (p ++ trim s ++ q)%string.
Proof.
  unfold trim, cleanEnd. rewrite reverse_string_involutive.
  destruct (trimStart_suffix s) as [p Hp].
  destruct (trimStart_suffix (reverse_string (trimStart s))) as [q Hq].
  assert (Hs1 : trimStart s =
                (reverse_string (trimStart (reverse_string (trimStart s))) ++
                 reverse_string q)%string).
  { rewrite <- reverse_string_append, <- Hq. symmetry. apply reverse_string_involutive. }
  split; [|split].
  - pose proof (trimStart_clean s) as Hc. rewrite Hs1 in Hc.
    destruct (reverse_string (trimStart (reverse_string (trimStart s)))) as [|c rest];
      [exact I|exact Hc].
  - apply trimStart_clean.
  - exists p, (reverse_string q). rewrite <- Hs1. exact Hp.
Qed.

(** X14. An accepted slug is the parameter trimmed: not empty, at most 191 code
    units long, with no white space at either end. *)
Theorem parseSlug_accepts (req : Request) (slug : string) :
  parseSlug req = inr slug ->
  slug <> ""%string /\ (String.length slug <= MAX_SLUG_LENGTH)%nat /\
  (exists raw : string, slugParam req = Some raw /\ slug = trim raw) /\
  cleanStart slug /\ cleanEnd slug.
Proof.
  intros H.
  assert (H3 : slug <> ""%string /\ (String.length slug <= MAX_SLUG_LENGTH)%nat /\
               exists raw : string, slugParam req = Some raw /\ slug = trim raw).
  2:{ destruct H3 as (A & B & raw & C & ->). destruct (trim_clean raw) as (D & E & _).
      repeat split; try assumption. exists raw. split; [exact C|reflexivity]. }
  revert H.
  unfold parseSlug. destruct (slugParam req) as [raw|]; cbn [fmap option_fmap option_map];
    [|discriminate].
  destruct (String.eqb_spec (trim raw) "") as [E|E]; [discriminate|].
  destruct (Nat.ltb_spec MAX_SLUG_LENGTH (String.length (trim raw))) as [L|L]; [discriminate|].
  intros H. injection H as <-. repeat split; [exact E|exact L|]. exists raw. split; reflexivity.
Qed.

Lemma truthy_nonempty (o : option string) (s : string) : truthy o = Some s -> s <> ""%string.
Proof.
  unfold truthy. destruct o as [s0|]; [|discriminate].
  destruct (String.eqb_spec s0 "") as [E|E]; [discriminate|]. intros H. injection H as <-. exact E.
Qed.

(** X15. The address is never empty: the first entry of [x-forwarded-for] when
    it is not blank, else [x-real-ip] when it is not blank, else
    [unknown]. *)
Theorem getClientIp_never_empty (req : Request) :
  getClientIp req <> ""%string /\
  (forall raw, forwardedFor req = Some raw -> trim (beforeComma raw) <> ""%string ->
     getClientIp req = trim (beforeComma raw)) /\
  ((forall raw, forwardedFor req = Some raw -> trim (beforeComma raw) = ""%string) ->
   (forall raw, realIpHeader req = Some raw -> trim raw <> ""%string ->
      getClientIp req = trim raw) /\
   ((forall raw, realIpHeader req = Some raw -> trim raw = ""%string) ->
      getClientIp req = "unknown"%string)).
Proof.
  unfold getClientIp. split; [|split].
  - destruct (truthy (trim <$> (beforeComma <$> forwardedFor req))) as [f|] eqn:Ef;
      [exact (truthy_nonempty _ _ Ef)|].
    destruct (truthy (trim <$> realIpHeader req)) as [f|] eqn:Er;
      [exact (truthy_nonempty _ _ Er)|discriminate].
  - intros raw Hraw Hne. rewrite Hraw. cbn. 
    destruct (String.eqb_spec (trim (beforeComma raw)) "") as [E|E]; [contradiction|reflexivity].
  - intros Hf.
    assert (Ef : truthy (trim <$> (beforeComma <$> forwardedFor req)) = None).
    { destruct (forwardedFor req) as [raw|]; [|reflexivity]. cbn.
      rewrite (Hf raw eq_refl). reflexivity. }
    rewrite Ef. split.
    + intros raw Hraw Hne. rewrite Hraw. cbn.
      destruct (String.eqb_spec (trim raw) "") as [E|E]; [contradiction|reflexivity].
    + intros Hr. destruct (realIpHeader req) as [raw|]; [|reflexivity]. cbn.
      rewrite (Hr raw eq_refl). reflexivity.
Qed.

(** *** The handlers *)

Lemma countOf_upsertLike (slug : string) (t : Tables) :
  countOf slug (upsertLike slug t) = S (countOf slug t).
Proof.
  unfold countOf, upsertLike. cbn [blog_likes]. rewrite lookup_insert_eq.
  destruct (blog_likes t !! slug); reflexivity.
Qed.

Lemma hasEvent_insertEvent (slug ip : string) (t : Tables) :
  hasEvent slug ip today (upsertLike slug (insertEvent slug ip today t)) = true.
Proof.
  unfold hasEvent, upsertLike, insertEvent. cbn [blog_like_events].
  apply bool_decide_eq_true_2. apply elem_of_union_l, elem_of_singleton. reflexivity.
Qed.

Lemma Db_eta (d : Db) : pending d = None -> mkDb (stored d) None = d.
Proof. destruct d as [st pe]. cbn. intros ->. reflexivity. Qed.

Lemma POST_liked (req : Request) (d : Db) (slug : string) :
  parseSlug req = inr slug ->
  pending d = None ->
  (forall c, fails c = false) ->
  hasEvent slug (getClientIp req) today (stored d) = false ->
  POST fails today req d =
  (mkWorld (mkDb (upsertLike slug (insertEvent slug (getClientIp req) today (stored d))) None)
           true
           [EnsureLikesTable; GetConnection; SelectLimited; BeginTransaction; InsertEvent;
            UpsertLike; SelectCount; Commit; Release],
   respond 200 (CountBody (S (countOf slug (stored d))))).
Proof.
  intros Hslug Hpend Hall Hev. unfold POST. rewrite Hslug.
  pose proof (Hall EnsureLikesTable). pose proof (Hall GetConnection).
  pose proof (Hall SelectLimited). pose proof (Hall BeginTransaction).
  pose proof (Hall InsertEvent). pose proof (Hall UpsertLike).
  pose proof (Hall SelectCount). pose proof (Hall Commit). pose proof (Hall Release).
  run_calls Hpend Hev. unfold Datatypes.id. rewrite countOf_upsertLike. reflexivity.
Qed.

Lemma POST_limited (req : Request) (d : Db) (slug : string) :
  parseSlug req = inr slug ->
  pending d = None ->
  (forall c, fails c = false) ->
  hasEvent slug (getClientIp req) today (stored d) = true ->
  POST fails today req d =
  (mkWorld d false
           [EnsureLikesTable; GetConnection; SelectLimited; SelectCountLimited; Rollback;
            Release],
   respond RATE_LIMIT_STATUS (RateLimitedBody (countOf slug (stored d)))).
Proof.
  intros Hslug Hpend Hall Hev. unfold POST. rewrite Hslug.
  pose proof (Hall EnsureLikesTable). pose proof (Hall GetConnection).
  pose proof (Hall SelectLimited). pose proof (Hall SelectCountLimited).
  pose proof (Hall Rollback). pose proof (Hall Release).
  run_calls Hpend Hev. unfold Datatypes.id. rewrite (Db_eta d Hpend). reflexivity.
Qed.

(** X16. One like a day: a like that goes through is counted once and leaves
    its event; the same request repeated that day is answered 429 with the
    count the first one returned, and changes nothing. *)
Theorem POST_twice (req : Request) (d : Db) (slug : string) :
  parseSlug req = inr slug ->
  pending d = None ->
  (forall c, fails c = false) ->
  hasEvent slug (getClientIp req) today (stored d) = false ->
  let first := POST fails today req d in
  let second := POST fails today req (db (fst first)) in
  snd first = respond 200 (CountBody (S (countOf slug (stored d)))) /\
  snd second = respond RATE_LIMIT_STATUS (RateLimitedBody (S (countOf slug (stored d)))) /\
  db (fst second) = db (fst first).
Proof.
  intros Hslug Hpend Hall Hev. cbn zeta.
  rewrite (POST_liked req d slug Hslug Hpend Hall Hev). cbn [fst snd db].
  rewrite (POST_limited req
             (mkDb (upsertLike slug (insertEvent slug (getClientIp req) today (stored d))) None)
             slug Hslug eq_refl Hall (hasEvent_insertEvent _ _ _)).
  cbn [fst snd db stored]. rewrite countOf_upsertLike.
  assert (E : countOf slug (insertEvent slug (getClientIp req) today (stored d)) =
              countOf slug (stored d)) by reflexivity.
  rewrite E. repeat split.
Qed.

(** X17. What each status of [POST] means, on a connection with no transaction
    left open: 400, the slug was refused and no call was made; 200, there was
    no event for today, and event and incremented count are both stored;
    429, the event was there and the stored tables are unchanged; otherwise
    500. *)
Theorem POST_outcomes (req : Request) (d : Db) :
  pending d = None ->
  let out := POST fails today req d in
  (exists error, parseSlug req = inl error /\
     out = (mkWorld d false [], respond 400 (ErrorBody error))) \/
  (exists slug, parseSlug req = inr slug /\
     let ip := getClientIp req in
     (hasEvent slug ip today (stored d) = false /\
      snd out = respond 200 (CountBody (S (countOf slug (stored d)))) /\
      db (fst out) = mkDb (upsertLike slug (insertEvent slug ip today (stored d))) None) \/
     (hasEvent slug ip today (stored d) = true /\
      snd out = respond RATE_LIMIT_STATUS (RateLimitedBody (countOf slug (stored d))) /\
      stored (db (fst out)) = stored d) \/
     snd out = respond 500 (ErrorBody "Failed to save like")).
Proof.
  intros Hpend. cbn zeta. unfold POST.
  destruct (parseSlug req) as [error|slug] eqn:Hslug.
  - left. exists error. split; reflexivity.
  - right. exists slug. split; [reflexivity|].
    destruct (hasEvent slug (getClientIp req) today (stored d)) eqn:Hev.
    all: run_calls Hpend Hev.
    all: first [ right; right; reflexivity
               | right; left; repeat split; reflexivity
               | left; unfold Datatypes.id; rewrite countOf_upsertLike; repeat split ].
Qed.

(** X18. Whenever [POST] obtained a connection it calls [release] once, as its
    last call; when it obtained none it never calls it. *)
Theorem POST_releases (req : Request) (d : Db) (slug : string) :
  parseSlug req = inr slug ->
  let made := calls (fst (POST fails today req d)) in
  (fails EnsureLikesTable = false -> fails GetConnection = false ->
   exists pre, made = pre ++ [Release] /\ (Release ∉ pre) /\ (GetConnection ∈ pre)) /\
  (fails EnsureLikesTable = true \/ fails GetConnection = true -> (Release ∉ made)).
Proof.
  intros Hslug. cbn zeta. unfold POST. rewrite Hslug. split.
  - intros F1 F2.
    destruct (hasEvent slug (getClientIp req) today (default (stored d) (pending d))) eqn:Hev.
    all: run_calls Hev Hev.
    all: match goal with
         | |- exists pre, ?l = _ /\ _ =>
             exists (take (length l - 1) l); split; [reflexivity|cbn [length Nat.sub take]]
         end.
    all: split; [|repeat constructor].
    all: notin.
  - intros [F|F].
    + run_calls F F. notin.
    + run_calls F F; notin.
Qed.

(** X19. [GET] never writes: the database is what it was, whatever fails.  It
    answers 400 for a refused slug, 200 with the stored count (0 for a slug
    never liked) when both calls succeed, and 500 otherwise. *)
Theorem GET_contract (req : Request) (d : Db) :
  let out := GET fails req d in
  db (fst out) = d /\
  match parseSlug req with
  | inl error => out = (mkWorld d false [], respond 400 (ErrorBody error))
  | inr slug =>
      if fails EnsureLikesTable || fails SelectCount
      then snd out = respond 500 (ErrorBody "Failed to load like count")
      else snd out = respond 200 (CountBody (default 0%nat (blog_likes (view d) !! slug)))
  end.
Proof.
  cbn zeta. unfold GET. destruct (parseSlug req) as [error|slug]; [split; reflexivity|].
  unfold catch, bind, call, ret, readOnly. cbn [db calls committed].
  destruct (fails EnsureLikesTable); cbn [orb db]; [split; reflexivity|].
  destruct (fails SelectCount); cbn [db]; split; reflexivity.
Qed.

(** X20. A like that went through is what [GET] then reports. *)
Theorem POST_then_GET (req : Request) (d : Db) (slug : string) :
  parseSlug req = inr slug ->
  pending d = None ->
  (forall c, fails c = false) ->
  hasEvent slug (getClientIp req) today (stored d) = false ->
  snd (GET fails req (db (fst (POST fails today req d)))) =
  snd (POST fails today req d).
Proof.
  intros Hslug Hpend Hall Hev.
  rewrite (POST_liked req d slug Hslug Hpend Hall Hev). cbn [fst snd db].
  unfold GET. rewrite Hslug. unfold catch, bind, call, ret, readOnly.
  rewrite !Hall. cbn [db calls committed view pending stored default fst snd].
  unfold Datatypes.id. rewrite countOf_upsertLike. reflexivity.
Qed.

End LikesMore.

Lemma parseSlug_accepts_witness :
  "hello"%string <> ""%string /\ (String.length "hello" <= Likes.MAX_SLUG_LENGTH)%nat /\
  (exists raw : string, Likes.slugParam Scenario.likeRequest = Some raw /\
                        "hello"%string = Likes.trim raw) /\
  LikesGet.cleanStart "hello" /\ LikesGet.cleanEnd "hello".
Proof. exact (parseSlug_accepts Scenario.likeRequest "hello" eq_refl). Defined.

Lemma POST_twice_witness :
  let first := Likes.POST Scenario.noFailure 7 Scenario.likeRequest Scenario.emptyDb in
  let second := Likes.POST Scenario.noFailure 7 Scenario.likeRequest (Likes.db (fst first)) in
  snd first = Likes.respond 200 (Likes.CountBody 1) /\
  snd second = Likes.respond Likes.RATE_LIMIT_STATUS (Likes.RateLimitedBody 1) /\
  Likes.db (fst second) = Likes.db (fst first).
Proof.
  exact (POST_twice Scenario.noFailure 7 Scenario.likeRequest Scenario.emptyDb "hello"
           eq_refl eq_refl (fun c => eq_refl) eq_refl).
Defined.

Lemma POST_outcomes_witness :
  let out := Likes.POST Scenario.noFailure 7 Scenario.likeRequest Scenario.likedDb in
  (exists error, Likes.parseSlug Scenario.likeRequest = inl error /\
     out = (Likes.mkWorld Scenario.likedDb false [], Likes.respond 400 (Likes.ErrorBody error))) \/
  (exists slug, Likes.parseSlug Scenario.likeRequest = inr slug /\
     let ip := Likes.getClientIp Scenario.likeRequest in
     (Likes.hasEvent slug ip 7 (Likes.stored Scenario.likedDb) = false /\
      snd out = Likes.respond 200
                  (Likes.CountBody (S (Likes.countOf slug (Likes.stored Scenario.likedDb)))) /\
      Likes.db (fst out) =
      Likes.mkDb (Likes.upsertLike slug
                    (Likes.insertEvent slug ip 7 (Likes.stored Scenario.likedDb))) None) \/
     (Likes.hasEvent slug ip 7 (Likes.stored Scenario.likedDb) = true /\
      snd out = Likes.respond Likes.RATE_LIMIT_STATUS
                  (Likes.RateLimitedBody (Likes.countOf slug (Likes.stored Scenario.likedDb))) /\
      Likes.stored (Likes.db (fst out)) = Likes.stored Scenario.likedDb) \/
     snd out = Likes.respond 500 (Likes.ErrorBody "Failed to save like")).
Proof. exact (POST_outcomes Scenario.noFailure 7 Scenario.likeRequest Scenario.likedDb eq_refl). Defined.

Lemma POST_releases_witness :
  let made := Likes.calls (fst (Likes.POST Scenario.upsertFails 7 Scenario.likeRequest
                                  Scenario.emptyDb)) in
  (Scenario.upsertFails Likes.EnsureLikesTable = false ->
   Scenario.upsertFails Likes.GetConnection = false ->
   exists pre, made = pre ++ [Likes.Release] /\ (Likes.Release ∉ pre) /\
               (Likes.GetConnection ∈ pre)) /\
  (Scenario.upsertFails Likes.EnsureLikesTable = true \/
   Scenario.upsertFails Likes.GetConnection = true -> (Likes.Release ∉ made)).
Proof.
  exact (POST_releases Scenario.upsertFails 7 Scenario.likeRequest Scenario.emptyDb "hello"
           eq_refl).
Defined.

Lemma POST_then_GET_witness :
  snd (LikesGet.GET Scenario.noFailure Scenario.likeRequest
         (Likes.db (fst (Likes.POST Scenario.noFailure 7 Scenario.likeRequest
                           Scenario.emptyDb)))) =
  snd (Likes.POST Scenario.noFailure 7 Scenario.likeRequest Scenario.emptyDb).
Proof.
  exact (POST_then_GET Scenario.noFailure 7 Scenario.likeRequest Scenario.emptyDb "hello"
           eq_refl eq_refl (fun c => eq_refl) eq_refl).
Defined.

(** ** More on the colour utilities *)

Section ColorMore.
Import Floats SpecFloat.
Import Color ColorMeasure.
Local Open Scope float_scope.

Lemma SFcompare_antisym (a b : spec_float) :
  SFcompare b a = option_map CompOpp (SFcompare a b).
Proof.
  destruct a as [sa|sa| |sa ma ea], b as [sb|sb| |sb mb eb]; cbn;
    try (destruct sa); try (destruct sb); try reflexivity.
  - rewrite (Z.compare_antisym eb ea). destruct (eb ?= ea)%Z; cbn; try reflexivity.
    rewrite (Pos.compare_cont_antisym ma mb Eq). reflexivity.
  - rewrite (Z.compare_antisym eb ea). destruct (eb ?= ea)%Z; cbn; try reflexivity.
    rewrite (Pos.compare_cont_antisym ma mb Eq). reflexivity.
Qed.

Lemma is_nan_false (v : float) : is_nan v = false -> Prim2SF v <> S754_nan.
Proof.
  unfold is_nan. rewrite FloatAxioms.eqb_spec. intros H E. rewrite E in H. discriminate H.
Qed.

Lemma not_nan_compare (a b : spec_float) :
  a <> S754_nan -> b <> S754_nan -> exists c, SFcompare a b = Some c.
Proof.
  intros Ha Hb. destruct a as [sa|sa| |sa ma ea], b as [sb|sb| |sb mb eb]; cbn;
    try contradiction; eexists; reflexivity.
Qed.

Lemma not_ltb_leb (a b : float) :
  is_nan a = false -> is_nan b = false -> PrimFloat.ltb a b = false -> PrimFloat.leb b a = true.
Proof.
  intros Ha Hb. rewrite FloatAxioms.ltb_spec, FloatAxioms.leb_spec. unfold SFltb, SFleb.
  rewrite (SFcompare_antisym (Prim2SF a) (Prim2SF b)).
  destruct (not_nan_compare _ _ (is_nan_false a Ha) (is_nan_false b Hb)) as [c ->].
  destruct c; cbn; congruence.
Qed.

Lemma ltb_leb (a b : float) : PrimFloat.ltb a b = true -> PrimFloat.leb a b = true.
Proof.
  rewrite FloatAxioms.ltb_spec, FloatAxioms.leb_spec. unfold SFltb, SFleb.
  destruct (SFcompare (Prim2SF a) (Prim2SF b)) as [[| |]|]; congruence.
Qed.

(** What [clamp] gives when [v] is a number. *)
Lemma clamp_number (v : float) :
  is_nan v = false ->
  clamp v = if PrimFloat.ltb 255 v then 255
            else if PrimFloat.ltb 0 v then v else 0.
Proof.
  intros Hv. unfold clamp, Math_min.
  replace (is_nan 255) with false by reflexivity. rewrite Hv. cbn [orb].
  replace (classify 255) with PNormal by reflexivity.
  destruct (PrimFloat.ltb 255 v) eqn:Hhi.
  - reflexivity.
  - assert (Hm : (if PrimFloat.ltb v 255 then v else v) = v) by (destruct (PrimFloat.ltb v 255); reflexivity).
    rewrite Hm. unfold Math_max. replace (is_nan 0) with false by reflexivity. rewrite Hv.
    cbn [orb]. replace (classify 0) with PZero by reflexivity.
    destruct (PrimFloat.ltb 0 v); [reflexivity|]. destruct (PrimFloat.ltb v 0); reflexivity.
Qed.

(** X21. [clamp] puts every number into [[0, 255]], leaves the numbers of
    [(0, 255]] alone, and hands NaN on. *)
Theorem clamp_range (v : float) :
  (is_nan v = false ->
   PrimFloat.leb 0 (clamp v) = true /\ PrimFloat.leb (clamp v) 255 = true /\
   (PrimFloat.ltb 0 v = true -> PrimFloat.leb v 255 = true -> clamp v = v)) /\
  (is_nan v = true -> is_nan (clamp v) = true).
Proof.
  split.
  - intros Hv. rewrite (clamp_number v Hv).
    destruct (PrimFloat.ltb 255 v) eqn:Hhi; [|destruct (PrimFloat.ltb 0 v) eqn:Hlo].
    + repeat split; try reflexivity. intros _ Hle.
      rewrite FloatAxioms.ltb_spec in Hhi. rewrite FloatAxioms.leb_spec in Hle.
      unfold SFltb, SFleb in *. rewrite (SFcompare_antisym (Prim2SF v) (Prim2SF 255)) in Hhi.
      destruct (SFcompare (Prim2SF v) (Prim2SF 255)) as [[| |]|]; cbn in *; congruence.
    + repeat split.
      * apply ltb_leb. exact Hlo.
      * apply not_ltb_leb; [reflexivity|exact Hv|exact Hhi].
    + repeat split; try reflexivity. intros H. discriminate H.
  - intros Hv. unfold clamp, Math_min. rewrite Hv, orb_true_r. reflexivity.
Qed.

Lemma hex_value_small (c : ascii) (d : nat) : hex_value c = Some d -> (d < 16)%nat.
Proof.
  unfold hex_value, code. set (n := nat_of_ascii c).
  destruct ((48 <=? n)%nat && (n <=? 57)%nat) eqn:E1.
  { intros H. injection H as <-. apply andb_true_iff in E1 as [A B].
    apply Nat.leb_le in A, B. lia. }
  destruct ((97 <=? n)%nat && (n <=? 102)%nat) eqn:E2.
  { intros H. injection H as <-. apply andb_true_iff in E2 as [A B].
    apply Nat.leb_le in A, B. lia. }
  destruct ((65 <=? n)%nat && (n <=? 70)%nat) eqn:E3; [|discriminate].
  intros H. injection H as <-. apply andb_true_iff in E3 as [A B].
  apply Nat.leb_le in A, B. lia.
Qed.

Lemma byte_digits (d1 d2 : nat) :
  (d1 < 16)%nat -> (d2 < 16)%nat -> of_nat d1 * 16 + of_nat d2 = hexByte d1 d2.
Proof.
  intros H1 H2.
  do 16 (destruct d1 as [|d1]; [do 16 (destruct d2 as [|d2]; [vm_compute; reflexivity|]); lia|]).
  lia.
Qed.

(** [parseInt] of two hexadecimal digits is their byte. *)
Lemma parseInt16_pair (c1 c2 : ascii) (d1 d2 : nat) :
  hex_value c1 = Some d1 -> hex_value c2 = Some d2 ->
  parseInt16 (String c1 (String c2 "")) = hexByte d1 d2.
Proof.
  intros H1 H2.
  rewrite <- (byte_digits d1 d2 (hex_value_small c1 d1 H1) (hex_value_small c2 d2 H2)).
  destruct c1 as [[] [] [] [] [] [] [] []]; try discriminate H1;
    injection H1 as <-;
    (destruct c2 as [[] [] [] [] [] [] [] []]; try discriminate H2;
     injection H2 as <-; vm_compute; reflexivity).
Qed.

Lemma hex_not_hash (c : ascii) (d : nat) : hex_value c = Some d -> Ascii.eqb c "#" = false.
Proof.
  intros H. destruct c as [[] [] [] [] [] [] [] []]; try discriminate H; reflexivity.
Qed.

(** X22. A colour written as six hexadecimal digits, with or without a
    leading ['#'], is tinted channel by channel: each byte times the factor,
    clamped. *)
Theorem tint_hex (c1 c2 c3 c4 c5 c6 : ascii) (d1 d2 d3 d4 d5 d6 : nat) (factor : float) :
  hex_value c1 = Some d1 -> hex_value c2 = Some d2 -> hex_value c3 = Some d3 ->
  hex_value c4 = Some d4 -> hex_value c5 = Some d5 -> hex_value c6 = Some d6 ->
  let digits := String c1 (String c2 (String c3 (String c4 (String c5 (String c6 ""))))) in
  let tinted := RgbText (clamp (hexByte d1 d2 * factor)) (clamp (hexByte d3 d4 * factor))
                        (clamp (hexByte d5 d6 * factor)) in
  tint (String "#" digits) factor = tinted /\ tint digits factor = tinted.
Proof.
  intros H1 H2 H3 H4 H5 H6. cbn zeta.
  assert (E : forall s,
             String.eqb s "" = false ->
             remove_first_hash s =
             String c1 (String c2 (String c3 (String c4 (String c5 (String c6 ""))))) ->
             tint s factor =
             RgbText (clamp (hexByte d1 d2 * factor)) (clamp (hexByte d3 d4 * factor))
                     (clamp (hexByte d5 d6 * factor))).
  { intros s Hne Hs. unfold tint. rewrite Hne, Hs.
    change (String.length (String c1 (String c2 (String c3 (String c4 (String c5
              (String c6 ""))))))) with 6%nat.
    cbn [Nat.eqb negb slice Nat.sub substring].
    rewrite (parseInt16_pair c1 c2 d1 d2 H1 H2), (parseInt16_pair c3 c4 d3 d4 H3 H4),
      (parseInt16_pair c5 c6 d5 d6 H5 H6). reflexivity. }
  split; apply E.
  - reflexivity.
  - reflexivity.
  - reflexivity.
  - cbn [remove_first_hash].
    rewrite (hex_not_hash c1 d1 H1), (hex_not_hash c2 d2 H2), (hex_not_hash c3 d3 H3),
      (hex_not_hash c4 d4 H4), (hex_not_hash c5 d5 H5), (hex_not_hash c6 d6 H6).
    reflexivity.
Qed.

(** [tint] hands its argument back exactly when it is empty or, its first
    ['#'] apart, not six code units long. *)
Lemma tint_unchanged_iff (color : string) (factor : float) :
  tint color factor = Unchanged color <->
  color = ""%string \/ String.length (remove_first_hash color) <> 6%nat.
Proof.
  unfold tint. destruct (String.eqb_spec color "") as [E|E].
  - split; [intros _; left; exact E|reflexivity].
  - destruct (Nat.eqb_spec (String.length (remove_first_hash color)) 6) as [L|L]; cbn [negb].
    + split; [discriminate|]. intros [H|H]; contradiction.
    + split; [intros _; right; exact L|reflexivity].
Qed.

Lemma tint_hex_witness :
  let tinted := RgbText (clamp (hexByte 15 15 * 1.5)) (clamp (hexByte 8 8 * 1.5))
                        (clamp (hexByte 0 0 * 1.5)) in
  tint "#ff8800" 1.5 = tinted /\ tint "ff8800" 1.5 = tinted.
Proof.
  exact (tint_hex "f" "f" "8" "8" "0" "0" 15 15 8 8 0 0 1.5
           eq_refl eq_refl eq_refl eq_refl eq_refl eq_refl).
Defined.

End ColorMore.

(** ** The database pool *)

Section DbPoolFacts.

Import DbPool.

Context {Num : Type}.
Variable Number : string -> Num.
Variable port3306 : Num.

(** The configuration is resolved exactly when the user, the password and
    the database name are all set and not empty; otherwise the error names
    the first of the three, in that order, that is not.  The host defaults to
    127.0.0.1 and the port to 3306. *)
Lemma resolveConfig_required (env : gmap string string) :
  match envValue env "LIKE_DB_USER", envValue env "LIKE_DB_PASSWORD",
        envValue env "LIKE_DB_NAME" with
  | Some u, Some p, Some n =>
      resolveConfig Number port3306 env =
      inr (mkDbConfig
             (default "127.0.0.1"%string (envValue env "LIKE_DB_HOST"))
             (match envValue env "LIKE_DB_PORT" with
              | Some s => Number s
              | None => port3306
              end) u p n)
  | None, _, _ =>
      resolveConfig Number port3306 env = inl "Missing environment variable: LIKE_DB_USER"%string
  | Some _, None, _ =>
      resolveConfig Number port3306 env =
      inl "Missing environment variable: LIKE_DB_PASSWORD"%string
  | Some _, Some _, None =>
      resolveConfig Number port3306 env = inl "Missing environment variable: LIKE_DB_NAME"%string
  end.
Proof.
  unfold resolveConfig, requiredEnv.
  destruct (envValue env "LIKE_DB_USER"); [|reflexivity].
  destruct (envValue env "LIKE_DB_PASSWORD"); [|reflexivity].
  destruct (envValue env "LIKE_DB_NAME"); reflexivity.
Qed.

(** X23. The pool is made once: a call that returned a pool is followed by
    calls that return the same pool and leave the module alone, whatever the
    environment has become; a call that threw leaves the module as it was. *)
Theorem getDbPool_once (env env' : gmap string string) (m : Module_) :
  let first := getDbPool Number port3306 env m in
  (forall p, snd first = inr p ->
     pool (fst first) = Some p /\
     getDbPool Number port3306 env' (fst first) = (fst first, inr p)) /\
  (forall error, snd first = inl error -> fst first = m /\ pool m = None).
Proof.
  cbn zeta. unfold getDbPool. destruct (pool m) as [p0|] eqn:Hp.
  - split.
    + intros p H. injection H as <-. cbn [fst]. rewrite Hp. split; reflexivity.
    + intros error H. discriminate H.
  - destruct (resolveConfig Number port3306 env) as [e|c]; cbn [fst snd]; split.
    + intros p H. discriminate H.
    + intros error _. split; reflexivity.
    + intros p H. injection H as <-. cbn [pool]. split; reflexivity.
    + intros error H. discriminate H.
Qed.

(** X24. [ensureLikesTable]: once a call was fulfilled, later calls make no
    step and are fulfilled, whatever fails by then; a call that was not
    fulfilled leaves the promise unset, so that the next call tries again; and
    a call that obtained a connection releases it, once and as its last
    step. *)
Theorem ensureLikesTable_once (fails fails' : Step -> bool) (env env' : gmap string string)
  (m : Module_) :
  let '(m1, steps, fulfilled) := ensureLikesTable Number port3306 fails env m in
  ensured m1 = fulfilled /\
  (fulfilled = true ->
   ensureLikesTable Number port3306 fails' env' m1 = (m1, [], true)) /\
  (In GetConnection steps -> fails GetConnection = false ->
   exists queries, steps = GetConnection :: queries ++ [Release] /\ ~ In Release queries).
Proof.
  unfold ensureLikesTable. destruct (ensured m) eqn:He.
  - split; [exact He|]. split; [intros _; rewrite He; reflexivity|]. intros [].
  - destruct (getDbPool Number port3306 env m) as [m1 [e|p]] eqn:Hg.
    + assert (ensured m1 = false).
      { unfold getDbPool in Hg. destruct (pool m); [discriminate|].
        destruct (resolveConfig Number port3306 env); [|discriminate].
        injection Hg as <- _. exact He. }
      split; [assumption|]. split; [discriminate|]. intros [].
    + assert (Hm1 : ensured m1 = false).
      { unfold getDbPool in Hg. destruct (pool m).
        - injection Hg as <- _. exact He.
        - destruct (resolveConfig Number port3306 env); [discriminate|].
          injection Hg as <- _. exact He. }
      destruct (fails GetConnection) eqn:F0.
      * split; [exact Hm1|]. split; [discriminate|]. intros _ H. discriminate H.
      * destruct (fails CreateLikes); [|destruct (fails CreateEvents)]; cbn [andb].
        -- split; [reflexivity|]. split; [discriminate|]. intros _ _.
           exists [CreateLikes]. split; [reflexivity|]. intros [H|[]]; discriminate H.
        -- split; [reflexivity|]. split; [discriminate|]. intros _ _.
           exists [CreateLikes; CreateEvents]. split; [reflexivity|].
           intros [H|[H|[]]]; discriminate H.
        -- split; [reflexivity|]. split.
           ++ intros Hf. cbn [ensured]. rewrite Hf. reflexivity.
           ++ intros _ _. exists [CreateLikes; CreateEvents]. split; [reflexivity|].
              intros [H|[H|[]]]; discriminate H.
Qed.

End DbPoolFacts.

(** ** The debounced resize observer *)

Section DebounceFacts.

Import Sim Debounce.

Variable P : Props.
Variable DPR : R.

Lemma filter_ne_singleton (id : nat) : filter (fun k => k <> id) [id] = [].
Proof.
  rewrite filter_cons. destruct (decide (id <> id)) as [H|_]; [contradiction H; reflexivity|].
  reflexivity.
Qed.

Lemma onResize_settled (h : Host) :
  settled h -> observing h = true ->
  sim (onResize h) = sim h /\ resizeTimer (onResize h) = Some (nextTimer h) /\
  timeouts (onResize h) = [nextTimer h] /\ nextTimer (onResize h) = S (nextTimer h) /\
  observing (onResize h) = true.
Proof.
  unfold settled, onResize. intros Hs Ho. destruct (resizeTimer h) as [id|] eqn:Hr.
  - destruct Hs as [[Ht _]|[_ Hb]]; [|congruence].
    cbn [setTimeout set_resizeTimer clearTimeout timeouts resizeTimer nextTimer sim observing].
    rewrite Ht, filter_ne_singleton. repeat split. exact Ho.
  - cbn [setTimeout set_resizeTimer timeouts resizeTimer nextTimer sim observing].
    rewrite Hs. repeat split. exact Ho.
Qed.

Lemma step_settled (h : Host) (e : Event) : settled h -> settled (step P DPR h e).
Proof.
  intros Hs. destruct e as [|id cw ch nows|]; cbn [step].
  - destruct (observing h) eqn:Ho; [|exact Hs].
    destruct (onResize_settled h Hs Ho) as (_ & Hr & Ht & Hn & _).
    unfold settled. rewrite Hr, Ht, Hn. left. split; [reflexivity|lia].
  - destruct (bool_decide (id ∈ timeouts h)) eqn:Hin; [|exact Hs].
    unfold settled. cbn [timeouts clearTimeout resizeTimer nextTimer].
    apply bool_decide_eq_true in Hin. unfold settled in Hs.
    destruct (resizeTimer h) as [id'|] eqn:Hr.
    + destruct Hs as [[Ht _]|[Ht _]]; rewrite Ht in Hin |- *.
      * apply list_elem_of_singleton in Hin. subst id'. apply filter_ne_singleton.
      * reflexivity.
    + rewrite Hs. reflexivity.
  - cbn [resizeTimer]. unfold settled in *. destruct (resizeTimer h) as [id|] eqn:Hr.
    + cbn [clearTimeout timeouts resizeTimer nextTimer observing sim].
      right. split; [|reflexivity].
      destruct Hs as [[Ht _]|[Ht _]]; rewrite Ht; [apply filter_ne_singleton|reflexivity].
    + cbn [resizeTimer timeouts]. try rewrite Hr. exact Hs.
Qed.

Lemma run_settled (events : list Event) (h : Host) : settled h -> settled (run P DPR h events).
Proof.
  revert h. induction events as [|e events IH]; intros h Hs; [exact Hs|].
  apply IH, step_settled, Hs.
Qed.

(** X25. Whatever happens after the effect has run, at most one timeout of
    [onResize] is pending, and it is the one [resizeTimer] names; an event
    changes the simulation only when that timeout elapses, and then by one
    call of [handleResize]. *)
Theorem onResize_one_pending (s : State) (events : list Event) (e : Event) :
  let h := run P DPR (mounted s) events in
  (timeouts h = [] \/ exists id, resizeTimer h = Some id /\ timeouts h = [id]) /\
  (sim (step P DPR h e) = sim h \/
   exists id clientWidth clientHeight nows,
     e = Elapse id clientWidth clientHeight nows /\ resizeTimer h = Some id /\
     timeouts h = [id] /\ timeouts (step P DPR h e) = [] /\
     sim (step P DPR h e) = handleResize P DPR clientWidth clientHeight nows (sim h)).
Proof.
  cbn zeta. assert (Hs : settled (run P DPR (mounted s) events)).
  { apply run_settled. reflexivity. }
  set (h := run P DPR (mounted s) events) in *. clearbody h. split.
  - unfold settled in Hs. destruct (resizeTimer h) as [id|].
    + destruct Hs as [[Ht _]|[Ht _]]; [right; exists id; split; [reflexivity|exact Ht]|left; exact Ht].
    + left. exact Hs.
  - destruct e as [|id cw ch nows|]; cbn [step].
    + left. destruct (observing h) eqn:Ho; [|reflexivity].
      apply (onResize_settled h Hs Ho).
    + destruct (bool_decide (id ∈ timeouts h)) eqn:Hin; [|left; reflexivity].
      apply bool_decide_eq_true in Hin. right. exists id, cw, ch, nows.
      unfold settled in Hs. destruct (resizeTimer h) as [id'|] eqn:Hr.
      * destruct Hs as [[Ht _]|[Ht _]]; rewrite Ht in Hin.
        -- apply list_elem_of_singleton in Hin. subst id'.
           cbn [clearTimeout timeouts sim]. rewrite Ht, filter_ne_singleton.
           repeat split.
        -- apply elem_of_nil in Hin. destruct Hin.
      * rewrite Hs in Hin. apply elem_of_nil in Hin. destruct Hin.
    + left. cbn [resizeTimer]. destruct (resizeTimer h); reflexivity.
Qed.

Lemma notify_burst (n : nat) (h : Host) :
  settled h -> observing h = true ->
  let h' := run P DPR h (replicate (S n) Notify) in
  sim h' = sim h /\ resizeTimer h' = Some (nextTimer h + n)%nat /\
  timeouts h' = [(nextTimer h + n)%nat] /\ observing h' = true /\ settled h'.
Proof.
  cbn zeta. revert h. induction n as [|n IH]; intros h Hs Ho.
  - cbn [replicate run foldl step]. rewrite Ho.
    destruct (onResize_settled h Hs Ho) as (H1 & H2 & H3 & H4 & H5).
    rewrite Nat.add_0_r. repeat split; try assumption.
    unfold settled. rewrite H2, H3, H4. left. split; [reflexivity|lia].
  - change (replicate (S (S n)) Notify) with (Notify :: replicate (S n) Notify).
    unfold run. cbn [foldl]. fold (run P DPR (step P DPR h Notify) (replicate (S n) Notify)).
    pose proof (step_settled h Notify Hs) as Hs1.
    cbn [step] in *. rewrite Ho in *.
    destruct (onResize_settled h Hs Ho) as (H1 & H2 & H3 & H4 & H5).
    destruct (IH (onResize h) Hs1 H5) as (I1 & I2 & I3 & I4 & I5).
    rewrite H4 in I2, I3. rewrite H1 in I1.
    replace (nextTimer h + S n)%nat with (S (nextTimer h) + n)%nat by lia.
    repeat split; assumption.
Qed.

(** X26. A burst of notifications is answered once: after any number of them
    in a row the simulation is as it was and only the last timeout is pending;
    the earlier ones do nothing when their delay is over, and the last one
    calls [handleResize] once, with the size the canvas has by then. *)
Theorem onResize_debounces (s : State) (events : list Event) (n id : nat)
  (clientWidth clientHeight : Z) (nows : nat -> R) :
  let h := run P DPR (mounted s) events in
  let h' := run P DPR h (replicate (S n) Notify) in
  observing h = true ->
  sim h' = sim h /\
  step P DPR h' (Elapse id clientWidth clientHeight nows) =
  if decide (id = nextTimer h + n)%nat
  then mkHost (handleResize P DPR clientWidth clientHeight nows (sim h)) None []
              (S (nextTimer h + n)) true
  else h'.
Proof.
  cbn zeta. intros Ho.
  assert (Hs : settled (run P DPR (mounted s) events)) by (apply run_settled; reflexivity).
  set (h := run P DPR (mounted s) events) in *. clearbody h.
  destruct (notify_burst n h Hs Ho) as (H1 & H2 & H3 & H4 & H5).
  split; [exact H1|].
  assert (Hn : nextTimer (run P DPR h (replicate (S n) Notify)) = S (nextTimer h + n)).
  { clear H1 H2 H3 H4 H5. revert h Hs Ho. induction n as [|n IH]; intros h Hs Ho.
    - cbn [replicate run foldl step]. rewrite Ho.
      destruct (onResize_settled h Hs Ho) as (_ & _ & _ & H4 & _). rewrite H4. lia.
    - change (replicate (S (S n)) Notify) with (Notify :: replicate (S n) Notify).
      unfold run. cbn [foldl]. fold (run P DPR (step P DPR h Notify) (replicate (S n) Notify)).
      pose proof (step_settled h Notify Hs) as Hs1.
      cbn [step] in *. rewrite Ho in *.
      destruct (onResize_settled h Hs Ho) as (_ & _ & _ & H4 & H5).
      rewrite (IH (onResize h) Hs1 H5), H4. lia. }
  set (h' := run P DPR h (replicate (S n) Notify)) in *. clearbody h'.
  cbn [step]. rewrite H3. destruct (decide (id = nextTimer h + n)%nat) as [->|Hne].
  - rewrite bool_decide_eq_true_2 by (apply list_elem_of_singleton; reflexivity).
    cbn [clearTimeout timeouts sim nextTimer observing]. rewrite H3, filter_ne_singleton, H1, Hn, H4.
    reflexivity.
  - rewrite bool_decide_eq_false_2; [reflexivity|].
    intros Hin. apply list_elem_of_singleton in Hin. contradiction.
Qed.

End DebounceFacts.

Lemma onResize_debounces_witness :
  let h := Debounce.run Scenario.defaultProps 1 (Debounce.mounted Scenario.freshState) [] in
  let h' := Debounce.run Scenario.defaultProps 1 h (replicate 3 Debounce.Notify) in
  Debounce.sim h' = Debounce.sim h /\
  Debounce.step Scenario.defaultProps 1 h' (Debounce.Elapse 2 640 480 (fun _ => 0%R)) =
  if decide (2 = Debounce.nextTimer h + 2)%nat
  then Debounce.mkHost
         (Sim.handleResize Scenario.defaultProps 1 640 480 (fun _ => 0%R) (Debounce.sim h))
         None [] (S (Debounce.nextTimer h + 2)) true
  else h'.
Proof.
  exact (onResize_debounces Scenario.defaultProps 1 Scenario.freshState [] 2 2 640 480
           (fun _ => 0%R) eq_refl).
Defined.

(** ** The cleanup of the effect *)

Section LifecycleFacts.

Import Sim Debounce Lifecycle.

Variable noise : R -> R -> R.
Variable P : Props.
Variable DPR : R.

Local Abbreviation step := (Lifecycle.step noise P DPR).
Local Abbreviation run := (Lifecycle.run noise P DPR).

Lemma handleResize_animRef (w h : Z) (nows : nat -> R) (s : State) :
  animRef (handleResize P DPR w h nows s) = animRef s.
Proof. unfold handleResize. destruct (_ && _); reflexivity. Qed.

Lemma Debounce_step_animRef (h : Host) (ev : Debounce.Event) :
  animRef (sim (Debounce.step P DPR h ev)) = animRef (sim h).
Proof.
  destruct ev as [|id cw ch nows|]; cbn [Debounce.step].
  - destruct (observing h); [|reflexivity]. unfold onResize.
    destruct (resizeTimer h); reflexivity.
  - destruct (bool_decide _); [|reflexivity]. cbn [sim clearTimeout]. apply handleResize_animRef.
  - cbn [resizeTimer]. destruct (resizeTimer h); reflexivity.
Qed.

Lemma filter_all_equal (id : nat) (l : list nat) :
  Forall (fun k => k = id) l -> filter (fun k => k <> id) l = [].
Proof.
  induction 1 as [|k l Hk _ IH]; [reflexivity|].
  rewrite filter_cons. destruct (decide (k <> id)) as [N|_]; [contradiction|exact IH].
Qed.

Lemma mounted_wired (narrow : bool) (nows : nat -> R) (s : State) :
  wired (mounted P narrow nows s).
Proof.
  unfold mounted. destruct narrow; repeat split; cbn; try reflexivity; try constructor;
    try reflexivity; try constructor; discriminate.
Qed.

Lemma step_wired (e : Effect) (ev : Event) : wired e -> wired (step e ev).
Proof.
  intros (Hs & Hf & Hd). destruct ev as [|id cw ch nows| |id hidden now nows t|];
    cbn [Lifecycle.step].
  - repeat split; cbn [host frames startDelay]; [apply step_settled; exact Hs| |exact Hd].
    rewrite Debounce_step_animRef. exact Hf.
  - repeat split; cbn [host frames startDelay]; [apply step_settled; exact Hs| |exact Hd].
    rewrite Debounce_step_animRef. exact Hf.
  - destruct (startDelay e) eqn:Hsd;
      [|repeat split; [exact Hs|exact Hf|intros ?; congruence]].
    rewrite (Hd eq_refl). repeat split; cbn [host frames startDelay set_sim sim].
    + exact Hs.
    + repeat constructor.
    + discriminate.
  - destruct (bool_decide (id ∈ frames e)) eqn:Hin;
      [|repeat split; [exact Hs|exact Hf|exact Hd]].
    apply bool_decide_eq_true in Hin.
    assert (Hid : id = animRef (sim (host e))).
    { rewrite Forall_forall in Hf. apply Hf. exact Hin. }
    assert (Hsd : startDelay e = false).
    { destruct (startDelay e); [|reflexivity]. rewrite (Hd eq_refl) in Hin.
      apply elem_of_nil in Hin. destruct Hin. }
    repeat split; cbn [host frames startDelay set_sim sim].
    + exact Hs.
    + unfold cancelAnimationFrame. rewrite filter_all_equal by (rewrite Hid; exact Hf).
      repeat constructor.
    + rewrite Hsd. discriminate.
  - repeat split; cbn [host frames startDelay].
    + apply step_settled. exact Hs.
    + unfold cancelAnimationFrame. rewrite filter_all_equal by exact Hf. constructor.
    + intros _. unfold cancelAnimationFrame. apply filter_all_equal. exact Hf.
Qed.

Lemma run_wired (events : list Event) (e : Effect) : wired e -> wired (run e events).
Proof.
  revert e. induction events as [|ev events IH]; intros e He; [exact He|].
  apply IH, step_wired, He.
Qed.

(** A host after [Teardown]: nothing of [onResize] is pending, and no
    event of the observer changes it. *)
Lemma Teardown_quiet (h : Host) :
  settled h ->
  let h' := Debounce.step P DPR h Teardown in
  timeouts h' = [] /\ observing h' = false /\ sim h' = sim h /\
  forall ev, Debounce.step P DPR h' ev = h'.
Proof.
  intros Hs. cbn zeta.
  assert (H : timeouts (Debounce.step P DPR h Teardown) = [] /\
              observing (Debounce.step P DPR h Teardown) = false /\
              sim (Debounce.step P DPR h Teardown) = sim h).
  { cbn [Debounce.step resizeTimer]. unfold settled in Hs. destruct (resizeTimer h) as [id|].
    - cbn [clearTimeout timeouts observing sim].
      destruct Hs as [[Ht _]|[Ht _]]; rewrite Ht; [rewrite filter_ne_singleton|]; repeat split.
    - cbn [timeouts observing sim]. rewrite Hs. repeat split. }
  destruct H as (Ht & Ho & Hsim). repeat split; try assumption.
  set (h' := Debounce.step P DPR h Teardown) in *. clearbody h'.
  intros ev. destruct ev as [|id cw ch nows|]; cbn [Debounce.step].
  - rewrite Ho. reflexivity.
  - rewrite Ht. rewrite bool_decide_eq_false_2; [reflexivity|apply not_elem_of_nil].
  - cbn [resizeTimer]. destruct h' as [s0 r0 t0 n0 o0]. cbn in *. subst.
    destruct r0; reflexivity.
Qed.

Lemma step_after_cleanup (e : Effect) (ev : Event) :
  timeouts (host e) = [] -> observing (host e) = false -> frames e = [] ->
  (forall dev, Debounce.step P DPR (host e) dev = host e) ->
  ev <> StartElapse \/ startDelay e = false ->
  step e ev = e.
Proof.
  intros Ht Ho Hf Hq Hev. destruct e as [h sd fs]. cbn [host frames startDelay] in *. subst fs.
  destruct ev as [|id cw ch nows| |id hidden now nows t|];
    cbn [Lifecycle.step host frames startDelay].
  - rewrite Hq. reflexivity.
  - rewrite Hq. reflexivity.
  - destruct Hev as [N| ->]; [contradiction N; reflexivity|reflexivity].
  - rewrite bool_decide_eq_false_2; [reflexivity|apply not_elem_of_nil].
  - rewrite Hq. reflexivity.
Qed.

(** X27. After the cleanup of the effect no timeout of [onResize] and no
    frame request is pending and the observer is disconnected: no
    notification, timeout of [onResize] or frame changes anything any more.
    The start-delay timeout is not cleared: if it was still pending it stays
    so, and when it elapses it requests a frame, which then runs [frame] on
    the simulation. *)
Theorem teardown_stops_resizing (narrow : bool) (nows0 : nat -> R) (s : State)
  (before after : list Event) :
  let e0 := run (mounted P narrow nows0 s) before in
  let e := step e0 Cleanup in
  (timeouts (host e) = [] /\ observing (host e) = false /\ frames e = [] /\
   sim (host e) = sim (host e0) /\ startDelay e = startDelay e0) /\
  (Forall (fun ev => ev <> StartElapse) after \/ startDelay e = false -> run e after = e) /\
  (startDelay e = true ->
   let e' := step e StartElapse in
   sim (host e') = requestAnimationFrame (sim (host e)) /\
   frames e' = [animRef (sim (host e'))] /\
   forall hidden now nows t,
     sim (host (step e' (Tick (animRef (sim (host e'))) hidden now nows t))) =
     frame noise P hidden now nows t (sim (host e'))).
Proof.
  cbn zeta.
  assert (Hw : wired (run (mounted P narrow nows0 s) before)) by apply run_wired, mounted_wired.
  set (e0 := run (mounted P narrow nows0 s) before) in *. clearbody e0.
  destruct Hw as (Hs & Hf & Hd).
  destruct (Teardown_quiet (host e0) Hs) as (Ht & Ho & Hsim & Hq).
  assert (Hfr : frames (step e0 Cleanup) = []).
  { cbn [Lifecycle.step frames]. apply filter_all_equal. exact Hf. }
  split; [|split].
  - cbn [Lifecycle.step host startDelay] in *. repeat split; assumption.
  - intros Hafter.
    set (e := step e0 Cleanup) in *.
    assert (He : timeouts (host e) = [] /\ observing (host e) = false /\ frames e = [] /\
                 (forall dev, Debounce.step P DPR (host e) dev = host e)).
    { repeat split; assumption. }
    clearbody e. clear - He Hafter. destruct He as (Ht & Ho & Hfr & Hq).
    induction after as [|ev after IH]; [reflexivity|].
    unfold Lifecycle.run. cbn [foldl].
    assert (Hev : ev <> StartElapse \/ startDelay e = false).
    { destruct Hafter as [Hall|Hsd]; [left; exact (Forall_inv Hall)|right; exact Hsd]. }
    rewrite (step_after_cleanup e ev Ht Ho Hfr Hq Hev).
    apply IH. destruct Hafter as [Hall|Hsd]; [left; exact (Forall_inv_tail Hall)|right; exact Hsd].
  - intros Hsd. cbn zeta.
    set (e := step e0 Cleanup) in *. clearbody e.
    cbn [Lifecycle.step]. rewrite Hsd, Hfr. cbn [host frames set_sim sim app].
    repeat split. intros hidden now nows t.
    cbn [Lifecycle.step frames host set_sim sim].
    rewrite bool_decide_eq_true_2 by (apply list_elem_of_singleton; reflexivity).
    reflexivity.
Qed.

End LifecycleFacts.

Lemma teardown_stops_resizing_witness :
  Lifecycle.frames
    (Lifecycle.step Scenario.stillNoise Scenario.defaultProps 1
       (Lifecycle.step Scenario.stillNoise Scenario.defaultProps 1
          (Lifecycle.mounted Scenario.defaultProps true (fun _ => 0%R) Scenario.pairState)
          Lifecycle.Cleanup)
       Lifecycle.StartElapse) = [1%nat].
Proof.
  destruct (teardown_stops_resizing Scenario.stillNoise Scenario.defaultProps 1 true
              (fun _ => 0%R) Scenario.pairState [] []) as (_ & _ & Hstart).
  destruct (Hstart eq_refl) as (_ & Hframes & _). exact Hframes.
Defined.

(** ** The initial loader *)

Section LoaderFacts.

Import Sim Loader.

Variable Number : string -> option R.
Variable String_ : R -> string.

Local Open Scope R_scope.

(** X28. The loader is shown at most once in thirty minutes: when a mount at
    [now] showed it and stamped the storage, then, however far the timeouts
    got and whether or not the component was unmounted, a mount at [later]
    with the class gone shows it exactly when more than thirty minutes
    passed; and while the class is still there, a mount shows it and leaves
    the stamp alone. *)
Theorem mount_throttle (now later t : R) (unmounted : bool) (p : Page) :
  active p = false -> shouldShow Number now p = true ->
  String_ now <> ""%string -> Number (String_ now) = Some now -> now <> 0 ->
  let st := advance t (mount Number String_ now p) in
  let '(p', _) := if unmounted then unmount st else st in
  lastShown p' = Some (String_ now) /\
  (active p' = false ->
   shouldShow Number later p' = true <-> THIRTY_MINUTES_MS < later - now) /\
  (active p' = true ->
   shouldShow Number later p' = true /\ fst (mount Number String_ later p') = p').
Proof.
  intros Ha Hshow Hne Hnum H0. cbn zeta. unfold mount. rewrite Hshow, Ha. cbn [negb].
  assert (Hlast : forall b, last Number (mkPage b (Some (String_ now))) = Some now).
  { intros b. unfold last. cbn [lastShown].
    destruct (String.eqb (String_ now) "") eqn:E; [apply String.eqb_eq in E; contradiction|].
    exact Hnum. }
  assert (Hoff : shouldShow Number later (mkPage false (Some (String_ now))) = true <->
                 THIRTY_MINUTES_MS < later - now).
  { unfold shouldShow. rewrite Hlast. cbn [active orb].
    unfold Reqb. destruct (Req_dec_T now 0) as [E|_]; [contradiction|]. cbn [orb].
    unfold Rltb. destruct (Rlt_dec THIRTY_MINUTES_MS (later - now)); split; intros; try assumption;
      try reflexivity; try discriminate; contradiction. }
  assert (Hon : shouldShow Number later (mkPage true (Some (String_ now))) = true /\
                fst (if negb (shouldShow Number later (mkPage true (Some (String_ now))))
                     then (mkPage true (Some (String_ now)), mkLoader false false None None false)
                     else (if active (mkPage true (Some (String_ now)))
                           then mkPage true (Some (String_ now))
                           else mkPage true (Some (String_ later)),
                           mkLoader true true (Some (later + DISPLAY_MS))
                                    (Some (later + DISPLAY_MS + FADE_OUT_MS)) true)) =
                mkPage true (Some (String_ now))).
  { unfold shouldShow. cbn [active orb negb fst]. split; reflexivity. }
  unfold advance. cbn [hideTimer cleanupTimer render visible hasCleanup lastShown].
  destruct (due (Some (now + DISPLAY_MS)) t);
    cbn [hideTimer cleanupTimer render visible hasCleanup lastShown];
    destruct (due (Some (now + DISPLAY_MS + FADE_OUT_MS)) t);
    destruct unmounted; cbn [unmount hasCleanup lastShown active];
    (split; [reflexivity|]); split; intros Hact; try discriminate Hact;
    first [exact Hoff | exact Hon].
Qed.

(** X29. The life of a loader that is shown: rendered and visible for three
    seconds; then hidden, with the class removed from the root element;
    half a second later not rendered any more, and no timeout left. *)
Theorem advance_stages (now t : R) (p : Page) :
  shouldShow Number now p = true ->
  let '(p', l) := advance t (mount Number String_ now p) in
  (t < now + 3000 ->
   render l = true /\ visible l = true /\ active p' = true) /\
  (now + 3000 <= t < now + 3500 ->
   render l = true /\ visible l = false /\ active p' = false /\ hideTimer l = None) /\
  (now + 3500 <= t ->
   render l = false /\ visible l = false /\ active p' = false /\
   hideTimer l = None /\ cleanupTimer l = None).
Proof.
  intros Hshow. unfold mount. rewrite Hshow. cbn [negb].
  unfold advance, due, DISPLAY_MS, FADE_OUT_MS, Rltb.
  cbn [hideTimer cleanupTimer render visible hasCleanup lastShown].
  destruct (Rlt_dec t (now + 3000)) as [H1|H1]; cbn [negb];
    cbn [hideTimer cleanupTimer render visible hasCleanup lastShown];
    destruct (Rlt_dec t (now + 3000 + 500)) as [H2|H2]; cbn [negb];
    cbn [hideTimer cleanupTimer render visible hasCleanup lastShown active];
    (split; [|split]); intros H; try lra; repeat split.
  all: destruct (active p) eqn:E; cbn [active]; congruence.
Qed.

(** X30. Unmounting clears both timeouts and removes the class: nothing
    changes afterwards, whatever time passes; a loader that was not shown has
    nothing to clean up and leaves the page as it was. *)
Theorem unmount_clears (now t t' : R) (p : Page) :
  let st := unmount (advance t (mount Number String_ now p)) in
  advance t' st = st /\ unmount st = st /\
  hideTimer (snd st) = None /\ cleanupTimer (snd st) = None /\
  (shouldShow Number now p = true -> active (fst st) = false) /\
  (shouldShow Number now p = false -> st = (p, mkLoader false false None None false)).
Proof.
  cbn zeta. unfold mount. destruct (shouldShow Number now p); cbn [negb].
  - unfold advance. cbn [hideTimer cleanupTimer render visible hasCleanup lastShown].
    destruct (due (Some (now + DISPLAY_MS)) t);
      cbn [hideTimer cleanupTimer render visible hasCleanup lastShown];
      destruct (due (Some (now + DISPLAY_MS + FADE_OUT_MS)) t);
      cbn [unmount hasCleanup lastShown hideTimer cleanupTimer due fst snd active render visible];
      repeat split; intros; discriminate.
  - cbn [advance unmount hideTimer cleanupTimer due hasCleanup fst snd]. repeat split.
    intros; discriminate.
Qed.

End LoaderFacts.

Lemma mount_throttle_witness :
  let st := Loader.advance 5000
              (Loader.mount Sample.clockNumber Sample.clockString 1000 Sample.firstVisit) in
  let '(p', _) := if false then Loader.unmount st else st in
  Loader.lastShown p' = Some (Sample.clockString 1000) /\
  (Loader.active p' = false ->
   Loader.shouldShow Sample.clockNumber 2000000 p' = true <->
   (Loader.THIRTY_MINUTES_MS < 2000000 - 1000)%R) /\
  (Loader.active p' = true ->
   Loader.shouldShow Sample.clockNumber 2000000 p' = true /\
   fst (Loader.mount Sample.clockNumber Sample.clockString 2000000 p') = p').
Proof.
  apply (mount_throttle Sample.clockNumber Sample.clockString 1000 2000000 5000 false
           Sample.firstVisit).
  - reflexivity.
  - unfold Loader.shouldShow, Loader.last, Sim.Reqb. cbn.
    destruct (Req_dec_T 0 0) as [_|N]; [reflexivity|contradiction N; reflexivity].
  - discriminate.
  - reflexivity.
  - intros H. lra.
Defined.

Lemma advance_stages_witness :
  let '(p', l) := Loader.advance 3200
                    (Loader.mount Sample.clockNumber Sample.clockString 1000
                       Sample.firstVisit) in
  ((3200 < 1000 + 3000)%R ->
   Loader.render l = true /\ Loader.visible l = true /\ Loader.active p' = true) /\
  ((1000 + 3000 <= 3200 < 1000 + 3500)%R ->
   Loader.render l = true /\ Loader.visible l = false /\ Loader.active p' = false /\
   Loader.hideTimer l = None) /\
  ((1000 + 3500 <= 3200)%R ->
   Loader.render l = false /\ Loader.visible l = false /\ Loader.active p' = false /\
   Loader.hideTimer l = None /\ Loader.cleanupTimer l = None).
Proof.
  apply (advance_stages Sample.clockNumber Sample.clockString 1000 3200 Sample.firstVisit).
  unfold Loader.shouldShow, Loader.last, Sim.Reqb. cbn.
  destruct (Req_dec_T 0 0) as [_|N]; [reflexivity|contradiction N; reflexivity].
Defined.

(** ** The speed limit and the rendered radius on binary64 *)

Section Binary64Facts.

Import Floats SpecFloat.
Import Color Sim64.
Local Open Scope float_scope.
Local Set Warnings "-inexact-float".

Lemma SFcompare_refl (a : spec_float) : a <> S754_nan -> SFcompare a a = Some Eq.
Proof.
  destruct a as [s|s| |s m e]; cbn; try (destruct s; reflexivity); [contradiction|].
  intros _. rewrite Z.compare_refl.
  destruct s; rewrite ?Pos.compare_cont_refl; cbn; rewrite ?Pos.compare_refl; reflexivity.
Qed.

Lemma leb_refl (a : float) : is_nan a = false -> PrimFloat.leb a a = true.
Proof.
  intros Ha. rewrite FloatAxioms.leb_spec. unfold SFleb.
  rewrite (SFcompare_refl _ (is_nan_false a Ha)). reflexivity.
Qed.

Lemma is_nan_true (v : float) : Prim2SF v <> S754_nan -> is_nan v = false.
Proof.
  intros H. unfold is_nan. rewrite FloatAxioms.eqb_spec. unfold SFeqb.
  rewrite (SFcompare_refl _ H). reflexivity.
Qed.

Lemma leb_numbers (a b : float) :
  PrimFloat.leb a b = true -> is_nan a = false /\ is_nan b = false.
Proof.
  rewrite FloatAxioms.leb_spec. unfold SFleb. intros H.
  split; apply is_nan_true; intros E; rewrite E in H.
  - cbn in H. discriminate H.
  - destruct (Prim2SF a) as [s|s| |s m e]; cbn in H; try destruct s; discriminate H.
Qed.

(** [Math.max] and [Math.min] of two numbers: one of the two, on the right
    side of both. *)
Lemma Math_max_number (a b : float) :
  is_nan a = false -> is_nan b = false ->
  (Math_max a b = a \/ Math_max a b = b) /\
  PrimFloat.leb a (Math_max a b) = true /\ PrimFloat.leb b (Math_max a b) = true.
Proof.
  intros Ha Hb. unfold Math_max. rewrite Ha, Hb. cbn [orb].
  destruct (PrimFloat.ltb a b) eqn:Hab.
  - split; [right; reflexivity|]. split; [apply ltb_leb; exact Hab|apply leb_refl; exact Hb].
  - destruct (PrimFloat.ltb b a) eqn:Hba.
    + split; [left; reflexivity|]. split; [apply leb_refl; exact Ha|apply ltb_leb; exact Hba].
    + pose proof (not_ltb_leb a b Ha Hb Hab) as Lba.
      pose proof (not_ltb_leb b a Hb Ha Hba) as Lab.
      destruct (classify a); (split; [first [left; reflexivity|right; reflexivity]|]);
        split; first [apply leb_refl; assumption|assumption].
Qed.

Lemma Math_min_number (a b : float) :
  is_nan a = false -> is_nan b = false ->
  (Math_min a b = a \/ Math_min a b = b) /\
  PrimFloat.leb (Math_min a b) a = true /\ PrimFloat.leb (Math_min a b) b = true.
Proof.
  intros Ha Hb. unfold Math_min. rewrite Ha, Hb. cbn [orb].
  destruct (PrimFloat.ltb a b) eqn:Hab.
  - split; [left; reflexivity|]. split; [apply leb_refl; exact Ha|apply ltb_leb; exact Hab].
  - destruct (PrimFloat.ltb b a) eqn:Hba.
    + split; [right; reflexivity|]. split; [apply ltb_leb; exact Hba|apply leb_refl; exact Hb].
    + pose proof (not_ltb_leb a b Ha Hb Hab) as Lba.
      pose proof (not_ltb_leb b a Hb Ha Hba) as Lab.
      destruct (classify a); (split; [first [left; reflexivity|right; reflexivity]|]);
        split; first [apply leb_refl; assumption|assumption].
Qed.

(** The clamp [Math.min(hi, Math.max(lo, v))] of a number [v] between
    numbers [lo <= hi]. *)
Lemma clamp_between (lo hi v : float) :
  PrimFloat.leb lo hi = true -> is_nan v = false ->
  PrimFloat.leb lo (Math_min hi (Math_max lo v)) = true /\
  PrimFloat.leb (Math_min hi (Math_max lo v)) hi = true.
Proof.
  intros Hlh Hv. destruct (leb_numbers lo hi Hlh) as [Hlo Hhi].
  destruct (Math_max_number lo v Hlo Hv) as (Hm & Hlm & _).
  assert (Hmn : is_nan (Math_max lo v) = false) by (destruct Hm as [-> | ->]; assumption).
  destruct (Math_min_number hi (Math_max lo v) Hhi Hmn) as (Hr & Hrh & _).
  split; [|exact Hrh].
  destruct Hr as [-> | ->]; assumption.
Qed.

Variable sin_approx : float -> float.

Lemma rNow_between (P : Props) (t : float) (b : Bubble) :
  PrimFloat.leb (radiusMin P) (radiusMax P) = true ->
  is_nan (rBase b + rAmp b * rPulse sin_approx P t b) = false ->
  PrimFloat.leb (radiusMin P) (rNow sin_approx P t b) = true /\
  PrimFloat.leb (rNow sin_approx P t b) (radiusMax P) = true.
Proof. intros H1 H2. unfold rNow. apply clamp_between; assumption. Qed.

End Binary64Facts.

Section Binary64Claims.

Import Floats.
Import Color Sim64 Sample64.
Local Open Scope float_scope.
Local Set Warnings "-inexact-float".

(** C4.  The speed limit is missed by rounding.  A bubble in the middle
    of an 800 x 600 canvas whose velocity, the forces added, is (8.1, 3.2) is
    damped to a speed of 8.099547209566717 and rescaled to
    (3.720207959823955, 1.469711786597118): the sum of the squares of these
    two floats is above 16, and [Math.hypot] itself, computed either way,
    measures a speed above [maxVel].  Nothing bounces, so this is the velocity
    the step leaves. *)
Theorem settle_exceeds_maxVel (Math_hypot : float -> float -> float) :
  Math_hypot (8.1 * 0.93) (3.2 * 0.93) = 8.099547209566717 ->
  let b' := settle Math_hypot 800 600 fastBubble in
  vx b' = 3.720207959823955 /\ vy b' = 1.469711786597118 /\
  QArith_base.Qlt (QArith_base.inject_Z 16)
    (QArith_base.Qplus (QArith_base.Qmult (exact (vx b')) (exact (vx b')))
                       (QArith_base.Qmult (exact (vy b')) (exact (vy b')))) /\
  PrimFloat.ltb maxVel (hypotSqrt (vx b') (vy b')) = true /\
  PrimFloat.ltb maxVel (hypotScaled (vx b') (vy b')) = true.
Proof.
  intros Hvel. cbn zeta.
  assert (E : settle Math_hypot 800 600 fastBubble =
              mkBubble 403.72020795982394 301.46971178659714 3.720207959823955
                       1.469711786597118 120 120 12 1 0).
  { cbv [settle limit fst snd vx vy x y r rBase rAmp rPeriodFactor noisePhase fastBubble
         damping].
    rewrite Hvel. vm_compute. reflexivity. }
  rewrite E. cbn [vx vy]. repeat split; vm_compute; reflexivity.
Qed.

(** Both ways of computing [Math.hypot] give the damped speed the theorem
    starts from. *)
Lemma settle_exceeds_maxVel_witness :
  (hypotSqrt (8.1 * 0.93) (3.2 * 0.93) = 8.099547209566717 /\
   PrimFloat.ltb maxVel (hypotSqrt (vx (settle hypotSqrt 800 600 fastBubble))
                                   (vy (settle hypotSqrt 800 600 fastBubble))) = true) /\
  (hypotScaled (8.1 * 0.93) (3.2 * 0.93) = 8.099547209566717 /\
   PrimFloat.ltb maxVel (hypotScaled (vx (settle hypotScaled 800 600 fastBubble))
                                     (vy (settle hypotScaled 800 600 fastBubble))) = true).
Proof.
  split.
  - assert (H : hypotSqrt (8.1 * 0.93) (3.2 * 0.93) = 8.099547209566717)
      by (vm_compute; reflexivity).
    split; [exact H|]. apply (settle_exceeds_maxVel hypotSqrt H).
  - assert (H : hypotScaled (8.1 * 0.93) (3.2 * 0.93) = 8.099547209566717)
      by (vm_compute; reflexivity).
    split; [exact H|]. apply (settle_exceeds_maxVel hypotScaled H).
Defined.

(** C3.  The clamp of the rendered radius lets NaN through.  With a
    pulse period of 1e-310 seconds, [rPeriodMs] is positive, the phase
    quotient [(t + noisePhase * 1000) / rPeriodMs] overflows to infinity,
    [Infinity % 1] is NaN, and so are the sine, the pulsating radius and, after
    [Math.max] and [Math.min], the radius that is drawn, whatever the engine's
    sine: it is not within [[radiusMin, radiusMax]] = [[120, 460]]. *)
Theorem rNow_tiny_period_is_nan (sin_approx : float -> float) :
  PrimFloat.ltb 0 (radiusPulseSeconds tinyPeriodProps * 1000 * rPeriodFactor fastBubble)
    = true /\
  (1000 + noisePhase fastBubble * 1000) /
    (radiusPulseSeconds tinyPeriodProps * 1000 * rPeriodFactor fastBubble) = infinity /\
  rNow sin_approx tinyPeriodProps 1000 fastBubble = nan /\
  PrimFloat.leb (radiusMin tinyPeriodProps) (rNow sin_approx tinyPeriodProps 1000 fastBubble)
    = false /\
  PrimFloat.leb (rNow sin_approx tinyPeriodProps 1000 fastBubble) (radiusMax tinyPeriodProps)
    = false.
Proof. vm_compute. repeat split. Qed.

End Binary64Claims.
